(** * GeoConvert conversion pipeline: a shallow embedding of the services,
      the job manager and the artifact retrieval endpoint, with the
      properties stated about them.

    Python integers are [Z]; Python [str] values are [string]s; [None] is
    [option]'s [None]; exceptions are explicit result constructors; objects
    that are mutated in place live in an explicit store. *)

From Stdlib Require Import ZArith QArith List Bool String Ascii Lia DecimalString.
From stdpp Require Import base option list gmap strings.
Import ListNotations.

Local Open Scope string_scope.
Local Open Scope list_scope.
Local Open Scope Z_scope.

(* ===================================================================== *)
(** * Python values *)
(* ===================================================================== *)

Module Py.

(** [len(l)] *)
Definition len {A} (l : list A) : Z := Z.of_nat (length l).

(** [d.get(key, default)] on a key that may be missing. *)
Definition get {A} (o : option A) (default : A) : A :=
  match o with Some v => v | None => default end.

(** Truth value of an optional integer: [None] and 0 are false. *)
Definition truthy (o : option Z) : bool :=
  match o with Some n => negb (n =? 0) | None => false end.

(** [str(n)] of an integer. *)
Definition str_of_int (n : Z) : string := NilZero.string_of_int (Z.to_int n).

(** Floats are rationals here; [int(x)] truncates towards zero. *)
Definition int_of (x : Q) : Z := Z.quot (Qnum x) (Zpos (Qden x)).

Definition Qlt_bool (x y : Q) : bool := negb (Qle_bool y x).

(** [s.lower()] on the letters A to Z. *)
Definition lower_char (c : ascii) : ascii :=
  let n := nat_of_ascii c in
  if (65 <=? n)%nat && (n <=? 90)%nat then ascii_of_nat (n + 32) else c.

Fixpoint str_lower (s : string) : string :=
  match s with
  | EmptyString => EmptyString
  | String c s' => String (lower_char c) (str_lower s')
  end.

(** [needle in hay] *)
Fixpoint str_in (needle hay : string) : bool :=
  String.prefix needle hay
  || match hay with
     | EmptyString => false
     | String _ hay' => str_in needle hay'
     end.

(** [s[:n]] *)
Definition str_take (n : nat) (s : string) : string := String.substring 0 n s.

Fixpoint str_drop (n : nat) (s : string) : string :=
  match n, s with
  | S k, String _ s' => str_drop k s'
  | _, _ => s
  end.

(** [s.replace(old, new)]: the occurrences of [old] from the left,
    without overlap; an empty [old] matches before every character and at
    the end. *)
Fixpoint str_replace_from (fuel : nat) (old new s : string) : string :=
  match fuel with
  | O => s
  | S k =>
      if String.prefix old s && negb (String.eqb old "") then
        new +:+ str_replace_from k old new (str_drop (String.length old) s)
      else
        match s with
        | EmptyString => if String.eqb old "" then new else EmptyString
        | String c s' =>
            (if String.eqb old "" then new else "")
            +:+ String c (str_replace_from k old new s')
        end
  end.

Definition str_replace (old new s : string) : string :=
  str_replace_from (S (String.length s)) old new s.

Example str_replace_ext : str_replace ".shp" ".zip" "/tmp/out_a1.shp" = "/tmp/out_a1.zip".
Proof. reflexivity. Qed.

Example str_replace_twice : str_replace "bc" "X" "abcabc" = "aXaX".
Proof. reflexivity. Qed.

Example str_replace_empty_old : str_replace "" "-" "ab" = "-a-b-".
Proof. reflexivity. Qed.

Example str_in_connection : str_in "Connection" "psycopg2: Connection refused" = true.
Proof. reflexivity. Qed.

Lemma Qlt_bool_iff (x y : Q) : Qlt_bool x y = true <-> (x < y)%Q.
Proof.
  unfold Qlt_bool. rewrite negb_true_iff.
  split.
  - intros H. apply Qnot_le_lt. intros Hle.
    apply Qle_bool_iff in Hle. congruence.
  - intros H. destruct (Qle_bool y x) eqn:E; [|reflexivity].
    apply Qle_bool_iff in E. exfalso. exact (Qlt_not_le _ _ H E).
Qed.

Lemma len_filter_split {A} (p : A -> bool) (l : list A) :
  len (List.filter p l) + len (List.filter (fun x => negb (p x)) l) = len l.
Proof.
  unfold len. induction l as [|x l IH]; simpl; [reflexivity|].
  destruct (p x); simpl; lia.
Qed.

Lemma len_map {A B} (f : A -> B) (l : list A) : len (map f l) = len l.
Proof. unfold len. now rewrite length_map. Qed.

Lemma str_app_nil_r (s : string) : s +:+ "" = s.
Proof.
  induction s as [|c s IH]; [reflexivity|].
  change (String c (s +:+ "") = String c s). now rewrite IH.
Qed.

(** Replacing a suffix that starts with a character the rest of the
    string does not have. *)
Lemma str_replace_from_suffix (d : ascii) (rest new : string) : forall t fuel,
  (forall c, In c (list_ascii_of_string t) -> c <> d) ->
  (String.length t < fuel)%nat ->
  str_replace_from fuel (String d rest) new (t +:+ String d rest) = t +:+ new.
Proof.
  induction t as [|c t IH]; intros fuel Hno Hfuel.
  - destruct fuel as [|k]; [cbn in Hfuel; lia|].
    change ("" +:+ String d rest) with (String d rest).
    change ("" +:+ new) with new.
    cbn [str_replace_from].
    assert (Hp : String.prefix (String d rest) (String d rest) = true).
    { clear. cbn. destruct (ascii_dec d d) as [_|Hne]; [|congruence].
      induction rest as [|a r IHr]; cbn; [reflexivity|].
      destruct (ascii_dec a a); [exact IHr | congruence]. }
    rewrite Hp. cbn [String.eqb andb negb].
    assert (Hd : str_drop (String.length (String d rest)) (String d rest) = "").
    { clear. generalize (String d rest). intros s.
      induction s as [|a s IHs]; [reflexivity | exact IHs]. }
    rewrite Hd. destruct k; cbn [str_replace_from String.prefix andb];
      apply str_app_nil_r.
  - destruct fuel as [|k]; [cbn in Hfuel; lia|].
    change (String c t +:+ String d rest) with (String c (t +:+ String d rest)).
    change (String c t +:+ new) with (String c (t +:+ new)).
    cbn [str_replace_from].
    assert (Hp : String.prefix (String d rest) (String c (t +:+ String d rest)) = false).
    { cbn. destruct (ascii_dec d c) as [<-|_]; [|reflexivity].
      exfalso. apply (Hno d); [now left | reflexivity]. }
    rewrite Hp. cbn [String.eqb andb negb].
    change ("" +:+ String c ?x) with (String c x). f_equal.
    apply IH.
    + intros c' Hc'. apply Hno. now right.
    + cbn in Hfuel. lia.
Qed.

Lemma str_app_assoc (s t u : string) : (s +:+ t) +:+ u = s +:+ (t +:+ u).
Proof.
  induction s as [|c s IH]; [reflexivity|].
  change (String c ((s +:+ t) +:+ u) = String c (s +:+ (t +:+ u))). now rewrite IH.
Qed.

Lemma str_length_app (s t : string) :
  String.length (s +:+ t) = (String.length s + String.length t)%nat.
Proof.
  induction s as [|c s IH]; [reflexivity|].
  change (S (String.length (s +:+ t)) = S (String.length s + String.length t)).
  now rewrite IH.
Qed.

Lemma list_ascii_of_app (s t : string) :
  list_ascii_of_string (s +:+ t) = list_ascii_of_string s ++ list_ascii_of_string t.
Proof.
  induction s as [|c s IH]; [reflexivity|].
  change (c :: list_ascii_of_string (s +:+ t)
          = c :: (list_ascii_of_string s ++ list_ascii_of_string t)).
  now rewrite IH.
Qed.

(** [(t + old).replace(old, new)] when [old] starts with a character that
    [t] does not have. *)
Lemma str_replace_suffix (d : ascii) (rest new t : string) :
  (forall c, In c (list_ascii_of_string t) -> c <> d) ->
  str_replace (String d rest) new (t +:+ String d rest) = t +:+ new.
Proof.
  intros Hno. unfold str_replace. apply str_replace_from_suffix; [exact Hno|].
  rewrite str_length_app. lia.
Qed.

Lemma Qlt_bool_false (x y : Q) : Qlt_bool x y = false -> (y <= x)%Q.
Proof.
  unfold Qlt_bool. intros H. apply negb_false_iff in H. now apply Qle_bool_iff.
Qed.

(** Bounds on [int(x / d)]. *)
Lemma int_of_div_lower (x : Q) (d : positive) (n : Z) :
  0 <= n -> (inject_Z (n * Zpos d) <= x)%Q -> n <= int_of (x / inject_Z (Zpos d))%Q.
Proof.
  intros Hn Hle. unfold int_of, Qdiv, Qmult, Qinv, inject_Z, Qle in *. cbn in *.
  rewrite Z.mul_1_r in *.
  assert (H0 : 0 <= Qnum x) by nia.
  rewrite Z.quot_div_nonneg by lia.
  apply Z.div_le_lower_bound; [lia|].
  rewrite Pos2Z.inj_mul. nia.
Qed.

Lemma int_of_div_upper (x : Q) (d : positive) (m n : Z) :
  0 <= n -> m < (n + 1) * Zpos d -> (x <= inject_Z m)%Q ->
  int_of (x / inject_Z (Zpos d))%Q <= n.
Proof.
  intros Hn Hm Hle. unfold int_of, Qdiv, Qmult, Qinv, inject_Z, Qle in *. cbn in *.
  rewrite Z.mul_1_r in *.
  destruct (Z.le_gt_cases 0 (Qnum x)) as [H0|H0].
  - rewrite Z.quot_div_nonneg by lia.
    apply Z.lt_succ_r. apply Z.div_lt_upper_bound; [lia|].
    rewrite Pos2Z.inj_mul. nia.
  - assert (Z.quot (Qnum x) (Z.pos (Qden x * d)) <= 0); [|lia].
    rewrite <- (Z.opp_involutive (Qnum x)), Z.quot_opp_l by lia.
    assert (0 <= Z.quot (- Qnum x) (Z.pos (Qden x * d))) by (apply Z.quot_pos; lia).
    lia.
Qed.

End Py.


(* ===================================================================== *)
(** * services/geometry_cleaner.py *)
(* ===================================================================== *)

Module GeometryCleaner.
Import Py.

Section Cleaner.
(** Shapely is outside the repository: the geometry type and the four
    library functions the cleaner calls are taken as they are. A call of
    [make_valid] that raises is [None]. [drop_duplicates] compares
    geometries, so equality on them is decidable. *)
Context {geometry : Type} `{EqDecision geometry}.
Context {attrs : Type}.
Variable is_valid : geometry -> bool.
Variable is_empty : geometry -> bool.
Variable make_valid : geometry -> option geometry.
Variable explain_validity : geometry -> string.

(** One row of the GeoDataFrame: its index label, the value of its
    geometry column ([None] is a missing geometry) and its attributes. *)
Record row := Row {
  index : Z;
  geom : option geometry;
  attr : attrs;
}.

(** The cleaner reads and writes the rows only. *)
Definition GeoRows := list row.

Record stats := Stats {
  total_input : Z;
  null_geometry : Z;
  invalid_before : Z;
  fixed : Z;
  unfixable : Z;
  empty_after_fix : Z;
  duplicates_removed : Z;
  total_output : Z;
  error_details : list (Z * string);
}.

(** [gdf.geometry.isna()] *)
Definition isna (r : row) : bool :=
  match geom r with None => true | Some _ => false end.

(** [shapely.is_valid] and [shapely.is_empty] answer [False] on [None]. *)
Definition is_valid_opt (g : option geometry) : bool :=
  match g with None => false | Some g => is_valid g end.

Definition is_empty_opt (g : option geometry) : bool :=
  match g with None => false | Some g => is_empty g end.

(** The nested function [fix_geometry] of [clean]. *)
Definition fix_geometry (g : option geometry) : option geometry :=
  match g with
  | None => None
  | Some g =>
      if is_empty g then None
      else if is_valid g then Some g
      else match make_valid g with
           | Some fixed' => if is_empty fixed' then None else Some fixed'
           | None => None
           end
  end.

Definition set_geometry (f : option geometry -> option geometry) (r : row) : row :=
  {| index := index r; geom := f (geom r); attr := attr r |}.

(** [gdf.drop_duplicates(subset=["geometry"])]: the first row of each
    geometry is kept. [seen] holds the geometries of the rows before. *)
Fixpoint drop_duplicates_from (seen : list (option geometry)) (gdf : GeoRows)
  : GeoRows :=
  match gdf with
  | [] => []
  | r :: rest =>
      if decide (geom r ∈ seen) then drop_duplicates_from seen rest
      else r :: drop_duplicates_from (geom r :: seen) rest
  end.

Definition drop_duplicates := drop_duplicates_from [].

(** [gdf.reset_index(drop=True)] *)
Fixpoint reset_index_from (i : Z) (gdf : GeoRows) : GeoRows :=
  match gdf with
  | [] => []
  | r :: rest =>
      {| index := i; geom := geom r; attr := attr r |} :: reset_index_from (i + 1) rest
  end.

Definition reset_index := reset_index_from 0.

Definition empty_mask (r : row) : bool := isna r || is_empty_opt (geom r).

(** [GeometryCleaner.clean]. The dataset has its geometry column, so
    [gdf.empty] after step 1 says that no row is left. *)
Definition clean (gdf : GeoRows) : GeoRows * stats :=
  let total_input := len gdf in
  (* step 1 *)
  let null_geometry := len (List.filter isna gdf) in
  let gdf := List.filter (fun r => negb (isna r)) gdf in
  match gdf with
  | [] =>
      (gdf, {| total_input := total_input; null_geometry := null_geometry;
               invalid_before := 0; fixed := 0; unfixable := 0;
               empty_after_fix := 0; duplicates_removed := 0;
               total_output := 0; error_details := [] |})
  | _ :: _ =>
      (* step 2 *)
      let invalid_mask := fun r => negb (is_valid_opt (geom r)) in
      let invalid_before := len (List.filter invalid_mask gdf) in
      let error_details :=
        map (fun r => (index r,
                       match geom r with
                       | Some g => explain_validity g
                       | None => ""
                       end))
            (take 10 (List.filter invalid_mask gdf)) in
      (* step 3 *)
      let gdf := map (set_geometry fix_geometry) gdf in
      (* step 4 *)
      let empty_after_fix := len (List.filter empty_mask gdf) in
      let unfixable := empty_after_fix in
      let fixed := invalid_before - unfixable in
      let gdf := List.filter (fun r => negb (empty_mask r)) gdf in
      (* step 5 *)
      let before_dedup := len gdf in
      let gdf := drop_duplicates gdf in
      let duplicates_removed := before_dedup - len gdf in
      let gdf := reset_index gdf in
      (gdf, {| total_input := total_input; null_geometry := null_geometry;
               invalid_before := invalid_before; fixed := fixed;
               unfixable := unfixable; empty_after_fix := empty_after_fix;
               duplicates_removed := duplicates_removed;
               total_output := len gdf; error_details := error_details |})
  end.

(** ** Counting lemmas *)

Lemma len_reset_index_from i gdf : len (reset_index_from i gdf) = len gdf.
Proof.
  unfold len. revert i. induction gdf as [|r gdf IH]; intros i; simpl; [reflexivity|].
  specialize (IH (i + 1)). lia.
Qed.

Lemma reset_index_geoms i gdf :
  map geom (reset_index_from i gdf) = map geom gdf.
Proof.
  revert i. induction gdf as [|r gdf IH]; intros i; simpl; [reflexivity|].
  now rewrite IH.
Qed.

(** ** The conservation equation *)

(** C1: for every dataset, the stats returned by [clean] satisfy
    duplicates_removed + null_geometry + unfixable + total_output =
    total_input; this covers the empty dataset and the dataset that is
    empty once the null geometries are dropped (the early return). The
    count [total_output] is the number of rows returned. *)
Theorem clean_conservation (gdf : GeoRows) :
  let st := (clean gdf).2 in
  duplicates_removed st + null_geometry st + unfixable st + total_output st
    = total_input st
  /\ total_input st = len gdf
  /\ total_output st = len (clean gdf).1.
Proof.
  unfold clean.
  pose proof (len_filter_split isna gdf) as Hnull.
  destruct (List.filter (fun r => negb (isna r)) gdf) as [|r0 rest] eqn:Hkept.
  - simpl. change (len []) with 0 in Hnull. repeat split; lia.
  - set (kept := r0 :: rest) in *.
    set (fixed_rows := map (set_geometry fix_geometry) kept).
    cbn [snd fst total_input null_geometry unfixable duplicates_removed total_output].
    pose proof (len_filter_split empty_mask fixed_rows) as Hempty.
    assert (Hmap : len fixed_rows = len kept) by apply len_map.
    unfold reset_index. rewrite len_reset_index_from.
    repeat split; lia.
Qed.

(** ** A valid empty geometry *)

Definition single (g : geometry) (a : attrs) : GeoRows :=
  [ {| index := 0; geom := Some g; attr := a |} ].

Lemma fix_geometry_empty (g : geometry) :
  is_empty g = true -> fix_geometry (Some g) = None.
Proof. intros He. simpl. now rewrite He. Qed.

(** The repair function is applied to every remaining row, whatever the
    validity mask says. *)
Lemma clean_repairs_every_row (gdf : GeoRows) r0 rest :
  List.filter (fun r => negb (isna r)) gdf = r0 :: rest ->
  map geom (clean gdf).1
    = map geom (drop_duplicates
        (List.filter (fun r => negb (empty_mask r))
           (map (set_geometry fix_geometry) (r0 :: rest)))).
Proof.
  intros Hk. unfold clean. rewrite Hk. cbn [fst].
  unfold reset_index. apply reset_index_geoms.
Qed.

(** C9: a geometry that is valid but empty is nulled by the repair
    function and counted in [unfixable]: on the dataset made of one such
    geometry, [invalid_before] is 0, [unfixable] is 1 and [fixed] is -1,
    so [unfixable > invalid_before] and [fixed] is negative. *)
Theorem clean_valid_empty_geometry (g : geometry) (a : attrs) :
  is_empty g = true ->
  is_valid g = true ->
  let st := (clean (single g a)).2 in
  fix_geometry (Some g) = None
  /\ invalid_before st = 0
  /\ unfixable st = 1
  /\ fixed st = -1
  /\ unfixable st > invalid_before st
  /\ fixed st < 0
  /\ (clean (single g a)).1 = [].
Proof.
  intros He Hv. unfold clean, single. simpl.
  unfold empty_mask, isna, set_geometry, len. simpl.
  rewrite Hv, He. simpl. repeat split; lia.
Qed.

(** ** What the cleaned dataset looks like *)

Lemma row_eta (r : row) : {| index := index r; geom := geom r; attr := attr r |} = r.
Proof. now destruct r. Qed.

Lemma reset_index_indices gdf : forall i,
  map index (reset_index_from i gdf)
  = map (fun k => i + Z.of_nat k) (seq 0 (length gdf)).
Proof.
  induction gdf as [|r gdf IH]; intros i; cbn; [reflexivity|].
  f_equal; [lia|]. rewrite IH, <- seq_shift, map_map.
  apply map_ext. intros k. lia.
Qed.

Lemma drop_duplicates_from_spec gdf : forall seen,
  List.NoDup (map geom (drop_duplicates_from seen gdf))
  /\ (forall g, In g (map geom (drop_duplicates_from seen gdf)) -> ~ In g seen)
  /\ (forall r, In r (drop_duplicates_from seen gdf) -> In r gdf).
Proof.
  induction gdf as [|r gdf IH]; intros seen; cbn [drop_duplicates_from].
  - cbn. split_and!; [constructor | tauto | tauto].
  - destruct (decide (geom r ∈ seen)) as [Hin|Hnin].
    + destruct (IH seen) as (Hnd & Hseen & Hsub).
      split_and!; [exact Hnd | exact Hseen | intros r' Hr'; right; auto].
    + destruct (IH (geom r :: seen)) as (Hnd & Hseen & Hsub).
      cbn [map]. split_and!.
      * constructor; [|exact Hnd]. intros Hin. apply (Hseen _ Hin). now left.
      * intros g [<-|Hg].
        -- intros Hin. apply Hnin. now apply list_elem_of_In.
        -- intros Hin. apply (Hseen _ Hg). now right.
      * intros r' [<-|Hr']; [now left | right; auto].
Qed.


(** A geometry that the repair keeps is not empty, and it is the
    geometry itself when that was valid. *)
Lemma fix_geometry_Some (go : option geometry) (g' : geometry) :
  fix_geometry go = Some g' ->
  is_empty g' = false
  /\ exists g, go = Some g /\ is_empty g = false
       /\ ((is_valid g = true /\ g' = g)
           \/ (is_valid g = false /\ make_valid g = Some g')).
Proof.
  destruct go as [g|]; cbn; [|discriminate].
  destruct (is_empty g) eqn:He; [discriminate|].
  destruct (is_valid g) eqn:Hv.
  - intros [= <-]. split; [exact He|]. exists g. auto.
  - destruct (make_valid g) as [f|] eqn:Hm; [|discriminate].
    destruct (is_empty f) eqn:Hf; [discriminate|].
    intros [= <-]. split; [exact Hf|]. exists g. auto.
Qed.

(** The geometry of a row that [clean] returns comes out of the repair of
    a row of the input. *)
Lemma clean_output_geoms (gdf : GeoRows) (go : option geometry) :
  In go (map geom (clean gdf).1) ->
  exists r g', In r gdf /\ go = Some g' /\ fix_geometry (geom r) = Some g'.
Proof.
  unfold clean.
  destruct (List.filter (fun r => negb (isna r)) gdf) as [|r0 rest] eqn:Hkept;
    cbn [fst]; [intros []|].
  unfold reset_index. rewrite reset_index_geoms. rewrite <- Hkept.
  intros Hin. apply in_map_iff in Hin as (r' & <- & Hr').
  apply drop_duplicates_from_spec in Hr'.
  apply List.filter_In in Hr' as [Hr' Hmask].
  apply in_map_iff in Hr' as (r & <- & Hr).
  apply List.filter_In in Hr as [Hr _].
  unfold empty_mask, isna in Hmask. cbn [set_geometry geom] in *.
  destruct (fix_geometry (geom r)) as [g'|] eqn:Hfix; [|discriminate].
  exists r, g'. auto.
Qed.

Lemma clean_output_nodup (gdf : GeoRows) :
  List.NoDup (map geom (clean gdf).1).
Proof.
  unfold clean.
  destruct (List.filter (fun r => negb (isna r)) gdf) as [|r0 rest];
    cbn [fst]; [constructor|].
  unfold reset_index. rewrite reset_index_geoms.
  apply drop_duplicates_from_spec.
Qed.

Lemma clean_output_indices (gdf : GeoRows) :
  map index (clean gdf).1 = map Z.of_nat (seq 0 (length (clean gdf).1)).
Proof.
  unfold clean.
  destruct (List.filter (fun r => negb (isna r)) gdf) as [|r0 rest];
    cbn [fst]; [reflexivity|].
  unfold reset_index. rewrite reset_index_indices.
  replace (length (reset_index_from 0 _)) with (length (drop_duplicates
    (List.filter (fun r => negb (empty_mask r))
       (map (set_geometry fix_geometry) (r0 :: rest))))).
  - apply map_ext. intros k. lia.
  - pose proof (len_reset_index_from 0 (drop_duplicates
      (List.filter (fun r => negb (empty_mask r))
         (map (set_geometry fix_geometry) (r0 :: rest))))) as Hlen.
    unfold len in Hlen. lia.
Qed.

(** X1: every row that [clean] returns has a geometry that is there and is
    not empty, no two rows have the same geometry, and the rows are
    numbered 0, 1, 2, ... *)
Theorem clean_output_wellformed (gdf : GeoRows) :
  let out := (clean gdf).1 in
  Forall (fun go => exists g, go = Some g /\ is_empty g = false) (map geom out)
  /\ List.NoDup (map geom out)
  /\ map index out = map Z.of_nat (seq 0 (length out)).
Proof.
  cbn zeta. split_and!.
  - apply List.Forall_forall. intros go Hin.
    apply clean_output_geoms in Hin as (r & g' & _ & -> & Hfix).
    exists g'. split; [reflexivity|]. now apply fix_geometry_Some in Hfix.
  - apply clean_output_nodup.
  - apply clean_output_indices.
Qed.




Lemma len_filter_le {A B} (p : B -> bool) (q : A -> bool) (f : A -> B) (l : list A) :
  (forall x, In x l -> p (f x) = true -> q x = true) ->
  len (List.filter p (map f l)) <= len (List.filter q l).
Proof.
  unfold len. induction l as [|x l IH]; intros Himp; cbn; [lia|].
  assert (IH' : (length (List.filter p (map f l)) <= length (List.filter q l))%nat).
  { assert (H0 : forall x0, In x0 l -> p (f x0) = true -> q x0 = true)
      by (intros; apply Himp; [now right | assumption]).
    specialize (IH H0). lia. }
  destruct (p (f x)) eqn:Hp.
  - rewrite (Himp x (or_introl eq_refl) Hp). cbn. lia.
  - destruct (q x); cbn; lia.
Qed.

(** X3: when the dataset holds no empty geometry, only invalid geometries
    can be lost in the repair: [unfixable] is at most [invalid_before] and
    [fixed] lies between 0 and [invalid_before]. *)
Theorem clean_fixed_bounds (gdf : GeoRows) :
  (forall r g, In r gdf -> geom r = Some g -> is_empty g = false) ->
  let st := (clean gdf).2 in
  unfixable st <= invalid_before st
  /\ 0 <= fixed st <= invalid_before st.
Proof.
  intros Hne. cbn zeta.
  unfold clean.
  destruct (List.filter (fun r => negb (isna r)) gdf) as [|r0 rest] eqn:Hkept.
  - cbn. lia.
  - set (kept := r0 :: rest) in *.
    cbn [snd invalid_before unfixable fixed].
    assert (Hle : len (List.filter empty_mask (map (set_geometry fix_geometry) kept))
                  <= len (List.filter (fun r => negb (is_valid_opt (geom r))) kept)).
    { apply len_filter_le. intros r Hr Hmask.
      assert (Hin : In r gdf).
      { rewrite <- Hkept in Hr. now apply List.filter_In in Hr as [Hr _]. }
      unfold empty_mask, isna, is_empty_opt in Hmask. cbn [set_geometry geom] in Hmask.
      destruct (geom r) as [g|] eqn:Hg.
      - pose proof (Hne r g Hin Hg) as He. cbn [fix_geometry is_valid_opt] in *.
        rewrite He in Hmask.
        destruct (is_valid g); [|reflexivity].
        cbn in Hmask. now rewrite He in Hmask.
      - reflexivity. }
    assert (0 <= len (List.filter empty_mask (map (set_geometry fix_geometry) kept)))
      by (unfold len; lia).
    lia.
Qed.

(** When [make_valid] gives valid geometries, every row that [clean]
    returns has a geometry that is there, not empty, and valid. *)
Lemma clean_output_valid (gdf : GeoRows) :
  (forall g g', make_valid g = Some g' -> is_valid g' = true) ->
  forall r, In r (clean gdf).1 ->
    exists g, geom r = Some g /\ is_empty g = false /\ is_valid g = true.
Proof.
  intros Hmv r Hr.
  assert (Hin : In (geom r) (map geom (clean gdf).1)) by now apply in_map.
  apply clean_output_geoms in Hin as (r0 & g' & _ & Hg & Hfix).
  exists g'. split; [exact Hg|].
  apply fix_geometry_Some in Hfix as (He & g & _ & _ & [[Hv ->]|[_ Hm]]); eauto.
Qed.

(** X4: when [make_valid] gives valid geometries, cleaning a cleaned
    dataset changes nothing: the same rows come back, and the second run
    counts no null, invalid, unfixable or duplicate geometry. *)
Theorem clean_idempotent (gdf : GeoRows) :
  (forall g g', make_valid g = Some g' -> is_valid g' = true) ->
  let out := (clean gdf).1 in
  (clean out).1 = out
  /\ null_geometry (clean out).2 = 0
  /\ invalid_before (clean out).2 = 0
  /\ unfixable (clean out).2 = 0
  /\ duplicates_removed (clean out).2 = 0
  /\ total_output (clean out).2 = total_input (clean out).2.
Proof.
  intros Hmv. cbn zeta.
  pose proof (clean_output_nodup gdf) as Hnd.
  pose proof (clean_output_indices gdf) as Hidx.
  pose proof (clean_output_valid gdf Hmv) as Hgood.
  set (out := (clean gdf).1) in *. clearbody out.
  assert (Hnotna : List.filter (fun r => negb (isna r)) out = out).
  { apply forallb_filter_id. apply forallb_forall. intros r Hr.
    destruct (Hgood r Hr) as (g & Hg & _). unfold isna. now rewrite Hg. }
  assert (Hna : List.filter isna out = []).
  { clear -Hgood. induction out as [|r out IH]; [reflexivity|]. cbn.
    destruct (Hgood r (or_introl eq_refl)) as (g & Hg & _). unfold isna at 1.
    rewrite Hg. apply IH. intros; apply Hgood; now right. }
  assert (Hfix : map (set_geometry fix_geometry) out = out).
  { clear -Hgood. induction out as [|r out IH]; [reflexivity|]. cbn. f_equal.
    - destruct (Hgood r (or_introl eq_refl)) as (g & Hg & He & Hv).
      unfold set_geometry. rewrite Hg. cbn. rewrite He, Hv. rewrite <- Hg. apply row_eta.
    - apply IH. intros; apply Hgood; now right. }
  assert (Hvalid : List.filter (fun r => negb (is_valid_opt (geom r))) out = []).
  { clear -Hgood. induction out as [|r out IH]; [reflexivity|]. cbn.
    destruct (Hgood r (or_introl eq_refl)) as (g & Hg & He & Hv).
    rewrite Hg. cbn. rewrite Hv. cbn. apply IH. intros; apply Hgood; now right. }
  assert (Hmask : forall r, In r out -> empty_mask r = false).
  { intros r Hr. destruct (Hgood r Hr) as (g & Hg & He & _).
    unfold empty_mask, isna. rewrite Hg. cbn. exact He. }
  assert (Hkeep : List.filter (fun r => negb (empty_mask r)) out = out).
  { apply forallb_filter_id. apply forallb_forall. intros r Hr.
    now rewrite (Hmask r Hr). }
  assert (Hnone : List.filter empty_mask out = []).
  { clear -Hmask. induction out as [|r out IH]; [reflexivity|]. cbn.
    rewrite (Hmask r (or_introl eq_refl)). apply IH. intros; apply Hmask; now right. }
  assert (Hdd : forall seen,
            (forall g, In g (map geom out) -> ~ In g seen) ->
            drop_duplicates_from seen out = out).
  { clear -Hnd. induction out as [|r out IH]; intros seen Hseen; [reflexivity|].
    cbn [drop_duplicates_from]. inversion Hnd as [|? ? Hnin Hnd']; subst.
    destruct (decide (geom r ∈ seen)) as [Hin|_].
    - exfalso. apply (Hseen (geom r)); [now left | now apply list_elem_of_In].
    - f_equal. apply IH; [exact Hnd'|].
      intros g Hg [<-|Hin]; [contradiction|]. apply (Hseen g); [now right | exact Hin]. }
  assert (Hreset : forall l i,
            map index l = map (fun k => i + Z.of_nat k) (seq 0 (length l)) ->
            reset_index_from i l = l).
  { induction l as [|r l IH]; intros i Hl; [reflexivity|]. cbn in *.
    injection Hl as Hi Hrest. f_equal.
    - destruct r; cbn in *. f_equal. lia.
    - apply IH. rewrite Hrest, <- seq_shift, map_map. apply map_ext. intros k. lia. }
  unfold clean. rewrite Hnotna, Hna.
  destruct out as [|r0 rest]; [cbn; split_and!; reflexivity|].
  rewrite Hfix, Hkeep, Hnone, Hvalid.
  unfold drop_duplicates. rewrite (Hdd []) by (intros g _ []).
  unfold reset_index. rewrite Hreset
    by (rewrite Hidx; apply map_ext; intros k; lia).
  cbn [fst snd null_geometry invalid_before unfixable duplicates_removed
       total_output total_input].
  change (len []) with 0. split_and!; try reflexivity; lia.
Qed.

End Cleaner.

(** A small geometry kit to run the cleaner on: points, the empty point and
    a self-crossing ring that repairs to a pair of triangles. *)
Inductive sample_geometry :=
  | EmptyPoint
  | Point (x y : Z)
  | BowTie
  | TwoTriangles.

#[export] Instance sample_geometry_eq_dec : EqDecision sample_geometry.
Proof. solve_decision. Defined.

Definition sample_is_empty (g : sample_geometry) : bool :=
  match g with EmptyPoint => true | _ => false end.

Definition sample_is_valid (g : sample_geometry) : bool :=
  match g with BowTie => false | _ => true end.

Definition sample_make_valid (g : sample_geometry) : option sample_geometry :=
  match g with BowTie => Some TwoTriangles | _ => Some g end.

Definition sample_explain (g : sample_geometry) : string :=
  match g with BowTie => "Self-intersection" | _ => "Valid Geometry" end.

Lemma clean_valid_empty_geometry_witness :
  let st := (clean sample_is_valid sample_is_empty sample_make_valid sample_explain
               (single EmptyPoint tt)).2 in
  unfixable st > invalid_before st /\ fixed st < 0.
Proof.
  pose proof (clean_valid_empty_geometry sample_is_valid sample_is_empty
                sample_make_valid sample_explain EmptyPoint tt
                eq_refl eq_refl) as H.
  simpl in H. simpl. tauto.
Defined.

(** A dataset with a missing geometry, a self-crossing ring and a point
    given twice. *)
Definition sample_rows : @GeoRows sample_geometry string :=
  [ {| index := 10; geom := None; attr := "a" |};
    {| index := 11; geom := Some BowTie; attr := "b" |};
    {| index := 12; geom := Some (Point 1 2); attr := "c" |};
    {| index := 13; geom := Some (Point 1 2); attr := "d" |} ].

Definition sample_clean :=
  clean (attrs := string) sample_is_valid sample_is_empty sample_make_valid sample_explain.

Example sample_clean_run :
  sample_clean sample_rows
  = ([ {| index := 0; geom := Some TwoTriangles; attr := "b" |};
       {| index := 1; geom := Some (Point 1 2); attr := "c" |} ],
     {| total_input := 4; null_geometry := 1; invalid_before := 1; fixed := 1;
        unfixable := 0; empty_after_fix := 0; duplicates_removed := 1;
        total_output := 2; error_details := [(11, "Self-intersection")] |}).
Proof. vm_compute. reflexivity. Qed.

Lemma clean_fixed_bounds_witness :
  let st := (sample_clean sample_rows).2 in
  unfixable st <= invalid_before st /\ 0 <= fixed st <= invalid_before st.
Proof.
  apply (clean_fixed_bounds sample_is_valid sample_is_empty sample_make_valid
           sample_explain sample_rows).
  intros r g [<-|[<-|[<-|[<-|[]]]]]; cbn; intros [= <-]; reflexivity.
Defined.

Lemma clean_idempotent_witness :
  (sample_clean (sample_clean sample_rows).1).1 = (sample_clean sample_rows).1.
Proof.
  apply (clean_idempotent sample_is_valid sample_is_empty sample_make_valid
           sample_explain sample_rows).
  intros [] g'; cbn; intros [= <-]; reflexivity.
Defined.

End GeometryCleaner.


(* ===================================================================== *)
(** * The in-memory dataset *)
(* ===================================================================== *)

Module Frame.

(** [gdf.crs]: a CRS that has an EPSG code, or one that has none
    ([to_epsg()] answers [None]). *)
Inductive CRS :=
  | EPSG (code : Z)
  | OtherCRS (wkt : string).

Definition to_epsg (c : CRS) : option Z :=
  match c with
  | EPSG code => Some code
  | OtherCRS _ => None
  end.

(** A GeoDataFrame: the column labels in order (the geometry column is
    one of them), the rows, and the CRS attribute. The cells of the other
    columns are kept inside each row's [attr]. *)
Record GeoDataFrame {geometry attrs : Type} := {
  columns : list string;
  rows : list (@GeometryCleaner.row geometry attrs);
  crs : option CRS;
}.
Arguments GeoDataFrame : clear implicits.

#[export] Instance GeoDataFrame_inhabited {geometry attrs} :
  Inhabited (GeoDataFrame geometry attrs) :=
  populate {| columns := []; rows := []; crs := None |}.

(** [DataFrame.empty]: one of the two axes has length 0. *)
Definition empty {geometry attrs} (gdf : GeoDataFrame geometry attrs) : bool :=
  match rows gdf, columns gdf with
  | [], _ => true
  | _, [] => true
  | _, _ => false
  end.

(** Python dicts keep insertion order; assigning to a key that is there
    keeps its place. *)
Fixpoint dict_set {V} (k : string) (v : V) (d : list (string * V)) : list (string * V) :=
  match d with
  | [] => [(k, v)]
  | (k', v') :: d' =>
      if String.eqb k k' then (k, v) :: d' else (k', v') :: dict_set k v d'
  end.

Definition keys {V} (d : list (string * V)) : list string := map fst d.

Lemma dict_set_In {V} (k : string) (v : V) d k' v' :
  In (k', v') (dict_set k v d) -> (k', v') = (k, v) \/ In (k', v') d.
Proof.
  induction d as [|[k0 v0] d IH]; cbn.
  - intros [H|[]]; auto.
  - destruct (String.eqb k k0); cbn; intros [H|H]; auto.
    destruct (IH H); auto.
Qed.

Lemma dict_set_keys {V} (k : string) (v : V) d k' :
  In k' (keys (dict_set k v d)) <-> k' = k \/ In k' (keys d).
Proof.
  unfold keys. induction d as [|[k0 v0] d IH]; cbn.
  - split; intros [H|H]; auto.
  - destruct (String.eqb_spec k k0) as [->|Hne]; cbn.
    + split; [intros [H|H]; auto | intros [H|[H|H]]; auto].
    + rewrite IH. split; [intros [H|[H|H]]; auto | intros [H|[H|H]]; auto].
Qed.

End Frame.


(* ===================================================================== *)
(** * services/attribute_normalizer.py *)
(* ===================================================================== *)

Module AttributeNormalizer.
Import Py Frame.

Definition chars := list ascii.

Definition is_between (lo hi : nat) (c : ascii) : bool :=
  ((lo <=? nat_of_ascii c) && (nat_of_ascii c <=? hi))%nat.

Definition is_lower (c : ascii) : bool := is_between 97 122 c.
Definition is_upper (c : ascii) : bool := is_between 65 90 c.
Definition is_digit (c : ascii) : bool := is_between 48 57 c.
Definition is_underscore (c : ascii) : bool := Ascii.eqb c "_".

(** The class [[a-zA-Z0-9_]] of the first substitution. *)
Definition word_char (c : ascii) : bool :=
  is_lower c || is_upper c || is_digit c || is_underscore c.

(** What [str.strip()] removes, among the ASCII characters. *)
Definition is_space (c : ascii) : bool := is_between 9 13 c || is_between 28 32 c.

(** [.encode("ascii", "ignore").decode()] *)
Definition encode_ascii_ignore (l : chars) : chars :=
  List.filter (fun c => (nat_of_ascii c <? 128)%nat) l.

Fixpoint drop_while (p : ascii -> bool) (l : chars) : chars :=
  match l with
  | [] => []
  | c :: rest => if p c then drop_while p rest else l
  end.

(** [s.strip()] and [s.strip("_")], by the set of characters removed. *)
Definition strip (p : ascii -> bool) (l : chars) : chars :=
  rev (drop_while p (rev (drop_while p l))).

(** [re.sub(r"[^a-zA-Z0-9_]", "_", s)] *)
Definition sub_non_word (l : chars) : chars :=
  map (fun c => if word_char c then c else "_"%char) l.

(** [re.sub(r"_+", "_", s)] *)
Fixpoint collapse_underscores (l : chars) : chars :=
  match l with
  | [] => []
  | c :: rest =>
      if is_underscore c then
        match rest with
        | c' :: _ => if is_underscore c' then collapse_underscores rest
                     else c :: collapse_underscores rest
        | [] => [c]
        end
      else c :: collapse_underscores rest
  end.

Definition SHAPEFILE : string := "ESRI Shapefile".

Definition GHOST_COLUMNS : list string :=
  ["fid"; "objectid"; "shape_area"; "shape_length"; "shape_leng"].

Section Normalizer.
(** [unicodedata.normalize("NFKD", name)], from the standard library. *)
Variable nfkd : string -> string.

(** [AttributeNormalizer._clean_column_name] *)
Definition _clean_column_name (name target_format : string) : string :=
  let name := encode_ascii_ignore (list_ascii_of_string (nfkd name)) in
  let name := sub_non_word (strip is_space (map lower_char name)) in
  let name := strip is_underscore (collapse_underscores name) in
  let name :=
    match name with
    | c :: _ => if is_digit c then list_ascii_of_string "col_" ++ name else name
    | [] => name
    end in
  let name := if String.eqb target_format SHAPEFILE then take 10 name else name in
  match name with
  | [] => "col"
  | _ :: _ => string_of_list_ascii name
  end.

(** The first loop of [normalize]: the dict [rename_map]. *)
Fixpoint build_rename_map (columns : list string) (target_format : string)
    (rename_map : list (string * string)) : list (string * string) :=
  match columns with
  | [] => rename_map
  | col :: rest =>
      if String.eqb col "geometry" then build_rename_map rest target_format rename_map
      else
        let clean := _clean_column_name col target_format in
        if negb (String.eqb clean col)
        then build_rename_map rest target_format (dict_set col clean rename_map)
        else build_rename_map rest target_format rename_map
  end.

(** The second loop, over [rename_map.items()]: [seen] counts the uses of
    each new name; the items of [final_rename] are returned. *)
Fixpoint deduplicate (items : list (string * string)) (seen : gmap string Z)
  : list (string * string) :=
  match items with
  | [] => []
  | (old, new) :: rest =>
      match seen !! new with
      | Some n =>
          let n := n + 1 in
          (old, new +:+ "_" +:+ str_of_int n) :: deduplicate rest (<[new := n]> seen)
      | None => (old, new) :: deduplicate rest (<[new := 0]> seen)
      end
  end.

(** [final_rename.get(col, col)] *)
Fixpoint rename_get (final_rename : list (string * string)) (col : string) : string :=
  match final_rename with
  | [] => col
  | (old, new) :: rest => if String.eqb col old then new else rename_get rest col
  end.

Definition is_ghost (c : string) : bool :=
  bool_decide (str_lower c ∈ GHOST_COLUMNS) && negb (String.eqb c "geometry").

(** The column labels after [normalize]: steps 1 and 2 rename and drop
    columns; steps 3 to 5 work on the values and keep the labels. *)
Definition normalize_columns (columns : list string) (target_format : string)
    (drop_ghost_cols : bool) : list string :=
  let rename_map := build_rename_map columns target_format [] in
  let final_rename := deduplicate rename_map ∅ in
  let columns := map (rename_get final_rename) columns in
  if drop_ghost_cols then
    let cols_to_drop := List.filter is_ghost columns in
    List.filter (fun c => negb (bool_decide (c ∈ cols_to_drop))) columns
  else columns.

(** The stats of [normalize] that come from the labels; the two that
    come from the values (type conversions, standardized nulls) are left
    out with the values. *)
Record stats := {
  columns_renamed : list (string * string);
  columns_dropped : list string;
}.

(** [AttributeNormalizer.normalize]. The values of the attribute columns
    are not represented, so steps 3 to 5, which rewrite values under the
    labels of step 2, leave the dataset as it is. *)
Definition normalize {geometry attrs : Type} (gdf : GeoDataFrame geometry attrs)
    (target_format : string) (drop_ghost_cols : bool)
  : GeoDataFrame geometry attrs * stats :=
  let final_rename :=
    deduplicate (build_rename_map (columns gdf) target_format []) ∅ in
  let renamed := map (rename_get final_rename) (columns gdf) in
  ({| columns := normalize_columns (columns gdf) target_format drop_ghost_cols;
      rows := rows gdf;
      crs := crs gdf |},
   {| columns_renamed := final_rename;
      columns_dropped := if drop_ghost_cols then List.filter is_ghost renamed else [] |}).

End Normalizer.

(** NFKD leaves ASCII text as it is. *)
Definition nfkd_of_ascii (s : string) : string := s.

(** The regular expression [^[a-z_][a-z0-9_]*$]. *)
Definition ident_char (c : ascii) : bool := is_lower c || is_digit c || is_underscore c.

Definition matches_identifier (s : string) : bool :=
  match list_ascii_of_string s with
  | [] => false
  | c :: rest => (is_lower c || is_underscore c) && forallb ident_char rest
  end.

Example clean_nom : _clean_column_name nfkd_of_ascii "  Nom de la Commune " "GeoJSON"
                    = "nom_de_la_commune".
Proof. vm_compute. reflexivity. Qed.

Example clean_digit : _clean_column_name nfkd_of_ascii "2020 pop." SHAPEFILE = "col_2020_p".
Proof. vm_compute. reflexivity. Qed.

Example clean_symbols : _clean_column_name nfkd_of_ascii "--%--" "GeoJSON" = "col".
Proof. vm_compute. reflexivity. Qed.

Example normalize_columns_plain :
  normalize_columns nfkd_of_ascii ["FID"; "Nom"; "POP 2020"; "pop-2020"; "geometry"]
    "GeoJSON" true
  = ["nom"; "pop_2020"; "pop_2020_1"; "geometry"].
Proof. vm_compute. reflexivity. Qed.

(** ** The names that come out match the regular expression *)

Lemma lower_char_not_upper (c : ascii) : is_upper (lower_char c) = false.
Proof. destruct c as [[] [] [] [] [] [] [] []]; reflexivity. Qed.

Lemma word_char_ident (c : ascii) :
  is_upper c = false -> ident_char (if word_char c then c else "_"%char) = true.
Proof.
  intros Hup. unfold word_char, ident_char. rewrite Hup.
  destruct (is_lower c) eqn:Hl, (is_digit c) eqn:Hd, (is_underscore c) eqn:Hu;
    cbn [orb]; rewrite ?Hl, ?Hd, ?Hu; reflexivity.
Qed.

Lemma Forall_drop_while (P : ascii -> Prop) p l :
  Forall P l -> Forall P (drop_while p l).
Proof.
  induction 1 as [|c l Hc Hl IH]; cbn; [constructor|].
  destruct (p c); [exact IH | now constructor].
Qed.

Lemma Forall_strip (P : ascii -> Prop) p l : Forall P l -> Forall P (strip p l).
Proof.
  intros Hl. unfold strip.
  apply List.Forall_rev, Forall_drop_while, List.Forall_rev, Forall_drop_while, Hl.
Qed.

Lemma Forall_collapse (P : ascii -> Prop) l :
  Forall P l -> Forall P (collapse_underscores l).
Proof.
  induction 1 as [|c l Hc Hl IH]; cbn [collapse_underscores]; [constructor|].
  destruct (is_underscore c).
  - destruct l as [|c' l']; [now repeat constructor|].
    destruct (is_underscore c'); [exact IH | now constructor].
  - now constructor.
Qed.

(** The head of a stripped list is not a stripped character. *)
Lemma drop_while_head p l c rest : drop_while p l = c :: rest -> p c = false.
Proof.
  induction l as [|x l IH]; cbn; [discriminate|].
  destruct (p x) eqn:Hx; [exact IH | now intros [= <- _]].
Qed.

Lemma drop_while_rev_head p l c rest :
  p c = false -> l = c :: rest ->
  exists rest', rev (drop_while p (rev l)) = c :: rest'.
Proof.
  intros Hc ->. revert c Hc.
  induction rest as [|x rest IH] using rev_ind; intros c Hc.
  - cbn. rewrite Hc. cbn. eauto.
  - change (c :: rest ++ [x]) with ((c :: rest) ++ [x]).
    rewrite rev_app_distr. cbn [rev app drop_while].
    destruct (p x).
    + apply IH, Hc.
    + cbn [rev]. rewrite rev_app_distr, rev_involutive. cbn. eauto.
Qed.

Lemma strip_head p l c rest : strip p l = c :: rest -> p c = false.
Proof.
  unfold strip. intros Hs.
  destruct (drop_while p l) as [|c0 l0] eqn:Hd; [discriminate|].
  pose proof (drop_while_head _ _ _ _ Hd) as Hc0.
  destruct (drop_while_rev_head p (c0 :: l0) c0 l0 Hc0 eq_refl) as [rest' Hr].
  rewrite Hr in Hs. now injection Hs as <- _.
Qed.

Section Regex.
Variable nfkd : string -> string.

Definition ident (c : ascii) : Prop := ident_char c = true.

Lemma matches_identifier_chars (l : chars) c rest :
  l = c :: rest ->
  is_digit c = false -> Forall ident l ->
  matches_identifier (string_of_list_ascii l) = true.
Proof.
  intros -> Hd Hall. unfold matches_identifier.
  rewrite list_ascii_of_string_of_list_ascii.
  inversion Hall as [|? ? Hc Hrest]; subst.
  apply andb_true_intro. split.
  - unfold ident, ident_char in Hc. rewrite Hd in Hc.
    now rewrite orb_false_r in Hc.
  - apply forallb_forall. intros x Hx.
    rewrite List.Forall_forall in Hrest. now apply Hrest.
Qed.

Lemma clean_column_name_matches (name target_format : string) :
  matches_identifier (_clean_column_name nfkd name target_format) = true.
Proof.
  unfold _clean_column_name.
  set (l0 := encode_ascii_ignore (list_ascii_of_string (nfkd name))).
  set (l1 := sub_non_word (strip is_space (map lower_char l0))).
  set (l2 := strip is_underscore (collapse_underscores l1)).
  assert (H1 : Forall ident l1).
  { unfold l1, sub_non_word. apply List.Forall_map.
    apply Forall_strip. apply List.Forall_map.
    apply List.Forall_forall. intros c _. apply word_char_ident, lower_char_not_upper. }
  assert (H2 : Forall ident l2) by now apply Forall_strip, Forall_collapse.
  set (l3 := match l2 with
             | c :: _ => if is_digit c then list_ascii_of_string "col_" ++ l2 else l2
             | [] => l2
             end).
  assert (H3 : Forall ident l3 /\
               (l3 = [] \/ exists c rest, l3 = c :: rest /\ is_digit c = false)).
  { unfold l3. destruct l2 as [|c rest]; [split; [constructor | now left]|].
    destruct (is_digit c) eqn:Hd.
    - split; [|right; cbn; eauto].
      apply List.Forall_app. split; [|exact H2]. now repeat constructor.
    - split; [exact H2 | right; eauto]. }
  destruct H3 as [H3 Hhead].
  set (l4 := if String.eqb target_format SHAPEFILE then take 10 l3 else l3).
  assert (H4 : Forall ident l4 /\
               (l4 = [] \/ exists c rest, l4 = c :: rest /\ is_digit c = false)).
  { unfold l4. destruct (String.eqb target_format SHAPEFILE); [|now split].
    split; [now apply Forall_take|].
    destruct Hhead as [-> | (c & rest & -> & Hd)]; [now left | right; cbn; eauto]. }
  destruct H4 as [H4 [Hnil | (c & rest & Hl4 & Hd)]].
  - rewrite Hnil. reflexivity.
  - rewrite Hl4. rewrite <- Hl4.
    replace (match l4 with [] => "col" | _ :: _ => string_of_list_ascii l4 end)
      with (string_of_list_ascii l4) by now rewrite Hl4.
    now apply (matches_identifier_chars l4 c rest).
Qed.

Lemma chars_append (a b : string) :
  list_ascii_of_string (a +:+ b) = list_ascii_of_string a ++ list_ascii_of_string b.
Proof. induction a as [|c a IH]; cbn; [reflexivity | now rewrite <- IH]. Qed.

Lemma uint_digits (d : Decimal.uint) :
  Forall ident (list_ascii_of_string (NilEmpty.string_of_uint d)).
Proof. induction d; cbn; constructor; auto; reflexivity. Qed.

Lemma str_of_int_digits (n : Z) :
  0 <= n -> Forall ident (list_ascii_of_string (str_of_int n)).
Proof.
  intros Hn. unfold str_of_int. destruct n as [|p|p]; [now repeat constructor | | lia].
  cbn [Z.to_int NilZero.string_of_int]. unfold NilZero.string_of_uint.
  destruct (Pos.to_uint p); [now repeat constructor | apply uint_digits ..].
Qed.

Lemma matches_identifier_suffix (new : string) (n : Z) :
  matches_identifier new = true -> 0 <= n ->
  matches_identifier (new +:+ "_" +:+ str_of_int n) = true.
Proof.
  unfold matches_identifier. intros Hnew Hn. rewrite !chars_append.
  destruct (list_ascii_of_string new) as [|c rest]; [discriminate|].
  apply andb_prop in Hnew as [Hc Hrest]. cbn [app].
  apply andb_true_intro. split; [exact Hc|].
  rewrite forallb_app, Hrest. cbn [andb].
  apply forallb_forall. intros x Hx.
  assert (Hall : Forall ident (list_ascii_of_string "_" ++ list_ascii_of_string (str_of_int n))).
  { apply List.Forall_app. split; [now repeat constructor | now apply str_of_int_digits]. }
  rewrite List.Forall_forall in Hall. now apply Hall.
Qed.

(** *** The two dicts *)

Lemma build_rename_map_values columns target_format : forall init old new,
  In (old, new) (build_rename_map nfkd columns target_format init) ->
  In (old, new) init \/ new = _clean_column_name nfkd old target_format.
Proof.
  induction columns as [|col rest IH]; intros init old new; cbn; [auto|].
  destruct (String.eqb col "geometry"); [apply IH|].
  destruct (String.eqb (_clean_column_name nfkd col target_format) col); cbn [negb];
    [apply IH|].
  intros Hin. apply IH in Hin as [Hin|Hin]; [|auto].
  apply dict_set_In in Hin as [[= -> ->]|Hin]; auto.
Qed.

Lemma build_rename_map_keys columns target_format : forall init col,
  (In col (keys init) \/
   (In col columns /\ col <> "geometry"
    /\ _clean_column_name nfkd col target_format <> col)) ->
  In col (keys (build_rename_map nfkd columns target_format init)).
Proof.
  induction columns as [|c rest IH]; intros init col; cbn.
  - intros [H|[[] _]]. exact H.
  - destruct (String.eqb_spec c "geometry") as [->|Hg].
    + intros [H|[[H|H] [Hne Hcl]]]; apply IH; auto. congruence.
    + destruct (String.eqb_spec (_clean_column_name nfkd c target_format) c) as [Heq|Hne];
        cbn [negb].
      * intros [H|[[H|H] [Hne Hcl]]]; apply IH; auto. congruence.
      * intros [H|[[H|H] [Hne' Hcl]]]; apply IH.
        -- left. apply dict_set_keys. now right.
        -- left. apply dict_set_keys. now left.
        -- right. auto.
Qed.

Lemma deduplicate_keys items : forall seen,
  keys (deduplicate items seen) = keys items.
Proof.
  unfold keys. induction items as [|[old new] rest IH]; intros seen; cbn; [reflexivity|].
  destruct (seen !! new); cbn; now rewrite IH.
Qed.

Lemma deduplicate_values items : forall (seen : gmap string Z) old new',
  (forall k n, seen !! k = Some n -> 0 <= n) ->
  In (old, new') (deduplicate items seen) ->
  exists new, In (old, new) items
    /\ (new' = new \/ exists n, 0 <= n /\ new' = new +:+ "_" +:+ str_of_int n).
Proof.
  induction items as [|[old0 new0] rest IH]; intros seen old new' Hseen; cbn; [tauto|].
  destruct (seen !! new0) as [n|] eqn:Hn.
  - intros [[= <- <-]|Hin].
    + exists new0. split; [auto|]. right. exists (n + 1).
      split; [|reflexivity]. apply Hseen in Hn. lia.
    + apply IH in Hin as (new & Hin & Hnew); [eauto|].
      intros k m. rewrite lookup_insert. case_decide; [|apply Hseen].
      intros [= <-]. apply Hseen in Hn. lia.
  - intros [[= <- <-]|Hin]; [eauto|].
    apply IH in Hin as (new & Hin & Hnew); [eauto|].
    intros k m. rewrite lookup_insert. case_decide; [|apply Hseen].
    intros [= <-]. lia.
Qed.

Lemma rename_get_cases final_rename col :
  (~ In col (keys final_rename) /\ rename_get final_rename col = col)
  \/ In (col, rename_get final_rename col) final_rename.
Proof.
  unfold keys. induction final_rename as [|[old new] rest IH]; cbn; [auto|].
  destruct (String.eqb_spec col old) as [->|Hne]; [auto|].
  destruct IH as [[Hk Hg]|Hin]; [left | right; auto].
  split; [|exact Hg]. intros [H|H]; [congruence | contradiction].
Qed.

(** X5: every column label that [normalize] leaves, the geometry column
    apart, matches [^[a-z_][a-z0-9_]*$]. *)
Lemma normalize_columns_match (columns : list string) (target_format : string)
    (drop_ghost_cols : bool) (c : string) :
  In c (normalize_columns nfkd columns target_format drop_ghost_cols) ->
  c <> "geometry" ->
  matches_identifier c = true.
Proof.
  unfold normalize_columns.
  set (rename_map := build_rename_map nfkd columns target_format []).
  set (final_rename := deduplicate rename_map ∅).
  intros Hin Hgeo.
  assert (Hc : In c (map (rename_get final_rename) columns)).
  { destruct drop_ghost_cols; [|exact Hin]. now apply List.filter_In in Hin as [Hin _]. }
  apply List.in_map_iff in Hc as (col & <- & Hcol).
  destruct (rename_get_cases final_rename col) as [[Hk Hg]|Hren].
  - rewrite Hg in *. unfold final_rename in Hk. rewrite deduplicate_keys in Hk.
    destruct (String.eqb_spec (_clean_column_name nfkd col target_format) col) as [Heq|Hne].
    + rewrite <- Heq. apply clean_column_name_matches.
    + exfalso. apply Hk. apply build_rename_map_keys. right. auto.
  - apply deduplicate_values in Hren as (new & Hnew & Hshape);
      [|intros k n; rewrite lookup_empty; discriminate].
    apply build_rename_map_values in Hnew as [[]| ->].
    destruct Hshape as [-> | (n & Hn & ->)].
    + apply clean_column_name_matches.
    + apply matches_identifier_suffix; [apply clean_column_name_matches | exact Hn].
Qed.

End Regex.

(** ** Truncation comes before the suffix *)

Definition census_columns : list string :=
  ["population_2020"; "population_2021"; "geometry"].

(** C2, at a failing input: two columns whose names agree on their first
    10 characters, written to a shapefile. Both are cut to "population";
    the second then gets the suffix "_1", and its name has 12 characters.
    The names still match the regular expression and are distinct. *)
Theorem normalize_shapefile_name_longer_than_10 :
  normalize_columns nfkd_of_ascii census_columns SHAPEFILE true
    = ["population"; "population_1"; "geometry"]
  /\ String.length "population_1" = 12%nat
  /\ ~ Forall (fun c => (String.length c <= 10)%nat)
         (List.filter (fun c => negb (String.eqb c "geometry"))
            (normalize_columns nfkd_of_ascii census_columns SHAPEFILE true))
  /\ NoDup (normalize_columns nfkd_of_ascii census_columns SHAPEFILE true).
Proof.
  assert (Hrun : normalize_columns nfkd_of_ascii census_columns SHAPEFILE true
                 = ["population"; "population_1"; "geometry"])
    by (vm_compute; reflexivity).
  rewrite Hrun. split_and!; try reflexivity.
  - cbn. intros Hall. inversion Hall as [|? ? _ Hrest]; subst.
    inversion Hrest as [|? ? Hlen _]; subst. cbn in Hlen. lia.
  - apply (bool_decide_eq_true_1 _). vm_compute. reflexivity.
Qed.

(** The labels computed for a column and its lowercase twin: the renamed
    one lands on the label of the one that is left alone. *)
Example rename_onto_existing_label :
  map (rename_get
         (deduplicate (build_rename_map nfkd_of_ascii ["Nom"; "nom"; "geometry"] "GeoJSON" []) ∅))
      ["Nom"; "nom"; "geometry"]
  = ["nom"; "nom"; "geometry"].
Proof. vm_compute. reflexivity. Qed.

Lemma normalize_columns_match_witness :
  matches_identifier "pop_2020_1" = true.
Proof.
  apply (normalize_columns_match nfkd_of_ascii
           ["FID"; "Nom"; "POP 2020"; "pop-2020"; "geometry"] "GeoJSON" true).
  - vm_compute. tauto.
  - discriminate.
Defined.

(** ** Lengths, the geometry column, ghost columns *)

Section Labels.
Variable nfkd : string -> string.

Lemma length_string_of_list_ascii (l : chars) :
  String.length (string_of_list_ascii l) = length l.
Proof. induction l as [|c l IH]; cbn; [reflexivity | now rewrite IH]. Qed.

(** X6: a cleaned column name is never empty, and it has at most 10
    characters when the target format is the shapefile driver. *)
Theorem clean_column_name_length (name target_format : string) :
  (1 <= String.length (_clean_column_name nfkd name target_format))%nat
  /\ (target_format = SHAPEFILE ->
      (String.length (_clean_column_name nfkd name target_format) <= 10)%nat).
Proof.
  unfold _clean_column_name.
  set (l2 := strip is_underscore _).
  set (l3 := match l2 with
             | c :: _ => if is_digit c then list_ascii_of_string "col_" ++ l2 else l2
             | [] => l2
             end).
  destruct (String.eqb_spec target_format SHAPEFILE) as [->|Hne].
  - destruct (take 10 l3) as [|c rest] eqn:Ht; [cbn; split; intros; lia|].
    rewrite length_string_of_list_ascii, <- Ht, length_take.
    split; [|intros _; lia].
    assert (Hlen : length (take 10 l3) = length (c :: rest)) by now rewrite Ht.
    rewrite length_take in Hlen. change (length (c :: rest)) with (S (length rest)) in Hlen.
    lia.
  - destruct l3 as [|c rest]; [cbn; split; [lia | contradiction]|].
    rewrite length_string_of_list_ascii. cbn. split; [lia | contradiction].
Qed.




End Labels.

(** ** Cleaning a clean name *)

Section Idempotent.
Variable nfkd : string -> string.
(** NFKD leaves a string of ASCII characters as it is. *)
Hypothesis nfkd_ascii : forall s,
  forallb (fun c => (nat_of_ascii c <? 128)%nat) (list_ascii_of_string s) = true ->
  nfkd s = s.

(** The first character, if there is one, is not in the class [p]. *)
Definition head_not (p : ascii -> bool) (l : chars) : Prop :=
  match l with
  | [] => True
  | c :: _ => p c = false
  end.

(** No two underscores in a row. *)
Fixpoint no_double (l : chars) : Prop :=
  match l with
  | c :: rest =>
      match rest with
      | c' :: _ => is_underscore c && is_underscore c' = false
      | [] => True
      end /\ no_double rest
  | [] => True
  end.

(** What a cleaned name looks like before it is cut for a shapefile. *)
Definition tidy (l : chars) : Prop :=
  Forall ident l
  /\ head_not is_underscore l /\ head_not is_underscore (rev l)
  /\ head_not is_digit l /\ no_double l.

Lemma ident_char_facts (c : ascii) :
  ident_char c = true ->
  (nat_of_ascii c <? 128)%nat = true /\ lower_char c = c
  /\ is_space c = false /\ word_char c = true.
Proof.
  destruct c as [[] [] [] [] [] [] [] []]; vm_compute; intros H;
    try discriminate H; auto.
Qed.

Lemma drop_while_fixed p l : head_not p l -> drop_while p l = l.
Proof. destruct l as [|c rest]; cbn; [reflexivity | now intros ->]. Qed.

Lemma strip_fixed p l : head_not p l -> head_not p (rev l) -> strip p l = l.
Proof.
  intros Hhead Hlast. unfold strip.
  rewrite (drop_while_fixed p l Hhead), (drop_while_fixed p (rev l) Hlast).
  apply rev_involutive.
Qed.

Lemma head_not_Forall (p : ascii -> bool) (l : chars) :
  Forall (fun c => p c = false) l -> head_not p l /\ head_not p (rev l).
Proof.
  intros Hall. split.
  - destruct Hall; cbn; auto.
  - apply List.Forall_rev in Hall. destruct Hall; cbn; auto.
Qed.

Lemma collapse_fixed (l : chars) : no_double l -> collapse_underscores l = l.
Proof.
  induction l as [|c rest IH]; [reflexivity|].
  intros [Hpair Hrest]. cbn [collapse_underscores].
  destruct (is_underscore c) eqn:Hc.
  - destruct rest as [|c' rest']; [reflexivity|].
    cbn [andb] in Hpair. rewrite Hpair. f_equal. now apply IH.
  - f_equal. now apply IH.
Qed.

Lemma collapse_head (c : ascii) (rest : chars) :
  is_underscore c = false ->
  collapse_underscores (c :: rest) = c :: collapse_underscores rest.
Proof. intros Hc. cbn [collapse_underscores]. now rewrite Hc. Qed.

Lemma no_double_collapse (l : chars) : no_double (collapse_underscores l).
Proof.
  induction l as [|c rest IH]; [exact I|].
  cbn [collapse_underscores].
  destruct (is_underscore c) eqn:Hc.
  - destruct rest as [|c' rest']; [cbn; auto|].
    destruct (is_underscore c') eqn:Hc'; [exact IH|].
    rewrite (collapse_head c' rest' Hc') in *.
    split; [|exact IH]. now rewrite Hc, Hc'.
  - split; [|exact IH].
    destruct (collapse_underscores rest); [exact I | now rewrite Hc].
Qed.

Lemma no_double_app_r (a l : chars) : no_double (a ++ l) -> no_double l.
Proof. induction a as [|c a IH]; cbn [app]; [auto | intros [_ H]; auto]. Qed.

Lemma no_double_app_l (l b : chars) : no_double (l ++ b) -> no_double l.
Proof.
  induction l as [|c l IH]; cbn [app]; [intros _; exact I|].
  intros [Hpair Hrest]. split; [|auto].
  destruct l as [|c' l']; [exact I | exact Hpair].
Qed.

Lemma drop_while_suffix p l : exists a, l = a ++ drop_while p l.
Proof.
  induction l as [|c l [a IH]]; cbn; [now exists []|].
  destruct (p c); [exists (c :: a); cbn; now rewrite <- IH | now exists []].
Qed.

Lemma no_double_strip p l : no_double l -> no_double (strip p l).
Proof.
  intros Hl. unfold strip.
  destruct (drop_while_suffix p l) as [a Ha].
  destruct (drop_while_suffix p (rev (drop_while p l))) as [b Hb].
  assert (Hmid : drop_while p l = rev (drop_while p (rev (drop_while p l))) ++ rev b).
  { rewrite <- rev_app_distr, <- Hb. now rewrite rev_involutive. }
  rewrite Ha, Hmid in Hl.
  now apply no_double_app_r, no_double_app_l in Hl.
Qed.

Lemma strip_last p l : head_not p (rev (strip p l)).
Proof.
  unfold strip. rewrite rev_involutive.
  destruct (drop_while p (rev (drop_while p l))) as [|c rest] eqn:Hd; [exact I|].
  exact (drop_while_head _ _ _ _ Hd).
Qed.

Lemma strip_first p l : head_not p (strip p l).
Proof.
  destruct (strip p l) as [|c rest] eqn:Hs; [exact I|].
  exact (strip_head _ _ _ _ Hs).
Qed.

(** The steps of [_clean_column_name] before the cut give a tidy name. *)
Lemma cleaned_chars_tidy (name : string) :
  let l2 := strip is_underscore
              (collapse_underscores
                 (sub_non_word
                    (strip is_space
                       (map lower_char
                          (encode_ascii_ignore (list_ascii_of_string (nfkd name))))))) in
  tidy (match l2 with
        | c :: _ => if is_digit c then list_ascii_of_string "col_" ++ l2 else l2
        | [] => l2
        end).
Proof.
  cbn zeta.
  set (l1 := sub_non_word _).
  assert (H1 : Forall ident l1).
  { unfold l1, sub_non_word. apply List.Forall_map.
    apply Forall_strip. apply List.Forall_map.
    apply List.Forall_forall. intros c _. apply word_char_ident, lower_char_not_upper. }
  set (l2 := strip is_underscore (collapse_underscores l1)).
  assert (H2 : Forall ident l2) by now apply Forall_strip, Forall_collapse.
  assert (Hfirst : head_not is_underscore l2) by apply strip_first.
  assert (Hlast : head_not is_underscore (rev l2)) by apply strip_last.
  assert (Hnd : no_double l2) by apply no_double_strip, no_double_collapse.
  destruct l2 as [|c rest] eqn:Hl2; [repeat split; auto|].
  destruct (is_digit c) eqn:Hd.
  - unfold tidy. split_and!.
    + apply List.Forall_app. split; [now repeat constructor | exact H2].
    + reflexivity.
    + rewrite rev_app_distr.
      destruct (rev (c :: rest)) as [|x xs] eqn:Hrev; [|exact Hlast].
      apply (f_equal (@length ascii)) in Hrev. rewrite length_rev in Hrev. discriminate.
    + reflexivity.
    + cbn [list_ascii_of_string app]. cbn [head_not] in Hfirst.
      do 4 (split; [first [reflexivity | cbn; now rewrite Hfirst]|]). exact Hnd.
  - unfold tidy. split_and!; assumption.
Qed.

(** A tidy name is left as it is when the target is not a shapefile. *)
Lemma tidy_fixed (l : chars) (target_format : string) :
  tidy l -> l <> [] -> target_format <> SHAPEFILE ->
  _clean_column_name nfkd (string_of_list_ascii l) target_format = string_of_list_ascii l.
Proof.
  intros (Hident & Hfirst & Hlast & Hdigit & Hnd) Hne Hfmt.
  assert (Hfacts : forall c, In c l ->
            (nat_of_ascii c <? 128)%nat = true /\ lower_char c = c
            /\ is_space c = false /\ word_char c = true).
  { intros c Hc. apply ident_char_facts.
    rewrite List.Forall_forall in Hident. now apply Hident. }
  unfold _clean_column_name.
  rewrite nfkd_ascii; rewrite list_ascii_of_string_of_list_ascii;
    [|apply forallb_forall; intros c Hc; now apply Hfacts].
  assert (H0 : encode_ascii_ignore l = l).
  { apply forallb_filter_id, forallb_forall. intros c Hc. now apply Hfacts. }
  assert (Hlow : map lower_char l = l).
  { rewrite <- (map_id l) at 2. apply map_ext_in. intros c Hc. now apply Hfacts. }
  assert (Hspace : strip is_space l = l).
  { apply strip_fixed; apply head_not_Forall, List.Forall_forall;
      intros c Hc; now apply Hfacts. }
  assert (Hsub : sub_non_word l = l).
  { unfold sub_non_word. rewrite <- (map_id l) at 2. apply map_ext_in.
    intros c Hc. destruct (Hfacts c Hc) as (_ & _ & _ & ->). reflexivity. }
  rewrite H0, Hlow, Hspace, Hsub, (collapse_fixed l Hnd),
    (strip_fixed is_underscore l Hfirst Hlast).
  apply String.eqb_neq in Hfmt. rewrite Hfmt.
  destruct l as [|c rest]; [contradiction|].
  cbn [head_not] in Hdigit. now rewrite Hdigit.
Qed.

(** X28: for a target format other than the shapefile driver,
    [_clean_column_name] is idempotent: a cleaned name is left as it is
    by a second cleaning, so normalizing a normalized dataset renames no
    column for that reason. *)
Theorem clean_column_name_idempotent (name target_format : string) :
  target_format <> SHAPEFILE ->
  _clean_column_name nfkd (_clean_column_name nfkd name target_format) target_format
  = _clean_column_name nfkd name target_format.
Proof.
  intros Hfmt.
  pose proof (cleaned_chars_tidy name) as Htidy. cbn zeta in Htidy.
  unfold _clean_column_name at 2 3.
  set (l3 := match strip is_underscore _ with
             | c :: _ => _
             | [] => _
             end) in *.
  apply String.eqb_neq in Hfmt as Hfmt'. rewrite Hfmt'.
  destruct l3 as [|c rest] eqn:Hl3.
  - apply (tidy_fixed (list_ascii_of_string "col") target_format); [|discriminate | exact Hfmt].
    unfold tidy. cbn. split_and!; try reflexivity. repeat constructor.
  - apply (tidy_fixed (c :: rest) target_format); [exact Htidy | discriminate | exact Hfmt].
Qed.

End Idempotent.

Lemma clean_column_name_idempotent_witness :
  _clean_column_name nfkd_of_ascii
    (_clean_column_name nfkd_of_ascii "  2020 Pop. (hab) " "GeoJSON") "GeoJSON"
  = _clean_column_name nfkd_of_ascii "  2020 Pop. (hab) " "GeoJSON".
Proof.
  apply (clean_column_name_idempotent nfkd_of_ascii).
  - reflexivity.
  - discriminate.
Defined.

(** A name cut for a shapefile can end with an underscore, which a second
    cleaning removes. *)
Example clean_column_name_shapefile_twice :
  _clean_column_name nfkd_of_ascii "abcdefghi_jkl" SHAPEFILE = "abcdefghi_"
  /\ _clean_column_name nfkd_of_ascii "abcdefghi_" SHAPEFILE = "abcdefghi".
Proof. vm_compute. auto. Qed.

End AttributeNormalizer.


(* ===================================================================== *)
(** * services/projection_detector.py *)
(* ===================================================================== *)

Module ProjectionDetector.
Import Py.

(** (minx, miny, maxx, maxy). Coordinates are the rationals that the
    floats denote. *)
Definition bbox := (Q * Q * Q * Q)%type.

(** [ProjectionDetector.KNOWN_CRS_BBOXES], in the order of the dict. The
    four bounds of 4171 are written with decimals in the source: they are
    the doubles nearest to -5.14, 41.33, 9.56 and 51.09. *)
Definition KNOWN_CRS_BBOXES : list (Z * bbox) :=
  [ (4326,  (inject_Z (-180), inject_Z (-90), inject_Z 180, inject_Z 90));
    (2154,  (inject_Z 99220, inject_Z 6049997, inject_Z 1242456, inject_Z 7110480));
    (3857,  (inject_Z (-20037508), inject_Z (-20048966),
             inject_Z 20037508, inject_Z 20048966));
    (4171,  ((-5787125521171087) # 1125899906842624,
             2908340196862853 # 70368744177664,
             5381801554707743 # 562949953421312,
             1797569570018427 # 35184372088832));
    (32631, (inject_Z 166022, inject_Z 0, inject_Z 833978, inject_Z 9329005));
    (32632, (inject_Z 166022, inject_Z 0, inject_Z 833978, inject_Z 9329005));
    (27700, (inject_Z (-103976), inject_Z (-16703), inject_Z 652897, inject_Z 1199848));
    (25831, (inject_Z 119303, inject_Z 1116915, inject_Z 1320416, inject_Z 9554469));
    (25832, (inject_Z 243900, inject_Z 1116915, inject_Z 1783532, inject_Z 9554469)) ].

Inductive confidence := high | medium | low.

(** The containment test of the loop: the two corners of [bounds] lie
    within [box]. *)
Definition contains (box bounds : bbox) : bool :=
  let '(b0, b1, b2, b3) := box in
  let '(x0, y0, x1, y1) := bounds in
  Qle_bool b0 x0 && Qle_bool x0 b2
  && (Qle_bool b1 y0 && Qle_bool y0 b3)
  && (Qle_bool b0 x1 && Qle_bool x1 b2)
  && (Qle_bool b1 y1 && Qle_bool y1 b3).

(** [bbox_area]. The product is exact here; in the source only the area
    of 4171 is a rounded float (143.47...), far from every other area of
    the table. *)
Definition bbox_area (box : bbox) : Q :=
  let '(b0, b1, b2, b3) := box in ((b2 - b0) * (b3 - b1))%Q.

(** [bbox_area < best_score], where [best_score] starts at infinity
    ([None]). *)
Definition below (area : Q) (best_score : option Q) : bool :=
  match best_score with
  | None => true
  | Some s => Qlt_bool area s
  end.

(** One turn of the loop over the table; the state is
    [(best_epsg, best_score)]. *)
Definition scan_step (bounds : bbox) (st : option Z * option Q) (entry : Z * bbox)
  : option Z * option Q :=
  let '(epsg, box) := entry in
  if contains box bounds then
    let area := bbox_area box in
    if below area st.2 then (Some epsg, Some area) else st
  else st.

Definition scan (table : list (Z * bbox)) (bounds : bbox) : option Z * option Q :=
  fold_left (scan_step bounds) table (None, None).

(** What reading the first 100 features gives: an exception, a dataset
    without rows, rows without any coordinate (the total bounds are NaN
    and every comparison with them is false), or the total bounds of the
    rows. *)
Inductive read_result :=
  | ReadRaises
  | ReadEmpty
  | BoundsNaN
  | TotalBounds (bounds : bbox).

(** [ProjectionDetector._detect_from_extent] *)
Definition _detect_from_extent (file : read_result) : option Z * confidence :=
  match file with
  | ReadRaises => (None, low)
  | ReadEmpty => (None, low)
  | BoundsNaN => (None, low)
  | TotalBounds bounds =>
      let best_epsg := (scan KNOWN_CRS_BBOXES bounds).1 in
      let confidence := if truthy best_epsg then medium else low in
      (best_epsg, confidence)
  end.

Record detection := {
  epsg : option Z;
  det_confidence : confidence;
  method : string;
}.

(** [ProjectionDetector.detect]: the cascade over the OGR metadata, the
    .prj file and the extent heuristic. *)
Definition detect (ogr_epsg prj_epsg : option Z) (file : read_result) : detection :=
  if truthy ogr_epsg then
    {| epsg := ogr_epsg; det_confidence := high; method := "ogr_metadata" |}
  else if truthy prj_epsg then
    {| epsg := prj_epsg; det_confidence := high; method := "prj_file" |}
  else
    let '(heuristic_epsg, confidence) := _detect_from_extent file in
    if truthy heuristic_epsg then
      {| epsg := heuristic_epsg; det_confidence := confidence;
         method := "extent_heuristic" |}
    else {| epsg := None; det_confidence := low; method := "none" |}.

(** ** The scan keeps a smallest containing box *)

(** What the loop state says about the entries seen so far. *)
Definition scan_inv (bounds : bbox) (seen : list (Z * bbox)) (st : option Z * option Q)
  : Prop :=
  match st with
  | (None, None) =>
      forall e box, In (e, box) seen -> contains box bounds = false
  | (Some e, Some a) =>
      exists box, In (e, box) seen /\ contains box bounds = true
        /\ a = bbox_area box
        /\ forall e' box', In (e', box') seen -> contains box' bounds = true ->
             (bbox_area box <= bbox_area box')%Q
  | _ => False
  end.

Lemma scan_step_inv bounds seen st entry :
  scan_inv bounds seen st ->
  scan_inv bounds (seen ++ [entry]) (scan_step bounds st entry).
Proof.
  intros Hinv. destruct entry as [epsg box]. unfold scan_step.
  destruct (contains box bounds) eqn:Hc.
  - destruct st as [[e|] [a|]]; cbn [snd below scan_inv] in *; try contradiction.
    + destruct Hinv as (box0 & Hin & Hc0 & -> & Hmin).
      destruct (Qlt_bool (bbox_area box) (bbox_area box0)) eqn:Hlt.
      * apply Qlt_bool_iff in Hlt.
        exists box. repeat split; [apply in_or_app; right; now left | exact Hc |].
        intros e' box' Hin' Hc'. apply in_app_or in Hin' as [Hin'|[Heq|[]]].
        -- apply Qle_trans with (bbox_area box0); [now apply Qlt_le_weak|].
           now apply (Hmin e').
        -- inversion Heq; subst. apply Qle_refl.
      * exists box0. repeat split; [apply in_or_app; now left | exact Hc0 |].
        intros e' box' Hin' Hc'. apply in_app_or in Hin' as [Hin'|[Heq|[]]].
        -- now apply (Hmin e').
        -- inversion Heq; subst.
           unfold Qlt_bool in Hlt. apply negb_false_iff in Hlt.
           now apply Qle_bool_iff.
    + exists box. repeat split; [apply in_or_app; right; now left | exact Hc |].
      intros e' box' Hin' Hc'. apply in_app_or in Hin' as [Hin'|[Heq|[]]].
      * rewrite (Hinv _ _ Hin') in Hc'. discriminate.
      * inversion Heq; subst. apply Qle_refl.
  - destruct st as [[e|] [a|]]; cbn [scan_inv] in *; try contradiction.
    + destruct Hinv as (box0 & Hin & Hc0 & Ha & Hmin).
      exists box0. repeat split; [apply in_or_app; now left | exact Hc0 | exact Ha |].
      intros e' box' Hin' Hc'. apply in_app_or in Hin' as [Hin'|[Heq|[]]].
      * now apply (Hmin e').
      * inversion Heq; subst. congruence.
    + intros e' box' Hin'. apply in_app_or in Hin' as [Hin'|[Heq|[]]].
      * now apply (Hinv e').
      * now inversion Heq; subst.
Qed.

Lemma fold_scan_inv bounds table : forall seen st,
  scan_inv bounds seen st ->
  scan_inv bounds (seen ++ table) (fold_left (scan_step bounds) table st).
Proof.
  induction table as [|entry table IH]; intros seen st Hinv; simpl.
  - now rewrite app_nil_r.
  - replace (seen ++ entry :: table) with ((seen ++ [entry]) ++ table)
      by now rewrite <- app_assoc.
    apply IH, scan_step_inv, Hinv.
Qed.

Lemma scan_spec table bounds : scan_inv bounds table (scan table bounds).
Proof.
  unfold scan. apply (fold_scan_inv bounds table [] (None, None)).
  intros e box [].
Qed.

(** The codes of the table are all true in a condition. *)
Lemma known_codes_truthy e box :
  In (e, box) KNOWN_CRS_BBOXES -> truthy (Some e) = true.
Proof.
  intros Hin. simpl in Hin.
  repeat (destruct Hin as [Heq|Hin]; [inversion Heq; reflexivity|]).
  destruct Hin.
Qed.

(** C6: for every data bounding box, the extent heuristic answers the
    code of a table entry whose box contains the data box and whose area
    is smallest among the entries that contain it, with confidence medium;
    when no entry contains the data box it answers no code, with
    confidence low. *)
Theorem detect_from_extent_smallest_containing (bounds : bbox) :
  match _detect_from_extent (TotalBounds bounds) with
  | (Some e, c) =>
      c = medium
      /\ exists box, In (e, box) KNOWN_CRS_BBOXES
           /\ contains box bounds = true
           /\ forall e' box', In (e', box') KNOWN_CRS_BBOXES ->
                contains box' bounds = true ->
                (bbox_area box <= bbox_area box')%Q
  | (None, c) =>
      c = low
      /\ forall e' box', In (e', box') KNOWN_CRS_BBOXES ->
           contains box' bounds = false
  end.
Proof.
  unfold _detect_from_extent.
  pose proof (scan_spec KNOWN_CRS_BBOXES bounds) as Hinv.
  destruct (scan KNOWN_CRS_BBOXES bounds) as [[e|] [a|]];
    cbn [fst scan_inv] in *; try contradiction.
  - destruct Hinv as (box & Hin & Hc & _ & Hmin).
    rewrite (known_codes_truthy _ _ Hin).
    split; [reflexivity|]. exists box. auto.
  - split; [reflexivity | exact Hinv].
Qed.

(** A box inside the Lambert-93 envelope. *)
Example extent_lambert93 :
  _detect_from_extent
    (TotalBounds (inject_Z 600000, inject_Z 6800000, inject_Z 700000, inject_Z 6900000))
  = (Some 2154, medium).
Proof. vm_compute. reflexivity. Qed.

(** The two UTM zones have the same box: the first one is answered. *)
Example extent_utm_tie :
  _detect_from_extent
    (TotalBounds (inject_Z 200000, inject_Z 10, inject_Z 300000, inject_Z 5000000))
  = (Some 32631, medium).
Proof. vm_compute. reflexivity. Qed.

Example extent_outside :
  _detect_from_extent
    (TotalBounds (inject_Z 0, inject_Z 0, inject_Z 30000000, inject_Z 10))
  = (None, low).
Proof. vm_compute. reflexivity. Qed.

(** ** The cascade *)

(** X8: [detect] never answers a code that is false in a condition: its
    EPSG is [None] or a non-zero code. The confidence is high exactly for
    the two metadata methods, medium exactly for the extent heuristic and
    low exactly when nothing was found (method "none", no EPSG). The OGR
    code wins over the .prj code, which wins over the heuristic. *)
Theorem detect_cascade (ogr_epsg prj_epsg : option Z) (file : read_result) :
  let d := detect ogr_epsg prj_epsg file in
  (epsg d = None \/ truthy (epsg d) = true)
  /\ (det_confidence d = high <-> method d = "ogr_metadata" \/ method d = "prj_file")
  /\ (det_confidence d = medium <-> method d = "extent_heuristic")
  /\ (det_confidence d = low <-> method d = "none")
  /\ (method d = "none" <-> epsg d = None)
  /\ (truthy ogr_epsg = true -> epsg d = ogr_epsg /\ method d = "ogr_metadata")
  /\ (truthy ogr_epsg = false -> truthy prj_epsg = true ->
        epsg d = prj_epsg /\ method d = "prj_file")
  /\ (truthy ogr_epsg = false -> truthy prj_epsg = false ->
        epsg d = (if truthy (_detect_from_extent file).1
                  then (_detect_from_extent file).1 else None)).
Proof.
  assert (Hconf : forall e c, _detect_from_extent file = (e, c) ->
            truthy e = true -> c = medium).
  { intros e c. unfold _detect_from_extent.
    destruct file as [| | |bounds]; try (intros [= <- <-]; discriminate).
    intros [= <- <-] Ht. now rewrite Ht. }
  cbn zeta. unfold detect.
  destruct (truthy ogr_epsg) eqn:Hogr; [|destruct (truthy prj_epsg) eqn:Hprj];
    [| |destruct (_detect_from_extent file) as [e c] eqn:Hext; cbn [fst];
        destruct (truthy e) eqn:He; [rewrite (Hconf e c eq_refl He)|]];
    cbn; split_and!; intros; try split; intros;
    repeat match goal with H : _ \/ _ |- _ => destruct H end;
    try discriminate; try (subst; cbn in *; discriminate); auto.
Qed.

(** ** An entry that is never answered *)

Lemma scan_step_code bounds st entry :
  (scan_step bounds st entry).1 = st.1
  \/ (scan_step bounds st entry).1 = Some entry.1.
Proof.
  destruct entry as [e box]. unfold scan_step.
  destruct (contains box bounds); [|now left].
  destruct (below (bbox_area box) st.2); [now right | now left].
Qed.

Lemma fold_scan_code_not (c : Z) bounds table : forall st,
  (forall e box, In (e, box) table -> e <> c) ->
  st.1 <> Some c ->
  (fold_left (scan_step bounds) table st).1 <> Some c.
Proof.
  induction table as [|[e box] table IH]; intros st Hcodes Hst; cbn [fold_left];
    [exact Hst|].
  apply IH.
  - intros e' box' Hin. apply (Hcodes e' box'). now right.
  - destruct (scan_step_code bounds st (e, box)) as [-> | ->]; [exact Hst|].
    cbn. intros [= ->]. apply (Hcodes c box); [now left | reflexivity].
Qed.

Definition utm_box : bbox :=
  (inject_Z 166022, inject_Z 0, inject_Z 833978, inject_Z 9329005).

(** X9: the extent heuristic never answers 32632. The entry has the box
    of 32631, which comes first in the table, and a later entry replaces
    the best one only with a strictly smaller area. *)
Theorem detect_from_extent_never_32632 (file : read_result) :
  In (32631, utm_box) KNOWN_CRS_BBOXES
  /\ In (32632, utm_box) KNOWN_CRS_BBOXES
  /\ (_detect_from_extent file).1 <> Some 32632.
Proof.
  split; [cbn; tauto|]. split; [cbn; tauto|].
  destruct file as [| | |bounds]; try discriminate.
  unfold _detect_from_extent. cbn [fst]. unfold scan.
  change KNOWN_CRS_BBOXES
    with (take 5 KNOWN_CRS_BBOXES ++ (32632, utm_box) :: drop 6 KNOWN_CRS_BBOXES).
  rewrite fold_left_app. cbn [fold_left].
  set (st1 := fold_left (scan_step bounds) (take 5 KNOWN_CRS_BBOXES) (None, None)).
  assert (Hinv : scan_inv bounds (take 5 KNOWN_CRS_BBOXES) st1)
    by apply (scan_spec (take 5 KNOWN_CRS_BBOXES) bounds).
  assert (Hst1 : st1.1 <> Some 32632).
  { apply fold_scan_code_not; [|discriminate].
    intros e box Hin. cbn in Hin.
    repeat (destruct Hin as [[= <- _]|Hin]; [discriminate|]). destruct Hin. }
  assert (Hsame : scan_step bounds st1 (32632, utm_box) = st1).
  { unfold scan_step. destruct (contains utm_box bounds) eqn:Hc; [|reflexivity].
    destruct st1 as [[e|] [a|]]; cbn [scan_inv snd below] in *; try contradiction.
    - destruct Hinv as (box0 & _ & _ & -> & Hmin).
      assert (Hle : (bbox_area box0 <= bbox_area utm_box)%Q).
      { apply (Hmin 32631); [cbn; tauto | exact Hc]. }
      apply Qle_bool_iff in Hle. unfold Qlt_bool. now rewrite Hle.
    - exfalso. assert (Hno : contains utm_box bounds = false).
      { apply (Hinv 32631). cbn. tauto. }
      congruence. }
  rewrite Hsame.
  apply fold_scan_code_not; [|exact Hst1].
  intros e box Hin. cbn in Hin.
  repeat (destruct Hin as [[= <- _]|Hin]; [discriminate|]). destruct Hin.
Qed.

End ProjectionDetector.


(* ===================================================================== *)
(** * services/quality_reporter.py *)
(* ===================================================================== *)

Module QualityReporter.
Import Py Frame.

Record col_stats := {
  dtype : string;
  null_count : Z;
  null_rate : Q;
  unique_count : Z;
}.

(** The sections of the report. A key that a section may lack is an
    [option]: for a dataset without rows [geometry_quality] has only its
    two counts and a rate of 0, and [attribute_quality] is [{}]. *)
Record geometry_quality := {
  total : option Z;
  valid_count : Z;
  invalid_count : Z;
  validity_rate : option Q;
  null_geometry_count : option Z;
  empty_geometry_count : option Z;
  g_duplicates_removed : option Z;
  errors_found : option Z;
  errors_fixed : option Z;
  g_unfixable : option Z;
  error_sample : list (Z * string);
}.

Record attribute_quality := {
  attr_columns : option (list (string * col_stats));
  total_columns : option Z;
  completeness_rate : option Q;
  a_columns_renamed : list (string * string);
  a_columns_dropped : list string;
}.

Record projection := {
  source_epsg : option Z;
  target_epsg : option Z;
  reprojected : bool;
}.

(** The counts of the summary (the geometry type and the bounding box
    are read from the values). *)
Record summary := {
  features_input : Z;
  features_output : Z;
  features_lost : Z;
  columns_input : Z;
  columns_output : Z;
}.

Inductive recommendation :=
  | RecNullGeometries (null_rate : Q)
  | RecValidity (validity : Q)
  | RecCompleteness (completeness : Q)
  | RecProjection.

Record report := {
  r_summary : summary;
  r_geometry_quality : geometry_quality;
  r_attribute_quality : attribute_quality;
  r_projection : projection;
  quality_score : Z;
  quality_grade : string;
  recommendations : list recommendation;
}.

(** The loop over the column stats in [_compute_score]. *)
Fixpoint type_penalty (type_score : Z) (cols : list (string * col_stats)) : Z :=
  match cols with
  | [] => type_score
  | (_, cs) :: rest =>
      if String.eqb (dtype cs) "object" && (50 <? unique_count cs)
      then type_penalty (type_score - 2) rest
      else type_penalty type_score rest
  end.

(** [QualityReporter._compute_score] *)
Definition _compute_score (rep : report) : Z * list recommendation :=
  let score := 0 in
  let recs := [] in
  (* geometry completeness *)
  let geom := r_geometry_quality rep in
  let nulls := get (null_geometry_count geom) 0 in
  let denom := Z.max (get (total geom) 1) 1 in
  let null_rate := (inject_Z nulls / inject_Z denom * inject_Z 100)%Q in
  let score := score + Z.max 0 (25 - int_of (null_rate / inject_Z 4)%Q) in
  let recs := if Qlt_bool (inject_Z 5) null_rate
              then recs ++ [RecNullGeometries null_rate] else recs in
  (* geometry validity *)
  let validity := get (validity_rate geom) (inject_Z 100) in
  let score := score + int_of (validity / inject_Z 4)%Q in
  let recs := if Qlt_bool validity (inject_Z 95)
              then recs ++ [RecValidity validity] else recs in
  (* attribute completeness *)
  let attr := r_attribute_quality rep in
  let completeness := get (completeness_rate attr) (inject_Z 100) in
  let score := score + int_of (completeness / inject_Z 5)%Q in
  let recs := if Qlt_bool completeness (inject_Z 80)
              then recs ++ [RecCompleteness completeness] else recs in
  (* known projection *)
  let proj := r_projection rep in
  let '(score, recs) :=
    if truthy (source_epsg proj) then (score + 15, recs)
    else (score + 5, recs ++ [RecProjection]) in
  (* type quality *)
  let type_score := type_penalty 15 (get (attr_columns attr) []) in
  let score := score + Z.max 0 type_score in
  (Z.min 100 (Z.max 0 score), recs).

(** [QualityReporter._score_to_grade] *)
Definition _score_to_grade (score : Z) : string :=
  if 90 <=? score then "A"
  else if 80 <=? score then "B"
  else if 70 <=? score then "C"
  else if 60 <=? score then "D"
  else "F".

(** The end of [QualityReporter.generate]: the report is built with score
    0 and grade F, then the three computed entries are stored. *)
Definition generate_from_sections
    (s : summary) (g : geometry_quality) (a : attribute_quality) (p : projection)
  : report :=
  let rep := {| r_summary := s; r_geometry_quality := g;
                r_attribute_quality := a; r_projection := p;
                quality_score := 0; quality_grade := "F";
                recommendations := [] |} in
  let '(score, recs) := _compute_score rep in
  {| r_summary := s; r_geometry_quality := g;
     r_attribute_quality := a; r_projection := p;
     quality_score := score; quality_grade := _score_to_grade score;
     recommendations := recs |}.

(** ** The sections *)

Section Sections.
Context {geometry attrs : Type}.
Variable is_valid : geometry -> bool.
(** [round(x, 1)] *)
Variable round1 : Q -> Q.
(** The statistics that pandas computes on the values of one column. *)
Variable describe : GeoDataFrame geometry attrs -> string -> col_stats.

(** [QualityReporter._build_summary] *)
Definition _build_summary (gdf_before gdf_after : GeoDataFrame geometry attrs) : summary :=
  {| features_input := len (rows gdf_before);
     features_output := len (rows gdf_after);
     features_lost := len (rows gdf_before) - len (rows gdf_after);
     columns_input := len (columns gdf_before) - 1;
     columns_output := len (columns gdf_after) - 1 |}.

(** [QualityReporter._build_geometry_section]; [stats] is [None] for the
    empty dict that the orchestrator passes when it does not clean. *)
Definition _build_geometry_section (gdf : GeoDataFrame geometry attrs)
    (stats : option GeometryCleaner.stats) : geometry_quality :=
  if empty gdf then
    {| total := None; valid_count := 0; invalid_count := 0;
       validity_rate := Some (inject_Z 0);
       null_geometry_count := None; empty_geometry_count := None;
       g_duplicates_removed := None; errors_found := None; errors_fixed := None;
       g_unfixable := None; error_sample := [] |}
  else
    let valid_count :=
      len (List.filter
             (fun r => match GeometryCleaner.geom r with
                       | Some g => is_valid g
                       | None => false
                       end) (rows gdf)) in
    let total := len (rows gdf) in
    let stat {A} (f : GeometryCleaner.stats -> A) (default : A) : A :=
      match stats with Some st => f st | None => default end in
    {| total := Some total;
       valid_count := valid_count;
       invalid_count := total - valid_count;
       validity_rate :=
         Some (if total =? 0 then inject_Z 0
               else round1 (inject_Z valid_count / inject_Z total * inject_Z 100)%Q);
       null_geometry_count := Some (stat GeometryCleaner.null_geometry 0);
       empty_geometry_count := Some (stat GeometryCleaner.empty_after_fix 0);
       g_duplicates_removed := Some (stat GeometryCleaner.duplicates_removed 0);
       errors_found := Some (stat GeometryCleaner.invalid_before 0);
       errors_fixed := Some (stat GeometryCleaner.fixed 0);
       g_unfixable := Some (stat GeometryCleaner.unfixable 0);
       error_sample := take 5 (stat GeometryCleaner.error_details []) |}.

(** The dict [col_stats] of [_build_attribute_section]. *)
Fixpoint column_stats (gdf : GeoDataFrame geometry attrs) (cols : list string)
    (acc : list (string * col_stats)) : list (string * col_stats) :=
  match cols with
  | [] => acc
  | col :: rest => column_stats gdf rest (dict_set col (describe gdf col) acc)
  end.

(** [QualityReporter._build_attribute_section] *)
Definition _build_attribute_section (gdf : GeoDataFrame geometry attrs)
    (stats : option AttributeNormalizer.stats) : attribute_quality :=
  if empty gdf then
    {| attr_columns := None; total_columns := None; completeness_rate := None;
       a_columns_renamed := []; a_columns_dropped := [] |}
  else
    let cols := List.filter (fun c => negb (String.eqb c "geometry")) (columns gdf) in
    let col_stats := column_stats gdf cols [] in
    let complete :=
      len (List.filter (fun kv => Qlt_bool (null_rate kv.2) (inject_Z 5)) col_stats) in
    let completeness :=
      match cols with
      | [] => inject_Z 100
      | _ :: _ => (inject_Z complete / inject_Z (len cols) * inject_Z 100)%Q
      end in
    {| attr_columns := Some col_stats;
       total_columns := Some (len cols);
       completeness_rate := Some (round1 completeness);
       a_columns_renamed :=
         match stats with Some st => AttributeNormalizer.columns_renamed st | None => [] end;
       a_columns_dropped :=
         match stats with Some st => AttributeNormalizer.columns_dropped st | None => [] end |}.

(** [QualityReporter._build_projection_section] *)
Definition _build_projection_section (source_epsg target_epsg : option Z) : projection :=
  {| source_epsg := source_epsg;
     target_epsg := target_epsg;
     reprojected :=
       if truthy source_epsg && truthy target_epsg
       then negb (bool_decide (source_epsg = target_epsg))
       else false |}.

(** [QualityReporter.generate] *)
Definition generate (gdf_before gdf_after : GeoDataFrame geometry attrs)
    (geometry_stats : option GeometryCleaner.stats)
    (attribute_stats : option AttributeNormalizer.stats)
    (source_epsg target_epsg : option Z) : report :=
  generate_from_sections
    (_build_summary gdf_before gdf_after)
    (_build_geometry_section gdf_after geometry_stats)
    (_build_attribute_section gdf_after attribute_stats)
    (_build_projection_section source_epsg target_epsg).

(** The keys of the dict of column stats are the labels given. *)
Lemma column_stats_keys gdf cols : forall acc col,
  In col (keys (column_stats gdf cols acc)) <-> In col cols \/ In col (keys acc).
Proof.
  induction cols as [|c rest IH]; intros acc col; cbn [column_stats].
  - cbn. tauto.
  - rewrite IH. cbn [In].
    pose proof (dict_set_keys c (describe gdf c) acc col) as Hk.
    split.
    + intros [H|H]; [tauto|]. apply Hk in H as [->|H]; tauto.
    + intros [[->|H]|H]; [right; apply Hk; tauto | tauto | right; apply Hk; tauto].
Qed.

End Sections.

Lemma generate_from_sections_sections s g a p :
  r_summary (generate_from_sections s g a p) = s
  /\ r_geometry_quality (generate_from_sections s g a p) = g
  /\ r_attribute_quality (generate_from_sections s g a p) = a
  /\ r_projection (generate_from_sections s g a p) = p.
Proof.
  unfold generate_from_sections.
  destruct (_compute_score _) as [score recs]. cbn. auto.
Qed.

Definition grade_of_thresholds (score : Z) (grade : string) : Prop :=
  (90 <= score -> grade = "A")
  /\ (80 <= score < 90 -> grade = "B")
  /\ (70 <= score < 80 -> grade = "C")
  /\ (60 <= score < 70 -> grade = "D")
  /\ (score < 60 -> grade = "F").

Lemma compute_score_range (rep : report) :
  0 <= (_compute_score rep).1 <= 100.
Proof.
  unfold _compute_score.
  destruct (truthy (source_epsg (r_projection rep))); cbn [fst]; lia.
Qed.

Lemma score_to_grade_thresholds (score : Z) :
  grade_of_thresholds score (_score_to_grade score).
Proof.
  unfold grade_of_thresholds, _score_to_grade.
  repeat match goal with
         | |- context [?a <=? ?b] => destruct (Z.leb_spec a b)
         end; repeat split; intros; first [reflexivity | lia].
Qed.

Lemma generate_from_sections_score_and_grade
    (s : summary) (g : geometry_quality) (a : attribute_quality) (p : projection) :
  let rep := generate_from_sections s g a p in
  0 <= quality_score rep <= 100
  /\ grade_of_thresholds (quality_score rep) (quality_grade rep).
Proof.
  unfold generate_from_sections.
  set (rep0 := {| r_summary := s; r_geometry_quality := g;
                  r_attribute_quality := a; r_projection := p;
                  quality_score := 0; quality_grade := "F";
                  recommendations := [] |}).
  pose proof (compute_score_range rep0) as Hrange.
  destruct (_compute_score rep0) as [score recs]. cbn [fst] in Hrange.
  cbn [quality_score quality_grade]. split; [exact Hrange|].
  apply score_to_grade_thresholds.
Qed.

(** C7: for every generated quality report, the quality score lies in
    [0, 100] and the grade letter is A when the score is at least 90, B
    when at least 80, C when at least 70, D when at least 60, and F
    otherwise. *)
Theorem generate_score_and_grade {geometry attrs : Type}
    (is_valid : geometry -> bool) (round1 : Q -> Q)
    (describe : GeoDataFrame geometry attrs -> string -> col_stats)
    (gdf_before gdf_after : GeoDataFrame geometry attrs)
    (geometry_stats : option GeometryCleaner.stats)
    (attribute_stats : option AttributeNormalizer.stats)
    (source_epsg target_epsg : option Z) :
  let rep := generate is_valid round1 describe gdf_before gdf_after
               geometry_stats attribute_stats source_epsg target_epsg in
  0 <= quality_score rep <= 100
  /\ grade_of_thresholds (quality_score rep) (quality_grade rep).
Proof.
  unfold generate. apply generate_from_sections_score_and_grade.
Qed.

Example grade_89 : _score_to_grade 89 = "B".
Proof. reflexivity. Qed.

Example score_of_empty_output :
  (_compute_score
     {| r_summary := {| features_input := 3; features_output := 0; features_lost := 3;
                        columns_input := 2; columns_output := 2 |};
        r_geometry_quality := {| total := None; valid_count := 0; invalid_count := 0;
                                 validity_rate := Some (inject_Z 0);
                                 null_geometry_count := None;
                                 empty_geometry_count := None;
                                 g_duplicates_removed := None; errors_found := None;
                                 errors_fixed := None; g_unfixable := None;
                                 error_sample := [] |};
        r_attribute_quality := {| attr_columns := None; total_columns := None;
                                  completeness_rate := None;
                                  a_columns_renamed := []; a_columns_dropped := [] |};
        r_projection := {| source_epsg := None; target_epsg := None; reprojected := false |};
        quality_score := 0; quality_grade := "F"; recommendations := [] |}).1 = 65.
Proof. vm_compute. reflexivity. Qed.

(** ** Recommendations and the score *)

(** X13: [_compute_score] gives at most four recommendations; the one
    about the projection is there exactly when the source EPSG is not
    known; and a report that gets no recommendation has a score of at
    least 78, so its grade is C or better. *)
Theorem compute_score_recommendations (rep : report) :
  let score := (_compute_score rep).1 in
  let recs := (_compute_score rep).2 in
  (length recs <= 4)%nat
  /\ (In RecProjection recs <-> truthy (source_epsg (r_projection rep)) = false)
  /\ (recs = [] -> 78 <= score /\ In (_score_to_grade score) ["A"; "B"; "C"]).
Proof.
  cbn zeta. unfold _compute_score.
  set (null_rate := (inject_Z _ / inject_Z _ * inject_Z 100)%Q).
  set (validity := get (validity_rate _) _).
  set (completeness := get (completeness_rate _) _).
  set (ts := type_penalty 15 _).
  destruct (Qlt_bool (inject_Z 5) null_rate) eqn:H1,
           (Qlt_bool validity (inject_Z 95)) eqn:H2,
           (Qlt_bool completeness (inject_Z 80)) eqn:H3,
           (truthy (source_epsg (r_projection rep))) eqn:H4;
    cbn [app fst snd length In];
    (split_and!; [lia | intuition (discriminate || auto) | try discriminate]).
  intros _.
  apply Qlt_bool_false in H1, H2, H3.
  assert (Hn : int_of (null_rate / inject_Z 4)%Q <= 1)
    by (apply (int_of_div_upper _ 4 5 1); [lia | lia | exact H1]).
  assert (Hv : 23 <= int_of (validity / inject_Z 4)%Q).
  { apply (int_of_div_lower _ 4 23); [lia|].
    apply Qle_trans with (inject_Z 95); [|exact H2].
    unfold Qle, inject_Z. cbn. lia. }
  assert (Hc : 16 <= int_of (completeness / inject_Z 5)%Q)
    by (apply (int_of_div_lower _ 5 16); [lia | exact H3]).
  set (score := Z.min 100 _).
  assert (Hs : 78 <= score) by (unfold score; lia).
  split; [exact Hs|].
  unfold _score_to_grade.
  repeat match goal with
         | |- context [?a <=? ?b] => destruct (Z.leb_spec a b)
         end; cbn; auto; lia.
Qed.

(** ** The geometry section of a cleaned dataset *)

(** X26: when [make_valid] gives valid geometries, the geometry section
    built on the rows that the cleaner returned counts no invalid
    geometry: [valid_count] is the number of rows and [invalid_count] is
    0, whatever the columns and the CRS, while [errors_found] still
    reports the invalid geometries that the cleaner met. *)
Theorem geometry_section_of_cleaned {geometry attrs : Type} `{EqDecision geometry}
    (is_valid is_empty : geometry -> bool) (make_valid : geometry -> option geometry)
    (explain_validity : geometry -> string) (round1 : Q -> Q)
    (gdf : GeometryCleaner.GeoRows (geometry := geometry) (attrs := attrs))
    (cols : list string) (c : option CRS) :
  (forall g g', make_valid g = Some g' -> is_valid g' = true) ->
  let cleaned := GeometryCleaner.clean is_valid is_empty make_valid explain_validity gdf in
  let written := {| columns := cols; rows := cleaned.1; crs := c |} in
  let section := _build_geometry_section is_valid round1 written (Some cleaned.2) in
  invalid_count section = 0
  /\ valid_count section = (if empty written then 0 else len cleaned.1)
  /\ (empty written = false ->
        total section = Some (len cleaned.1)
        /\ errors_found section = Some (GeometryCleaner.invalid_before cleaned.2)
        /\ (length (error_sample section) <= 5)%nat).
Proof.
  intros Hmv. cbn zeta.
  pose proof (GeometryCleaner.clean_output_valid is_valid is_empty make_valid
                explain_validity gdf Hmv) as Hgood.
  set (cleaned := GeometryCleaner.clean is_valid is_empty make_valid explain_validity gdf)
    in *.
  unfold _build_geometry_section.
  destruct (empty {| columns := cols; rows := cleaned.1; crs := c |}) eqn:Hempty.
  - cbn. split_and!; [reflexivity | reflexivity | discriminate].
  - cbn [invalid_count valid_count total errors_found error_sample rows].
    assert (Hall : List.filter
                     (fun r => match GeometryCleaner.geom r with
                               | Some g => is_valid g
                               | None => false
                               end) cleaned.1 = cleaned.1).
    { apply forallb_filter_id, forallb_forall. intros r Hr.
      destruct (Hgood r Hr) as (g & -> & _ & Hv). exact Hv. }
    rewrite Hall. split_and!; try reflexivity; try lia.
    intros _. split_and!; try reflexivity.
    rewrite length_take. lia.
Qed.

Lemma geometry_section_of_cleaned_witness :
  invalid_count
    (_build_geometry_section GeometryCleaner.sample_is_valid (fun q => q)
       {| columns := ["nom"; "geometry"];
          rows := (GeometryCleaner.sample_clean GeometryCleaner.sample_rows).1;
          crs := None |}
       (Some (GeometryCleaner.sample_clean GeometryCleaner.sample_rows).2)) = 0.
Proof.
  apply (geometry_section_of_cleaned GeometryCleaner.sample_is_valid
           GeometryCleaner.sample_is_empty GeometryCleaner.sample_make_valid
           GeometryCleaner.sample_explain (fun q => q) GeometryCleaner.sample_rows
           ["nom"; "geometry"] None).
  intros [] g'; cbn; intros [= <-]; reflexivity.
Defined.

(** ** A dataset without rows *)

(** X14: when the dataset written is empty, the two quality sections are
    the short ones and the score reads their defaults: 25 points for the
    null geometries, 0 for the validity, 20 for the completeness and 15
    for the types. The score is 75 (grade C) when the source EPSG is
    known and 65 (grade D) when it is not, whatever was read and whatever
    the cleaner counted. *)
Theorem generate_empty_output {geometry attrs : Type}
    (is_valid : geometry -> bool) (round1 : Q -> Q)
    (describe : GeoDataFrame geometry attrs -> string -> col_stats)
    (gdf_before gdf_after : GeoDataFrame geometry attrs)
    (geometry_stats : option GeometryCleaner.stats)
    (attribute_stats : option AttributeNormalizer.stats)
    (source_epsg target_epsg : option Z) :
  empty gdf_after = true ->
  let rep := generate is_valid round1 describe gdf_before gdf_after
               geometry_stats attribute_stats source_epsg target_epsg in
  quality_score rep = (if truthy source_epsg then 75 else 65)
  /\ quality_grade rep = (if truthy source_epsg then "C" else "D")
  /\ recommendations rep
     = RecValidity (inject_Z 0)
       :: (if truthy source_epsg then [] else [RecProjection])
  /\ total (r_geometry_quality rep) = None
  /\ attr_columns (r_attribute_quality rep) = None.
Proof.
  intros Hempty. cbn zeta.
  unfold generate, _build_geometry_section, _build_attribute_section.
  rewrite Hempty. unfold generate_from_sections, _compute_score.
  cbn [r_geometry_quality r_attribute_quality r_projection null_geometry_count total
       validity_rate completeness_rate attr_columns _build_projection_section
       QualityReporter.source_epsg get type_penalty].
  destruct (truthy source_epsg); vm_compute; auto.
Qed.

Definition no_rows : GeoDataFrame GeometryCleaner.sample_geometry string :=
  {| columns := ["nom"; "geometry"]; rows := []; crs := None |}.

Lemma generate_empty_output_witness :
  quality_score
    (generate GeometryCleaner.sample_is_valid (fun q => q)
       (fun _ _ => {| dtype := "object"; null_count := 0; null_rate := inject_Z 0;
                      unique_count := 0 |})
       no_rows no_rows None None (Some 4326) None) = 75.
Proof.
  apply (generate_empty_output GeometryCleaner.sample_is_valid (fun q => q)
           (fun _ _ => {| dtype := "object"; null_count := 0; null_rate := inject_Z 0;
                          unique_count := 0 |})
           no_rows no_rows None None (Some 4326) None).
  reflexivity.
Defined.

End QualityReporter.


(* ===================================================================== *)
(** * services/gdal_processor.py *)
(* ===================================================================== *)

Module GDALProcessor.
Import Py Frame.

Record format_config := {
  driver : string;
  ext : string;
  single_file : bool;
}.

Definition FORMAT_CONFIG : list (string * format_config) :=
  [ ("GeoJSON",        {| driver := "GeoJSON";        ext := ".geojson"; single_file := true |});
    ("ESRI Shapefile", {| driver := "ESRI Shapefile"; ext := ".shp";     single_file := false |});
    ("GPKG",           {| driver := "GPKG";           ext := ".gpkg";    single_file := true |});
    ("KML",            {| driver := "KML";            ext := ".kml";     single_file := true |});
    ("DXF",            {| driver := "DXF";            ext := ".dxf";     single_file := true |});
    ("CSV",            {| driver := "CSV";            ext := ".csv";     single_file := true |});
    ("OpenFileGDB",    {| driver := "OpenFileGDB";    ext := ".gdb";     single_file := false |});
    ("FlatGeobuf",     {| driver := "FlatGeobuf";     ext := ".fgb";     single_file := true |}) ].

Fixpoint config_get (d : list (string * format_config)) (k : string) : option format_config :=
  match d with
  | [] => None
  | (k', v) :: d' => if String.eqb k k' then Some v else config_get d' k
  end.

(** [ConversionResult], without the wall-clock time. *)
Record ConversionResult := {
  output_path : string;
  output_format : string;
  feature_count : Z;
  source_epsg : option Z;
  target_epsg : option Z;
  quality_report : QualityReporter.report;
  geometry_stats : option GeometryCleaner.stats;
  attribute_stats : option AttributeNormalizer.stats;
}.

(** [gdf[label] = values]: a new label goes last, a label that is there
    keeps its place (its values are replaced). *)
Definition set_column (label : string) (columns : list string) : list string :=
  if bool_decide (label ∈ columns) then columns else columns ++ [label].

(** [GDALProcessor._package_if_needed]: the path that is returned (the
    archive itself is written on disk). *)
Definition _package_if_needed (output_path output_format : string) : string :=
  match config_get FORMAT_CONFIG output_format with
  | None => output_path
  | Some config =>
      if single_file config then output_path
      else str_replace (ext config) ".zip" output_path
  end.

Section Pipeline.
Context {geometry attrs : Type} `{EqDecision geometry}.
(** Shapely, the standard library, pyproj and pandas. *)
Variable is_valid : geometry -> bool.
Variable is_empty : geometry -> bool.
Variable make_valid : geometry -> option geometry.
Variable explain_validity : geometry -> string.
Variable nfkd : string -> string.
(** The transformation of one geometry from a CRS to the CRS of an EPSG
    code. *)
Variable transform : CRS -> Z -> geometry -> geometry.
Variable round1 : Q -> Q.
Variable describe : GeoDataFrame geometry attrs -> string -> QualityReporter.col_stats.

(** ** The object store

    A variable of the source holds a reference to a GeoDataFrame. The
    store maps references to the objects; [next] is the first reference
    that is free. *)
Record store := {
  objects : gmap nat (GeoDataFrame geometry attrs);
  next : nat;
}.

Inductive outcome (A : Type) :=
  | Value (a : A) (s : store)
  | Raised (e : string) (s : store).
Arguments Value {A} a s.
Arguments Raised {A} e s.

Definition M (A : Type) : Type := store -> outcome A.

Definition ret {A} (a : A) : M A := fun s => Value a s.

Definition bind {A B} (m : M A) (k : A -> M B) : M B :=
  fun s => match m s with
           | Value a s' => k a s'
           | Raised e s' => Raised e s'
           end.

Definition raise {A} (e : string) : M A := fun s => Raised e s.

Notation "x <- c1 ;; c2" := (bind c1 (fun x => c2))
  (at level 100, c1 at next level, right associativity).

(** A new object. *)
Definition alloc (f : GeoDataFrame geometry attrs) : M nat :=
  fun s => Value (next s)
             {| objects := <[next s := f]> (objects s); next := S (next s) |}.

(** The object behind a reference. *)
Definition load (l : nat) : M (GeoDataFrame geometry attrs) :=
  fun s => Value (objects s !!! l) s.

(** An update of the object behind a reference, in place. *)
Definition update (l : nat) (g : GeoDataFrame geometry attrs -> GeoDataFrame geometry attrs)
  : M unit :=
  fun s => Value tt {| objects := <[l := g (objects s !!! l)]> (objects s);
                       next := next s |}.

(** ** Methods that give a new object *)

(** [gdf.copy()] *)
Definition copy (gdf : nat) : M nat :=
  f <- load gdf ;; alloc f.

(** [self.cleaner.clean(gdf)]: the cleaner works on a copy of the rows it
    keeps. *)
Definition clean (gdf : nat) : M (nat * GeometryCleaner.stats) :=
  f <- load gdf ;;
  let cleaned :=
    GeometryCleaner.clean is_valid is_empty make_valid explain_validity (rows f) in
  gdf' <- alloc {| columns := columns f; rows := cleaned.1; crs := crs f |} ;;
  ret (gdf', cleaned.2).

(** [self.normalizer.normalize(gdf, output_format)], which starts with
    [gdf = gdf.copy()]. *)
Definition normalize (gdf : nat) (target_format : string)
  : M (nat * AttributeNormalizer.stats) :=
  f <- load gdf ;;
  let normalized := AttributeNormalizer.normalize nfkd f target_format true in
  gdf' <- alloc normalized.1 ;;
  ret (gdf', normalized.2).

(** [gdf.set_crs(epsg=..., allow_override=True)] *)
Definition set_crs (gdf : nat) (epsg : Z) : M nat :=
  f <- load gdf ;;
  alloc {| columns := columns f; rows := rows f; crs := Some (EPSG epsg) |}.

Definition transform_rows (from : CRS) (epsg : Z)
    (rs : list (@GeometryCleaner.row geometry attrs)) :=
  map (GeometryCleaner.set_geometry (option_map (transform from epsg))) rs.

(** [gdf.to_crs(epsg=...)]; a dataset without CRS cannot be transformed. *)
Definition to_crs (gdf : nat) (epsg : Z) : M nat :=
  f <- load gdf ;;
  match crs f with
  | None => raise "Cannot transform naive geometries.  Please set a crs on the object first."
  | Some from =>
      alloc {| columns := columns f;
               rows := transform_rows from epsg (rows f);
               crs := Some (EPSG epsg) |}
  end.

(** [ProjectionDetector.reproject_geodataframe] *)
Definition reproject_geodataframe (gdf : nat) (source_epsg target_epsg : Z) : M nat :=
  f <- load gdf ;;
  gdf <- match crs f with
         | None => set_crs gdf source_epsg
         | Some c =>
             if negb (bool_decide (to_epsg c = Some source_epsg))
             then set_crs gdf source_epsg
             else ret gdf
         end ;;
  to_crs gdf target_epsg.

(** ** The stages of [process] *)

(** Stage 6: the reference of the dataset to write and the effective
    target EPSG. *)
Definition reprojection_stage (gdf : nat) (source_epsg target_epsg : option Z)
  : M (nat * option Z) :=
  let effective_target_epsg := target_epsg in
  if truthy target_epsg && truthy source_epsg
     && negb (bool_decide (target_epsg = source_epsg)) then
    gdf <- reproject_geodataframe gdf (get source_epsg 0) (get target_epsg 0) ;;
    ret (gdf, effective_target_epsg)
  else if truthy source_epsg && negb (truthy target_epsg) then
    f <- load gdf ;;
    gdf <- match crs f with
           | None => set_crs gdf (get source_epsg 0)
           | Some _ => ret gdf
           end ;;
    ret (gdf, source_epsg)
  else ret (gdf, effective_target_epsg).

Definition add_centroid_columns (f : GeoDataFrame geometry attrs)
  : GeoDataFrame geometry attrs :=
  {| columns := set_column "longitude" (set_column "latitude" (columns f));
     rows := rows f;
     crs := crs f |}.

(** [GDALProcessor._write_file]: the path of the file written. For CSV
    the two centroid columns are assigned on the object that was passed.
    [tmpname] is the random part of the temporary name. *)
Definition _write_file (gdf : nat) (output_format tmpname : string) : M string :=
  match config_get FORMAT_CONFIG output_format with
  | None => raise ("Format de sortie non supporté : " +:+ output_format)
  | Some config =>
      let output_path := "/tmp/geoconvert_out_" +:+ tmpname +:+ ext config in
      _ <- (if String.eqb output_format "KML" then ret tt
            else if String.eqb output_format "CSV" then update gdf add_centroid_columns
            else ret tt) ;;
      ret output_path
  end.

(** Stages 7 to 9: write, package, report. The report reads the object
    behind [gdf] after the write. *)
Definition write_and_report (gdf_before gdf : nat)
    (geometry_stats : option GeometryCleaner.stats)
    (attribute_stats : option AttributeNormalizer.stats)
    (source_epsg effective_target_epsg : option Z)
    (output_format tmpname : string) : M ConversionResult :=
  output_path <- _write_file gdf output_format tmpname ;;
  let final_path := _package_if_needed output_path output_format in
  before <- load gdf_before ;;
  after <- load gdf ;;
  let quality_report :=
    QualityReporter.generate is_valid round1 describe before after
      geometry_stats attribute_stats source_epsg effective_target_epsg in
  ret {| output_path := final_path;
         output_format := output_format;
         feature_count := len (rows after);
         source_epsg := source_epsg;
         target_epsg := effective_target_epsg;
         quality_report := quality_report;
         geometry_stats := geometry_stats;
         attribute_stats := attribute_stats |}.

(** What stages 3 to 6 hand to the write stage. *)
Record prepared := {
  p_gdf_before : nat;
  p_gdf : nat;
  p_geometry_stats : option GeometryCleaner.stats;
  p_attribute_stats : option AttributeNormalizer.stats;
  p_effective_target_epsg : option Z;
}.

(** Stages 3 to 6 of [process]: read, snapshot, clean, normalize,
    reproject. [file] is the dataset that [_read_file] gives and
    [source_epsg] the code that the detector found. *)
Definition prepare (file : GeoDataFrame geometry attrs) (source_epsg : option Z)
    (output_format : string) (target_epsg : option Z)
    (fix_geometries normalize_attributes : bool) : M prepared :=
  gdf <- alloc file ;;
  gdf_before <- copy gdf ;;
  cleaned <-
    (if fix_geometries
     then r <- clean gdf ;; ret (r.1, Some r.2)
     else ret (gdf, None)) ;;
  normalized <-
    (if normalize_attributes
     then r <- normalize cleaned.1 output_format ;; ret (r.1, Some r.2)
     else ret (cleaned.1, None)) ;;
  projected <- reprojection_stage normalized.1 source_epsg target_epsg ;;
  ret {| p_gdf_before := gdf_before;
         p_gdf := projected.1;
         p_geometry_stats := cleaned.2;
         p_attribute_stats := normalized.2;
         p_effective_target_epsg := projected.2 |}.

(** [GDALProcessor.process] *)
Definition process (file : GeoDataFrame geometry attrs) (source_epsg : option Z)
    (output_format : string) (target_epsg : option Z)
    (fix_geometries normalize_attributes : bool) (tmpname : string)
  : M ConversionResult :=
  p <- prepare file source_epsg output_format target_epsg
         fix_geometries normalize_attributes ;;
  write_and_report (p_gdf_before p) (p_gdf p)
    (p_geometry_stats p) (p_attribute_stats p)
    source_epsg (p_effective_target_epsg p) output_format tmpname.

Definition empty_store : store := {| objects := ∅; next := 0 |}.

(** ** Reprojection *)

Lemma truthy_Some (o : option Z) : truthy o = true -> exists n, o = Some n.
Proof. destruct o as [n|]; [eauto | discriminate]. Qed.

Lemma to_epsg_EPSG (c : CRS) (n : Z) : to_epsg c = Some n -> c = EPSG n.
Proof. destruct c; cbn; congruence. Qed.

Lemma frame_eta (f : GeoDataFrame geometry attrs) :
  {| columns := columns f; rows := rows f; crs := crs f |} = f.
Proof. now destruct f. Qed.

(** C8, as the code has it: when a target EPSG is given, the source EPSG
    is known and they differ, the dataset written is the dataset
    reprojected from the source CRS to the target; when a target is given
    and the source is unknown, or the same, the dataset is left as it is
    and the target stays the effective target; when the target is null
    and the source is known, the dataset gets the source as its CRS if it
    has none, keeps the CRS it has otherwise, no coordinate is
    transformed, and the source is the effective target; when both are
    null the dataset is left as it is. *)
Theorem reprojection_stage_policy (s : store) (gdf : nat)
    (source_epsg target_epsg : option Z) :
  let f := objects s !!! gdf in
  (truthy target_epsg = true -> truthy source_epsg = true ->
   target_epsg <> source_epsg ->
     exists gdf' s' src tgt,
       source_epsg = Some src /\ target_epsg = Some tgt
       /\ reprojection_stage gdf source_epsg target_epsg s
          = Value (gdf', target_epsg) s'
       /\ objects s' !!! gdf'
          = {| columns := columns f;
               rows := transform_rows (EPSG src) tgt (rows f);
               crs := Some (EPSG tgt) |})
  /\ (truthy target_epsg = true ->
      truthy source_epsg = false \/ target_epsg = source_epsg ->
        reprojection_stage gdf source_epsg target_epsg s = Value (gdf, target_epsg) s)
  /\ (truthy target_epsg = false -> truthy source_epsg = true ->
        exists gdf' s' src,
          source_epsg = Some src
          /\ reprojection_stage gdf source_epsg target_epsg s
             = Value (gdf', source_epsg) s'
          /\ objects s' !!! gdf'
             = {| columns := columns f;
                  rows := rows f;
                  crs := Some (match crs f with
                               | None => EPSG src
                               | Some c => c
                               end) |})
  /\ (truthy target_epsg = false -> truthy source_epsg = false ->
        reprojection_stage gdf source_epsg target_epsg s = Value (gdf, target_epsg) s).
Proof.
  cbn zeta. unfold reprojection_stage. split_and!.
  - intros Ht Hs Hne.
    destruct (truthy_Some _ Hs) as [src ->], (truthy_Some _ Ht) as [tgt ->].
    rewrite Ht, Hs, bool_decide_eq_false_2 by exact Hne. cbn [andb negb get].
    unfold reproject_geodataframe, bind, load.
    destruct (crs (objects s !!! gdf)) as [c|] eqn:Hcrs.
    + destruct (bool_decide (to_epsg c = Some src)) eqn:Hsame; cbn [negb].
      * apply bool_decide_eq_true in Hsame. apply to_epsg_EPSG in Hsame as ->.
        unfold ret, to_crs, bind, load. rewrite Hcrs. unfold alloc.
        eexists _, _, src, tgt. split_and!; try reflexivity.
        cbn [objects]. now rewrite lookup_total_insert_eq.
      * unfold set_crs, to_crs, bind, load, alloc, ret. cbn [objects next].
        rewrite lookup_total_insert_eq. cbn [crs].
        eexists _, _, src, tgt. split_and!; try reflexivity.
        cbn [objects]. now rewrite lookup_total_insert_eq.
    + unfold set_crs, to_crs, bind, load, alloc, ret. cbn [objects next].
      rewrite lookup_total_insert_eq. cbn [crs].
      eexists _, _, src, tgt. split_and!; try reflexivity.
      cbn [objects]. now rewrite lookup_total_insert_eq.
  - intros Ht [Hs | ->].
    + rewrite Ht, Hs. reflexivity.
    + rewrite Ht, bool_decide_eq_true_2 by reflexivity. cbn [andb negb]. reflexivity.
  - intros Ht Hs. destruct (truthy_Some _ Hs) as [src ->].
    rewrite Ht, Hs. cbn [andb negb get]. unfold bind, load.
    destruct (crs (objects s !!! gdf)) as [c|] eqn:Hcrs.
    + unfold ret. eexists gdf, s, src. split_and!; try reflexivity.
      rewrite <- Hcrs. now rewrite frame_eta.
    + unfold set_crs, bind, load, alloc, ret.
      eexists _, _, src. split_and!; try reflexivity.
      cbn [objects]. now rewrite lookup_total_insert_eq.
  - intros Ht Hs. rewrite Ht, Hs. reflexivity.
Qed.

(** ** The write stage and the report *)

Lemma set_column_In (label : string) (cols : list string) :
  In label (set_column label cols) /\ forall c, In c cols -> In c (set_column label cols).
Proof.
  unfold set_column. case_bool_decide as Hin.
  - split; [now apply list_elem_of_In | auto].
  - split; [apply in_or_app; right; now left | intros c Hc; apply in_or_app; now left].
Qed.

Lemma set_column_fresh_length (label : string) (cols : list string) :
  ~ In label cols -> len (set_column label cols) = len cols + 1.
Proof.
  intros Hnin. unfold set_column. rewrite bool_decide_eq_false_2.
  - unfold len. rewrite length_app. cbn. lia.
  - intros Hin. now apply list_elem_of_In in Hin.
Qed.

(** The write stage and the report, from any store in which the snapshot
    and the dataset are two objects. *)
Lemma write_and_report_columns (s : store) (gdf_before gdf : nat)
    (geometry_stats : option GeometryCleaner.stats)
    (attribute_stats : option AttributeNormalizer.stats)
    (source_epsg effective_target_epsg : option Z)
    (output_format tmpname : string) :
  gdf_before <> gdf ->
  let d := objects s !!! gdf in
  let b := objects s !!! gdf_before in
  let run := write_and_report gdf_before gdf geometry_stats attribute_stats
               source_epsg effective_target_epsg output_format tmpname s in
  (output_format = "CSV" ->
     exists res s',
       run = Value res s'
       /\ objects s' !!! gdf = add_centroid_columns d
       /\ objects s' !!! gdf_before = b
       /\ QualityReporter.columns_output (QualityReporter.r_summary (quality_report res))
          = len (set_column "longitude" (set_column "latitude" (columns d))) - 1
       /\ QualityReporter.columns_input (QualityReporter.r_summary (quality_report res))
          = len (columns b) - 1
       /\ (~ In "latitude" (columns d) -> ~ In "longitude" (columns d) ->
             QualityReporter.columns_output
               (QualityReporter.r_summary (quality_report res))
             = (len (columns d) - 1) + 2)
       /\ (rows d <> [] ->
             exists cols,
               QualityReporter.attr_columns
                 (QualityReporter.r_attribute_quality (quality_report res)) = Some cols
               /\ In "latitude" (keys cols) /\ In "longitude" (keys cols))
       /\ (rows d = [] ->
             QualityReporter.attr_columns
               (QualityReporter.r_attribute_quality (quality_report res)) = None))
  /\ (output_format <> "CSV" ->
      forall config, config_get FORMAT_CONFIG output_format = Some config ->
        exists res,
          run = Value res s
          /\ QualityReporter.columns_output
               (QualityReporter.r_summary (quality_report res))
             = len (columns d) - 1).
Proof.
  intros Hne. cbn zeta. unfold write_and_report, _write_file. split.
  - intros ->. cbn [config_get FORMAT_CONFIG String.eqb Ascii.eqb Bool.eqb].
    unfold bind, update, ret, load. cbn [objects].
    rewrite lookup_total_insert_eq, lookup_total_insert_ne by congruence.
    set (d := objects s !!! gdf). set (b := objects s !!! gdf_before).
    eexists _, _. split; [reflexivity|]. cbn [quality_report].
    unfold QualityReporter.generate.
    destruct (QualityReporter.generate_from_sections_sections
                (QualityReporter._build_summary b (add_centroid_columns d))
                (QualityReporter._build_geometry_section is_valid round1
                   (add_centroid_columns d) geometry_stats)
                (QualityReporter._build_attribute_section round1 describe
                   (add_centroid_columns d) attribute_stats)
                (QualityReporter._build_projection_section
                   source_epsg effective_target_epsg))
      as (Hsum & _ & Hattr & _).
    rewrite Hsum, Hattr. cbn [objects].
    rewrite lookup_total_insert_eq, lookup_total_insert_ne by congruence.
    split_and!; try reflexivity.
    + intros Hlat Hlon.
      assert (Hlon' : ~ In "longitude" (set_column "latitude" (columns d))).
      { unfold set_column.
        rewrite bool_decide_eq_false_2
          by (intros Hin; now apply list_elem_of_In in Hin).
        intros Hin. apply in_app_or in Hin as [Hin|[Hin|[]]];
          [contradiction | discriminate]. }
      cbn [QualityReporter.columns_output QualityReporter._build_summary
           add_centroid_columns columns].
      rewrite (set_column_fresh_length _ _ Hlon'), (set_column_fresh_length _ _ Hlat).
      lia.
    + intros Hrows. unfold QualityReporter._build_attribute_section.
      assert (Hlatin : In "latitude"
                (set_column "longitude" (set_column "latitude" (columns d)))).
      { apply (proj2 (set_column_In "longitude" _)), (proj1 (set_column_In "latitude" _)). }
      assert (Hlonin : In "longitude"
                (set_column "longitude" (set_column "latitude" (columns d)))).
      { apply (proj1 (set_column_In "longitude" _)). }
      assert (Hempty : empty (add_centroid_columns d) = false).
      { unfold empty, add_centroid_columns. cbn [rows columns].
        destruct (rows d); [contradiction|].
        destruct (set_column "longitude" (set_column "latitude" (columns d)));
          [destruct Hlatin | reflexivity]. }
      rewrite Hempty. cbn [QualityReporter.attr_columns].
      eexists. split; [reflexivity|].
      split; apply QualityReporter.column_stats_keys; left;
        apply List.filter_In; (split; [assumption | reflexivity]).
    + intros Hrows. unfold QualityReporter._build_attribute_section, empty.
      cbn [add_centroid_columns rows]. rewrite Hrows. reflexivity.
  - intros Hfmt config Hconfig. rewrite Hconfig.
    assert (Hcsv : String.eqb output_format "CSV" = false)
      by now apply String.eqb_neq.
    rewrite Hcsv.
    assert (Hnoop : (if String.eqb output_format "KML" then ret tt else ret tt)
                    = (ret tt : M unit))
      by now destruct (String.eqb output_format "KML").
    rewrite Hnoop. unfold bind, ret, load.
    eexists. split; [reflexivity|]. cbn [quality_report].
    unfold QualityReporter.generate.
    destruct (QualityReporter.generate_from_sections_sections
                (QualityReporter._build_summary (objects s !!! gdf_before)
                   (objects s !!! gdf))
                (QualityReporter._build_geometry_section is_valid round1
                   (objects s !!! gdf) geometry_stats)
                (QualityReporter._build_attribute_section round1 describe
                   (objects s !!! gdf) attribute_stats)
                (QualityReporter._build_projection_section
                   source_epsg effective_target_epsg))
      as (Hsum & _).
    rewrite Hsum. reflexivity.
Qed.

(** ** The snapshot is another object *)

(** References only grow, and a method gives back the reference it got or
    a new one. *)
Definition fresh_or_same {A} (gdf : nat) (m : M (nat * A)) : Prop :=
  forall s r s', m s = Value r s' ->
    (r.1 = gdf \/ next s <= r.1)%nat /\ (next s <= next s')%nat.

Lemma clean_fresh gdf : fresh_or_same gdf (clean gdf).
Proof.
  intros s r s'. unfold clean, bind, load, alloc, ret.
  intros [= <- <-]. cbn. lia.
Qed.

Lemma normalize_fresh gdf fmt : fresh_or_same gdf (normalize gdf fmt).
Proof.
  intros s r s'. unfold normalize, bind, load, alloc, ret.
  intros [= <- <-]. cbn. lia.
Qed.

Lemma reprojection_stage_fresh gdf source_epsg target_epsg :
  fresh_or_same gdf (reprojection_stage gdf source_epsg target_epsg).
Proof.
  intros s r s'. unfold reprojection_stage.
  destruct (truthy target_epsg && truthy source_epsg
            && negb (bool_decide (target_epsg = source_epsg))).
  - unfold reproject_geodataframe, bind, load.
    destruct (crs (objects s !!! gdf)) as [c|] eqn:Hcrs.
    + destruct (negb (bool_decide (to_epsg c = Some (get source_epsg 0)))).
      * unfold set_crs, to_crs, bind, load, alloc, ret. cbn [objects next].
        rewrite lookup_total_insert_eq. cbn [crs].
        intros [= <- <-]. cbn. lia.
      * unfold ret, to_crs, bind, load. rewrite Hcrs. unfold alloc.
        intros [= <- <-]. cbn. lia.
    + unfold set_crs, to_crs, bind, load, alloc, ret. cbn [objects next].
      rewrite lookup_total_insert_eq. cbn [crs].
      intros [= <- <-]. cbn. lia.
  - destruct (truthy source_epsg && negb (truthy target_epsg)).
    + unfold bind, load.
      destruct (crs (objects s !!! gdf)).
      * unfold ret. intros [= <- <-]. cbn. lia.
      * unfold set_crs, bind, load, alloc, ret. intros [= <- <-]. cbn. lia.
    + unfold ret. intros [= <- <-]. cbn. lia.
Qed.

Lemma prepare_snapshot_distinct file source_epsg output_format target_epsg
    fix_geometries normalize_attributes s p s' :
  prepare file source_epsg output_format target_epsg
    fix_geometries normalize_attributes s = Value p s' ->
  p_gdf_before p <> p_gdf p
  /\ objects s' !!! p_gdf_before p = file.
Proof.
  unfold prepare.
  unfold bind at 1. unfold alloc at 1.
  unfold bind at 1. unfold copy, bind at 1, load at 1, alloc at 1.
  cbn [objects next]. rewrite lookup_total_insert_eq.
  set (s2 := {| objects := <[S (next s) := file]> (<[next s := file]> (objects s));
                next := S (S (next s)) |}).
  unfold bind at 1.
  assert (Hc : forall r s3,
    (if fix_geometries
     then bind (clean (next s)) (fun r => ret (r.1, Some r.2))
     else ret (next s, None)) s2 = Value r s3 ->
    (r.1 = next s \/ S (S (next s)) <= r.1)%nat /\ (S (S (next s)) <= next s3)%nat
    /\ objects s3 !!! S (next s) = file).
  { intros r s3. destruct fix_geometries.
    - unfold bind, clean, load, alloc, ret. intros [= <- <-]. cbn.
      rewrite lookup_total_insert_ne, lookup_total_insert_eq by lia. auto with lia.
    - unfold ret. intros [= <- <-]. cbn. rewrite lookup_total_insert_eq. auto with lia. }
  destruct ((if fix_geometries
             then bind (clean (next s)) (fun r => ret (r.1, Some r.2))
             else ret (next s, None)) s2) as [cleaned s3|] eqn:Hclean; [|discriminate].
  destruct (Hc _ _ eq_refl) as (Hc1 & Hc2 & Hc3). clear Hc.
  unfold bind at 1.
  assert (Hn : forall r s4,
    (if normalize_attributes
     then bind (normalize cleaned.1 output_format) (fun r => ret (r.1, Some r.2))
     else ret (cleaned.1, None)) s3 = Value r s4 ->
    (r.1 = next s \/ S (S (next s)) <= r.1)%nat /\ (S (S (next s)) <= next s4)%nat
    /\ objects s4 !!! S (next s) = file).
  { intros r s4. destruct normalize_attributes.
    - unfold bind, normalize, load, alloc, ret. intros [= <- <-]. cbn.
      rewrite lookup_total_insert_ne by lia. auto with lia.
    - unfold ret. intros [= <- <-]. cbn. auto with lia. }
  destruct ((if normalize_attributes
             then bind (normalize cleaned.1 output_format) (fun r => ret (r.1, Some r.2))
             else ret (cleaned.1, None)) s3) as [normalized s4|] eqn:Hnorm; [|discriminate].
  destruct (Hn _ _ eq_refl) as (Hn1 & Hn2 & Hn3). clear Hn.
  unfold bind at 1.
  destruct (reprojection_stage normalized.1 source_epsg target_epsg s4)
    as [projected s5|] eqn:Hproj; [|discriminate].
  pose proof (reprojection_stage_fresh _ _ _ _ _ _ Hproj) as [Hp1 Hp2].
  unfold ret. intros [= <- <-]. cbn [p_gdf_before p_gdf].
  split; [lia|].
  (* the stage does not write below [next] *)
  revert Hproj. unfold reprojection_stage.
  destruct (truthy target_epsg && truthy source_epsg
            && negb (bool_decide (target_epsg = source_epsg))).
  - unfold reproject_geodataframe, bind, load.
    destruct (crs (objects s4 !!! normalized.1)) as [c|] eqn:Hcrs.
    + destruct (negb (bool_decide (to_epsg c = Some (get source_epsg 0)))).
      * unfold set_crs, to_crs, bind, load, alloc, ret. cbn [objects next].
        rewrite lookup_total_insert_eq. cbn [crs].
        intros [= <- <-]. cbn. rewrite !lookup_total_insert_ne by lia. exact Hn3.
      * unfold ret, to_crs, bind, load. rewrite Hcrs. unfold alloc.
        intros [= <- <-]. cbn. rewrite lookup_total_insert_ne by lia. exact Hn3.
    + unfold set_crs, to_crs, bind, load, alloc, ret. cbn [objects next].
      rewrite lookup_total_insert_eq. cbn [crs].
      intros [= <- <-]. cbn. rewrite !lookup_total_insert_ne by lia. exact Hn3.
  - destruct (truthy source_epsg && negb (truthy target_epsg)).
    + unfold bind, load.
      destruct (crs (objects s4 !!! normalized.1)).
      * unfold ret. intros [= <- <-]. exact Hn3.
      * unfold set_crs, bind, load, alloc, ret. intros [= <- <-]. cbn.
        rewrite lookup_total_insert_ne by lia. exact Hn3.
    + unfold ret. intros [= <- <-]. exact Hn3.
Qed.

(** C10, as the code has it: when the output format is CSV the write
    stage assigns the columns latitude and longitude on the dataset
    object itself, not on a copy, so the report made afterwards from the
    same object counts the columns of the object after the write. Labels
    that the dataset does not have yet are appended, and the count grows
    by two when both are new; a label that is already there keeps its
    place and adds nothing. The attribute section lists both labels when
    the dataset has a row, and is empty otherwise. The snapshot of the
    input is another object: [columns_input] counts the columns that were
    read. For every other supported format the write stage leaves the
    dataset, and so its columns, as they are. *)
Theorem process_report_columns (file : GeoDataFrame geometry attrs)
    (source_epsg : option Z) (output_format : string) (target_epsg : option Z)
    (fix_geometries normalize_attributes : bool) (tmpname : string) (s : store) :
  let run := process file source_epsg output_format target_epsg
               fix_geometries normalize_attributes tmpname s in
  match prepare file source_epsg output_format target_epsg
          fix_geometries normalize_attributes s with
  | Raised e s1 => run = Raised e s1
  | Value p s1 =>
      let d := objects s1 !!! p_gdf p in
      (output_format = "CSV" ->
         exists res s',
           run = Value res s'
           /\ objects s' !!! p_gdf p = add_centroid_columns d
           /\ QualityReporter.columns_output
                (QualityReporter.r_summary (quality_report res))
              = len (set_column "longitude" (set_column "latitude" (columns d))) - 1
           /\ QualityReporter.columns_input
                (QualityReporter.r_summary (quality_report res))
              = len (columns file) - 1
           /\ (~ In "latitude" (columns d) -> ~ In "longitude" (columns d) ->
                 QualityReporter.columns_output
                   (QualityReporter.r_summary (quality_report res))
                 = (len (columns d) - 1) + 2)
           /\ (rows d <> [] ->
                 exists cols,
                   QualityReporter.attr_columns
                     (QualityReporter.r_attribute_quality (quality_report res))
                   = Some cols
                   /\ In "latitude" (keys cols) /\ In "longitude" (keys cols))
           /\ (rows d = [] ->
                 QualityReporter.attr_columns
                   (QualityReporter.r_attribute_quality (quality_report res)) = None))
      /\ (output_format <> "CSV" ->
          forall config, config_get FORMAT_CONFIG output_format = Some config ->
            exists res,
              run = Value res s1
              /\ QualityReporter.columns_output
                   (QualityReporter.r_summary (quality_report res))
                 = len (columns d) - 1)
  end.
Proof.
  cbn zeta.
  destruct (prepare file source_epsg output_format target_epsg
              fix_geometries normalize_attributes s) as [p s1|e s1] eqn:Hprep;
    unfold process, bind; rewrite Hprep; [|reflexivity].
  apply prepare_snapshot_distinct in Hprep as [Hne Hfile].
  destruct (write_and_report_columns s1 (p_gdf_before p) (p_gdf p)
              (p_geometry_stats p) (p_attribute_stats p) source_epsg
              (p_effective_target_epsg p) output_format tmpname Hne)
    as [Hcsv Hother].
  split.
  - intros Hfmt.
    destruct (Hcsv Hfmt) as (res & s' & Hrun & Hobj & _ & Hout & Hin & Hnew & Hattr & Hnone).
    exists res, s'. rewrite Hfile in Hin. split_and!; assumption.
  - exact Hother.
Qed.

(** ** The stages as functions of the dataset

    What stages 4, 5 and 6 make of a dataset, without the store. *)








(** ** What [process] returns *)



End Pipeline.

Arguments Value {geometry attrs A} a s.
Arguments Raised {geometry attrs A} e s.
Arguments objects {geometry attrs} s.
Arguments next {geometry attrs} s.
Arguments empty_store {geometry attrs}.

(** ** Runs on sample datasets *)

Import GeometryCleaner.

(** A stand-in for the coordinate transformation: points are moved by the
    target code. *)
Definition sample_transform (from : CRS) (epsg : Z) (g : sample_geometry)
  : sample_geometry :=
  match g with
  | Point x y => Point (x + epsg) (y + epsg)
  | _ => g
  end.

Definition sample_describe (gdf : GeoDataFrame sample_geometry string) (col : string)
  : QualityReporter.col_stats :=
  {| QualityReporter.dtype := "float64"; QualityReporter.null_count := 0;
     QualityReporter.null_rate := inject_Z 0; QualityReporter.unique_count := 1 |}.

Definition sample_process :=
  process sample_is_valid sample_is_empty sample_make_valid sample_explain
    AttributeNormalizer.nfkd_of_ascii sample_transform (fun q => q) sample_describe.

Definition paris : @row sample_geometry string :=
  {| index := 0; geom := Some (Point 2 48); attr := "Paris" |}.

(** A dataset without CRS. *)
Definition naive_points : GeoDataFrame sample_geometry string :=
  {| columns := ["nom"; "geometry"]; rows := [paris]; crs := None |}.

(** A dataset that already has the two centroid labels. *)
Definition stations : GeoDataFrame sample_geometry string :=
  {| columns := ["latitude"; "longitude"; "geometry"]; rows := [paris];
     crs := Some (EPSG 4326) |}.

Definition communes : GeoDataFrame sample_geometry string :=
  {| columns := ["nom"; "geometry"]; rows := [paris]; crs := Some (EPSG 4326) |}.

Definition store_of (f : GeoDataFrame sample_geometry string) : store :=
  {| objects := {[ 0%nat := f ]}; next := 1 |}.

(** C8, counterexample: a target EPSG is given, it differs from the
    detected source (there is none), and the dataset is not reprojected:
    it is the same object, with the coordinates and the missing CRS it
    had, while the target is reported as the effective target. *)
Lemma target_without_source_not_reprojected :
  Some 2154 <> (None : option Z)
  /\ reprojection_stage sample_transform 0 None (Some 2154) (store_of naive_points)
     = Value (0%nat, Some 2154) (store_of naive_points)
  /\ objects (store_of naive_points) !!! 0%nat = naive_points
  /\ crs naive_points <> Some (EPSG 2154).
Proof.
  split_and!; try discriminate; vm_compute; reflexivity.
Qed.

Example reprojection_to_lambert93 :
  match reprojection_stage sample_transform 0 (Some 4326) (Some 2154) (store_of communes) with
  | Value (gdf, eff) s =>
      eff = Some 2154
      /\ objects s !!! gdf
         = {| columns := ["nom"; "geometry"];
              rows := [ {| index := 0; geom := Some (Point 2156 2202); attr := "Paris" |} ];
              crs := Some (EPSG 2154) |}
  | Raised _ _ => False
  end.
Proof. vm_compute. auto. Qed.

(** C10, counterexample: the dataset already has the columns latitude and
    longitude. The CSV write assigns them in place and the report counts
    2 columns, as many as before the write: there are no two extra
    columns. *)
Lemma csv_existing_centroid_columns_not_extra :
  match sample_process stations (Some 4326) "CSV" None false false "ab12" empty_store with
  | Value res s =>
      QualityReporter.columns_output (QualityReporter.r_summary (quality_report res)) = 2
      /\ QualityReporter.columns_input (QualityReporter.r_summary (quality_report res)) = 2
      /\ len (columns stations) - 1 = 2
      /\ QualityReporter.columns_output (QualityReporter.r_summary (quality_report res))
         <> (len (columns stations) - 1) + 2
  | Raised _ _ => False
  end.
Proof. vm_compute. split_and!; try reflexivity. discriminate. Qed.

(** The snapshot is a copy: with no cleaning and no normalizing the write
    still leaves [columns_input] alone. *)
Example process_csv_counts :
  match sample_process communes (Some 4326) "CSV" None false false "ab12" empty_store with
  | Value res s =>
      QualityReporter.columns_input (QualityReporter.r_summary (quality_report res)) = 1
      /\ QualityReporter.columns_output (QualityReporter.r_summary (quality_report res)) = 3
      /\ (keys <$> QualityReporter.attr_columns
                     (QualityReporter.r_attribute_quality (quality_report res)))
         = Some ["nom"; "latitude"; "longitude"]
      /\ output_path res = "/tmp/geoconvert_out_ab12.csv"
  | Raised _ _ => False
  end.
Proof. vm_compute. auto. Qed.

Example process_shapefile_counts :
  match sample_process communes (Some 4326) "ESRI Shapefile" (Some 2154) true true "ab12"
          empty_store with
  | Value res s =>
      QualityReporter.columns_output (QualityReporter.r_summary (quality_report res)) = 1
      /\ target_epsg res = Some 2154
      /\ output_path res = "/tmp/geoconvert_out_ab12.zip"
  | Raised _ _ => False
  end.
Proof. vm_compute. auto. Qed.

Example process_unknown_format :
  match sample_process communes (Some 4326) "PDF" None true true "ab12" empty_store with
  | Value _ _ => False
  | Raised e _ => e = "Format de sortie non supporté : PDF"
  end.
Proof. vm_compute. reflexivity. Qed.


(** ** Looking for the dataset in an archive *)

(** [s.endswith(suffix)] *)
Definition str_endswith (s suffix : string) : bool :=
  String.eqb (str_drop (String.length s - String.length suffix) s) suffix.

(** The extensions that [_extract_if_zip] looks for, in its order. *)
Definition ARCHIVE_EXTENSIONS : list string :=
  [".shp"; ".gpkg"; ".geojson"; ".kml"; ".gdb"; ".dxf"; ".csv"].

(** The loop of [_extract_if_zip]: [extracted] holds the paths under the
    extraction directory in the order [rglob] walks them. *)
Fixpoint first_match (exts : list string) (extracted : list string) : option string :=
  match exts with
  | [] => None
  | ext :: rest =>
      match List.filter (fun f => str_endswith f ext) extracted with
      | m :: _ => Some m
      | [] => first_match rest extracted
      end
  end.

(** [GDALProcessor._extract_if_zip], for an archive that opens; [inr] is
    the [ValueError]. *)
Definition _extract_if_zip (path : string) (extracted : list string) : string + string :=
  if negb (str_endswith (str_lower path) ".zip") then inl path
  else
    match first_match ARCHIVE_EXTENSIONS extracted with
    | Some m => inl m
    | None => inr "Aucun fichier géospatial reconnu dans l'archive ZIP."
    end.

Lemma first_match_spec (extracted : list string) (exts : list string) :
  match first_match exts extracted with
  | Some m =>
      In m extracted
      /\ exists before ext after,
           exts = before ++ ext :: after
           /\ str_endswith m ext = true
           /\ forall e f, In e before -> In f extracted -> str_endswith f e = false
  | None => forall e f, In e exts -> In f extracted -> str_endswith f e = false
  end.
Proof.
  induction exts as [|ext rest IH]; cbn [first_match].
  - intros e f [].
  - destruct (List.filter (fun f => str_endswith f ext) extracted) as [|m l] eqn:Hf.
    + assert (Hnone : forall f, In f extracted -> str_endswith f ext = false).
      { intros f Hin. destruct (str_endswith f ext) eqn:He; [|reflexivity].
        assert (Hin' : In f (List.filter (fun f => str_endswith f ext) extracted))
          by (apply List.filter_In; auto).
        rewrite Hf in Hin'. destruct Hin'. }
      destruct (first_match rest extracted) as [m|].
      * destruct IH as (Hin & before & ext' & after & -> & Hend & Hbefore).
        split; [exact Hin|]. exists (ext :: before), ext', after.
        split_and!; [reflexivity | exact Hend |].
        intros e f [<-|He] Hf'; [now apply Hnone | now apply Hbefore].
      * intros e f [<-|He] Hf'; [now apply Hnone | now apply IH].
    + assert (Hin : In m (List.filter (fun f => str_endswith f ext) extracted))
        by (rewrite Hf; now left).
      apply List.filter_In in Hin as [Hin Hend].
      split; [exact Hin|]. exists [], ext, rest.
      split_and!; [reflexivity | exact Hend | intros e f []].
Qed.

(** X27: [_extract_if_zip] gives back a path that does not end in
    [.zip] (in any letter case) as it is. For an archive it answers a
    path of the archive that ends with one of the seven extensions, and
    no path of the archive ends with an extension that comes earlier in
    the list: a shapefile wins over a GeoPackage, wherever they are. It
    raises exactly when no path of the archive has one of the seven
    extensions. *)
Theorem extract_if_zip_priority (path : string) (extracted : list string) :
  match _extract_if_zip path extracted with
  | inl work =>
      (str_endswith (str_lower path) ".zip" = false /\ work = path)
      \/ (str_endswith (str_lower path) ".zip" = true
          /\ In work extracted
          /\ exists before ext after,
               ARCHIVE_EXTENSIONS = before ++ ext :: after
               /\ str_endswith work ext = true
               /\ forall e f, In e before -> In f extracted -> str_endswith f e = false)
  | inr _ =>
      str_endswith (str_lower path) ".zip" = true
      /\ forall e f, In e ARCHIVE_EXTENSIONS -> In f extracted -> str_endswith f e = false
  end.
Proof.
  unfold _extract_if_zip.
  destruct (str_endswith (str_lower path) ".zip"); cbn [negb]; [|now left].
  pose proof (first_match_spec extracted ARCHIVE_EXTENSIONS) as Hspec.
  destruct (first_match ARCHIVE_EXTENSIONS extracted) as [m|].
  - right. split; [reflexivity | exact Hspec].
  - split; [reflexivity | exact Hspec].
Qed.

Example extract_shapefile_first :
  _extract_if_zip "/tmp/in/Routes.ZIP"
    ["/tmp/x/readme.txt"; "/tmp/x/a/routes.gpkg"; "/tmp/x/b/routes.shp"]
  = inl "/tmp/x/b/routes.shp".
Proof. reflexivity. Qed.

(** FlatGeobuf is not looked for, and the match is on the letters as they
    are. *)
Example extract_not_found :
  _extract_if_zip "/tmp/in/routes.zip" ["/tmp/x/routes.fgb"; "/tmp/x/ROUTES.SHP"]
  = inr "Aucun fichier géospatial reconnu dans l'archive ZIP.".
Proof. reflexivity. Qed.

(** ** The path of the packaged output *)

Lemma config_get_In (d : list (string * format_config)) (k : string)
    (config : format_config) :
  config_get d k = Some config -> In (k, config) d.
Proof.
  induction d as [|[k' v] d IH]; cbn; [discriminate|].
  destruct (String.eqb_spec k k') as [->|_].
  - intros [= ->]. now left.
  - intros Hget. right. auto.
Qed.

(** X12: for a supported format, the path that [_package_if_needed]
    returns for the file that [_write_file] names is that path when the
    format has one file, and that path with [.zip] for its extension when
    the format has several (shapefile, file geodatabase), as long as the
    random part of the temporary name has no dot. [str.replace] is applied to the whole path: it changes the
    extension only because nothing before it has a dot. *)
Theorem package_written_path (output_format tmpname : string) (config : format_config) :
  config_get FORMAT_CONFIG output_format = Some config ->
  (forall c, In c (list_ascii_of_string tmpname) -> c <> "."%char) ->
  _package_if_needed ("/tmp/geoconvert_out_" +:+ tmpname +:+ ext config) output_format
  = "/tmp/geoconvert_out_" +:+ tmpname
    +:+ (if single_file config then ext config else ".zip").
Proof.
  intros Hconfig Hno. unfold _package_if_needed. rewrite Hconfig.
  destruct (single_file config) eqn:Hsingle; [reflexivity|].
  assert (Hext : exists rest, ext config = String "." rest).
  { apply config_get_In in Hconfig. cbn in Hconfig.
    repeat (destruct Hconfig as [[= _ <-]|Hconfig]; [eexists; reflexivity|]).
    destruct Hconfig. }
  destruct Hext as [rest ->].
  rewrite <- !str_app_assoc. apply str_replace_suffix.
  intros c Hc. rewrite list_ascii_of_app in Hc. apply in_app_or in Hc as [Hc|Hc].
  - cbn in Hc. intuition (subst; discriminate).
  - now apply Hno.
Qed.

Lemma package_written_path_witness :
  _package_if_needed ("/tmp/geoconvert_out_" +:+ "k3x_9q0z" +:+ ".shp") "ESRI Shapefile"
  = "/tmp/geoconvert_out_" +:+ "k3x_9q0z" +:+ ".zip".
Proof.
  apply (package_written_path "ESRI Shapefile" "k3x_9q0z"
           {| driver := "ESRI Shapefile"; ext := ".shp"; single_file := false |}).
  - reflexivity.
  - intros c Hc. cbn in Hc. intuition (subst; discriminate).
Defined.

(** The replacement is not anchored at the end of the path. *)
Example package_dotted_name :
  _package_if_needed "/tmp/geoconvert_out_a.shp_b.shp" "ESRI Shapefile"
  = "/tmp/geoconvert_out_a.zip_b.zip".
Proof. reflexivity. Qed.

End GDALProcessor.


(* ===================================================================== *)
(** * models/conversion.py, models/user.py *)
(* ===================================================================== *)

Module Models.

(** UUIDs are 128-bit numbers; timestamps are seconds on the UTC clock. *)
Definition UUID := N.
Definition datetime := Z.

(** [str(u)] of a UUID: 32 hexadecimal digits in groups of 8-4-4-4-12. *)
Definition hex_digit (n : N) : ascii :=
  match String.get (N.to_nat n) "0123456789abcdef" with
  | Some c => c
  | None => "0"%char
  end.

Fixpoint hex_pad (digits : nat) (n : N) : string :=
  match digits with
  | O => EmptyString
  | S k => hex_pad k (n / 16)%N +:+ String (hex_digit (n mod 16)%N) EmptyString
  end.

Definition str_of_uuid (u : UUID) : string :=
  let h := hex_pad 32 u in
  String.substring 0 8 h +:+ "-" +:+ String.substring 8 4 h +:+ "-"
  +:+ String.substring 12 4 h +:+ "-" +:+ String.substring 16 4 h +:+ "-"
  +:+ String.substring 20 12 h.

Inductive JobStatus := PENDING | PROCESSING | SUCCESS | FAILED | EXPIRED.

#[export] Instance JobStatus_eq_dec : EqDecision JobStatus.
Proof. solve_decision. Defined.

Definition status_value (s : JobStatus) : string :=
  match s with
  | PENDING => "pending"
  | PROCESSING => "processing"
  | SUCCESS => "success"
  | FAILED => "failed"
  | EXPIRED => "expired"
  end.

(** A row of [conversion_jobs]; the columns that only carry the quality
    report and its counters are left out. *)
Record ConversionJob := {
  id : UUID;
  user_id : UUID;
  celery_task_id : option UUID;
  original_filename : string;
  input_storage_path : string;
  output_format : string;
  target_epsg : option Z;
  fix_geometries : string;
  normalize_attributes : string;
  encoding : string;
  status : JobStatus;
  output_storage_path : option string;
  output_file_size_bytes : option Z;
  download_url : option string;
  download_expires_at : option datetime;
  error_message : option string;
  error_traceback : option string;
  created_at : datetime;
  started_at : option datetime;
  completed_at : option datetime;
}.

Inductive PlanType := FREE | STARTER | PRO | ENTERPRISE.

#[export] Instance PlanType_eq_dec : EqDecision PlanType.
Proof. solve_decision. Defined.

Record User := {
  u_id : UUID;
  email : string;
}.

Record Subscription := {
  s_user_id : UUID;
  plan : PlanType;
  conversions_used_this_month : Z;
}.

(** The two tables. [conversion_jobs] is keyed by its primary key;
    [subscriptions] by [user_id], which is declared unique. *)
Record database := {
  conversion_jobs : gmap N ConversionJob;
  subscriptions : gmap N Subscription;
}.

(** What a request handler ends with. *)
Inductive response (A : Type) :=
  | Ok (body : A)
  | HTTPException (status_code : Z) (detail : string)
  | ValueError.
Arguments Ok {A} body.
Arguments HTTPException {A} status_code detail.
Arguments ValueError {A}.

Definition status_code_of {A} (r : response A) : option Z :=
  match r with
  | HTTPException c _ => Some c
  | _ => None
  end.

(** The [job_id] of the URL after [uuid.UUID(job_id)]: the call raises
    [ValueError] on a string that is no UUID. *)
Inductive job_id_arg :=
  | NotAUUID
  | IsUUID (u : UUID).

End Models.


(* ===================================================================== *)
(** * core/storage.py *)
(* ===================================================================== *)

Module Storage.

(** [StorageBackend.get_url] *)
Class StorageBackend := {
  get_url : string -> Z -> string;
}.

(** [LocalStorage.get_url] *)
Definition LocalStorage : StorageBackend :=
  {| get_url := fun storage_path _ => "/api/v1/download/file?path=" +:+ storage_path |}.

(** [S3Storage.get_url], over the signing call of the client library. *)
Definition S3Storage (generate_presigned_url : string -> Z -> string) : StorageBackend :=
  {| get_url := fun storage_path expires_in =>
                  generate_presigned_url storage_path expires_in |}.

End Storage.


(* ===================================================================== *)
(** * api/v1/convert.py *)
(* ===================================================================== *)

Module Convert.
Import Py Models.

Record ConversionRequest := {
  q_storage_path : string;
  q_original_filename : string;
  q_output_format : string;
  q_target_epsg : option Z;
  q_source_epsg : option Z;
  q_fix_geometries : bool;
  q_normalize_attributes : bool;
  q_encoding : string;
}.

Record ConversionJobResponse := {
  a_job_id : UUID;
  a_status : string;
  a_message : string;
  a_created_at : datetime;
  a_estimated_wait_seconds : option Z;
}.

Definition PLAN_LIMITS : list (PlanType * Z) :=
  [ (FREE, 5); (STARTER, 100); (PRO, 1000); (ENTERPRISE, -1) ].

(** [PLAN_LIMITS.get(plan, default)] *)
Fixpoint limits_get (d : list (PlanType * Z)) (p : PlanType) (default : Z) : Z :=
  match d with
  | [] => default
  | (p', l) :: d' => if decide (p = p') then l else limits_get d' p default
  end.

(** [check_quota]: the subscription of the user, or the refusal. *)
Definition check_quota (user : User) (db : database) : response Subscription :=
  match subscriptions db !! u_id user with
  | None => HTTPException 402 "Aucun abonnement trouvé."
  | Some sub =>
      let limit := limits_get PLAN_LIMITS (plan sub) 5 in
      if negb (limit =? -1) && (limit <=? conversions_used_this_month sub) then
        HTTPException 429
          ("Quota mensuel atteint (" +:+ str_of_int limit +:+ " conversions). "
           +:+ "Passez au plan supérieur sur geoconvert.io/pricing")
      else Ok sub
  end.

(** [str(b).lower()] *)
Definition str_lower_bool (b : bool) : string := if b then "true" else "false".

(** The world of the handler: the database and the broker queue that
    [apply_async] feeds. *)
Record world := {
  db : database;
  queue : list UUID;
}.

(** [create_conversion_job]. [new_id] and [utcnow] are the defaults of the
    row ([uuid.uuid4()], [datetime.utcnow()]). When [check_quota] raises,
    nothing was added to the session. *)
Definition create_conversion_job (payload : ConversionRequest) (current_user : User)
    (new_id : UUID) (utcnow : datetime) (w : world)
  : world * response ConversionJobResponse :=
  match check_quota current_user (db w) with
  | HTTPException code detail => (w, HTTPException code detail)
  | ValueError => (w, ValueError)
  | Ok sub =>
      let job :=
        {| id := new_id;
           user_id := u_id current_user;
           celery_task_id := None;
           original_filename := q_original_filename payload;
           input_storage_path := q_storage_path payload;
           output_format := q_output_format payload;
           target_epsg := q_target_epsg payload;
           fix_geometries := str_lower_bool (q_fix_geometries payload);
           normalize_attributes := str_lower_bool (q_normalize_attributes payload);
           encoding := q_encoding payload;
           status := PENDING;
           output_storage_path := None;
           output_file_size_bytes := None;
           download_url := None;
           download_expires_at := None;
           error_message := None;
           error_traceback := None;
           created_at := utcnow;
           started_at := None;
           completed_at := None |} in
      (* convert_file.apply_async(args=[str(job.id)], task_id=str(job.id)) *)
      let queue' := queue w ++ [id job] in
      let job := {| id := id job; user_id := user_id job;
                    celery_task_id := Some (id job);
                    original_filename := original_filename job;
                    input_storage_path := input_storage_path job;
                    output_format := output_format job;
                    target_epsg := target_epsg job;
                    fix_geometries := fix_geometries job;
                    normalize_attributes := normalize_attributes job;
                    encoding := encoding job;
                    status := status job;
                    output_storage_path := output_storage_path job;
                    output_file_size_bytes := output_file_size_bytes job;
                    download_url := download_url job;
                    download_expires_at := download_expires_at job;
                    error_message := error_message job;
                    error_traceback := error_traceback job;
                    created_at := created_at job;
                    started_at := started_at job;
                    completed_at := completed_at job |} in
      (* sub.conversions_used_this_month += 1 *)
      let sub' := {| s_user_id := s_user_id sub; plan := plan sub;
                     conversions_used_this_month :=
                       conversions_used_this_month sub + 1 |} in
      ({| db := {| conversion_jobs := <[new_id := job]> (conversion_jobs (db w));
                   subscriptions := <[u_id current_user := sub']> (subscriptions (db w)) |};
          queue := queue' |},
       Ok {| a_job_id := id job;
             a_status := "pending";
             a_message :=
               "Job de conversion créé. Interrogez /status pour suivre la progression.";
             a_created_at := created_at job;
             a_estimated_wait_seconds := Some 30 |})
  end.

Definition refused {A} (r : response A) : bool :=
  match r with Ok _ => false | _ => true end.

(** The counter of a user, as the database has it. *)
Definition used (d : database) (user : UUID) : option Z :=
  conversions_used_this_month <$> subscriptions d !! user.

(** ** Quota *)

Lemma limits_of_plans (p : PlanType) :
  limits_get PLAN_LIMITS p 5
  = match p with FREE => 5 | STARTER => 100 | PRO => 1000 | ENTERPRISE => -1 end.
Proof. destruct p; reflexivity. Qed.

Lemma check_quota_cases (user : User) (d : database) (sub : Subscription) :
  subscriptions d !! u_id user = Some sub ->
  let limit := limits_get PLAN_LIMITS (plan sub) 5 in
  (limit <> -1 /\ limit <= conversions_used_this_month sub
   /\ exists detail, check_quota user d = HTTPException 429 detail)
  \/ ((limit = -1 \/ conversions_used_this_month sub < limit)
      /\ check_quota user d = Ok sub).
Proof.
  intros Hsub. cbn zeta. unfold check_quota. rewrite Hsub.
  destruct (Z.eqb_spec (limits_get PLAN_LIMITS (plan sub) 5) (-1)) as [He|Hne];
    cbn [negb andb].
  - right. auto.
  - destruct (Z.leb_spec (limits_get PLAN_LIMITS (plan sub) 5)
                (conversions_used_this_month sub)).
    + left. eauto.
    + right. auto.
Qed.

(** C4: for a user who has a subscription, with plan limit [limit]: when
    the limit is finite the submission is refused with 429 (quota
    exhausted) exactly when the counter has reached the limit, and a limit
    of -1 never refuses; a refused submission leaves the world as it was
    (no job row, same counter, nothing queued); an accepted submission
    stores a pending job under the new id, leaves the other rows alone,
    adds one row when the id is new, and increments the counter by one. *)
Theorem create_conversion_job_quota (payload : ConversionRequest) (current_user : User)
    (new_id : UUID) (utcnow : datetime) (w : world) (sub : Subscription) :
  subscriptions (db w) !! u_id current_user = Some sub ->
  let limit := limits_get PLAN_LIMITS (plan sub) 5 in
  let '(w', r) := create_conversion_job payload current_user new_id utcnow w in
  (limit <> -1 ->
     (status_code_of r = Some 429 <-> limit <= conversions_used_this_month sub))
  /\ (limit = -1 -> refused r = false)
  /\ (refused r = true -> status_code_of r = Some 429 /\ w' = w)
  /\ (refused r = false ->
        (exists job, conversion_jobs (db w') !! new_id = Some job
                     /\ status job = PENDING
                     /\ user_id job = u_id current_user
                     /\ id job = new_id)
        /\ (forall other, other <> new_id ->
              conversion_jobs (db w') !! other = conversion_jobs (db w) !! other)
        /\ (conversion_jobs (db w) !! new_id = None ->
              size (conversion_jobs (db w')) = S (size (conversion_jobs (db w))))
        /\ used (db w') (u_id current_user)
           = Some (conversions_used_this_month sub + 1)
        /\ queue w' = queue w ++ [new_id]).
Proof.
  intros Hsub. cbn zeta.
  unfold create_conversion_job.
  destruct (check_quota_cases current_user (db w) sub Hsub)
    as [(Hfin & Hle & detail & Hq) | (Hok & Hq)]; rewrite Hq.
  - split_and!; cbn; try done.
  - split_and!; cbn [status_code_of refused]; try done.
    + intros Hfin. split; [discriminate|]. intros Hle. lia.
    + intros _. cbn [db conversion_jobs subscriptions queue id status user_id].
      split_and!.
      * eexists. rewrite lookup_insert_eq. split_and!; reflexivity.
      * intros other Hne. now rewrite lookup_insert_ne.
      * intros Hnew. now apply map_size_insert_None.
      * unfold used. cbn. now rewrite lookup_insert_eq.
      * reflexivity.
Qed.

(** ** The sixth job of a free plan *)

Definition carol : User := {| u_id := 21%N; email := "carol@example.org" |}.

Definition carol_sub (n : Z) : Subscription :=
  {| s_user_id := 21%N; plan := FREE; conversions_used_this_month := n |}.

Definition carol_world (n : Z) : world :=
  {| db := {| conversion_jobs := ∅; subscriptions := {[ 21%N := carol_sub n ]} |};
     queue := [] |}.

Definition sample_request : ConversionRequest :=
  {| q_storage_path := "/tmp/geoconvert/uploads/a.geojson";
     q_original_filename := "a.geojson";
     q_output_format := "GPKG";
     q_target_epsg := None; q_source_epsg := None;
     q_fix_geometries := true; q_normalize_attributes := true;
     q_encoding := "UTF-8" |}.

Lemma create_conversion_job_quota_witness :
  let '(w', r) := create_conversion_job sample_request carol 99%N 1000 (carol_world 5) in
  status_code_of r = Some 429 /\ w' = carol_world 5.
Proof.
  pose proof (create_conversion_job_quota sample_request carol 99%N 1000
                (carol_world 5) (carol_sub 5) eq_refl) as Hq.
  cbn zeta in Hq.
  destruct (create_conversion_job sample_request carol 99%N 1000 (carol_world 5))
    as [w' r] eqn:Hrun.
  destruct Hq as (Hfinite & _ & Hrefused & _).
  assert (Hcode : status_code_of r = Some 429).
  { apply Hfinite; vm_compute; discriminate. }
  split; [exact Hcode|].
  apply Hrefused. destruct r; cbn in *; congruence.
Defined.

Example fifth_job_accepted :
  let '(w', r) := create_conversion_job sample_request carol 99%N 1000 (carol_world 4) in
  refused r = false
  /\ used (db w') 21%N = Some 5
  /\ (status <$> conversion_jobs (db w') !! 99%N) = Some PENDING.
Proof. vm_compute. auto. Qed.

(** ** The validators of the request *)

(** [ConversionRequest.validate_format]; [None] is the [ValueError]. *)
Definition valid_formats : list string :=
  ["GeoJSON"; "ESRI Shapefile"; "GPKG"; "KML"; "DXF"; "CSV"; "FlatGeobuf"; "OpenFileGDB"].

Definition validate_format (v : string) : option string :=
  if negb (bool_decide (v ∈ valid_formats)) then None else Some v.

(** [ConversionRequest.validate_epsg], on a value that is null or an
    integer. *)
Definition validate_epsg (v : option Z) : option (option Z) :=
  match v with
  | Some n => if (n <? 1024) || (32767 <? n) then None else Some v
  | None => Some v
  end.

(** The row and the world that an accepted submission leaves. *)
Lemma create_conversion_job_accepted (payload : ConversionRequest) (current_user : User)
    (new_id : UUID) (utcnow : datetime) (w : world) (sub : Subscription) :
  check_quota current_user (db w) = Ok sub ->
  exists job body,
    create_conversion_job payload current_user new_id utcnow w
    = ({| db := {| conversion_jobs := <[new_id := job]> (conversion_jobs (db w));
                   subscriptions :=
                     <[u_id current_user :=
                         {| s_user_id := s_user_id sub; plan := plan sub;
                            conversions_used_this_month :=
                              conversions_used_this_month sub + 1 |}]>
                       (subscriptions (db w)) |};
          queue := queue w ++ [new_id] |},
       Ok body)
    /\ id job = new_id /\ user_id job = u_id current_user /\ status job = PENDING
    /\ original_filename job = q_original_filename payload
    /\ output_format job = q_output_format payload
    /\ fix_geometries job = str_lower_bool (q_fix_geometries payload)
    /\ normalize_attributes job = str_lower_bool (q_normalize_attributes payload)
    /\ output_storage_path job = None /\ download_url job = None
    /\ download_expires_at job = None /\ error_message job = None.
Proof.
  intros Hq. unfold create_conversion_job. rewrite Hq.
  eexists _, _. split; [reflexivity|]. cbn. split_and!; reflexivity.
Qed.

(** ** The EPSG codes of the request *)

Definition with_source_epsg (payload : ConversionRequest) (source_epsg : option Z)
  : ConversionRequest :=
  {| q_storage_path := q_storage_path payload;
     q_original_filename := q_original_filename payload;
     q_output_format := q_output_format payload;
     q_target_epsg := q_target_epsg payload;
     q_source_epsg := source_epsg;
     q_fix_geometries := q_fix_geometries payload;
     q_normalize_attributes := q_normalize_attributes payload;
     q_encoding := q_encoding payload |}.

(** X25: the source EPSG of a request is validated and then not used:
    [create_conversion_job] gives the same row, the same queue and the
    same answer whatever it is, so the worker always works from the
    detected projection. The validator accepts null and the integers
    from 1024 to 32767, as they are; an accepted code is never 0, so for
    the processor a target that is given is a target that is true. *)
Theorem request_source_epsg_unused (payload : ConversionRequest)
    (source_epsg : option Z) (current_user : User) (new_id : UUID) (utcnow : datetime)
    (w : world) (v : option Z) :
  create_conversion_job (with_source_epsg payload source_epsg) current_user new_id utcnow w
  = create_conversion_job payload current_user new_id utcnow w
  /\ (validate_epsg v = Some v <-> v = None \/ exists n, v = Some n /\ 1024 <= n <= 32767)
  /\ (validate_epsg v = None <-> exists n, v = Some n /\ (n < 1024 \/ 32767 < n))
  /\ (validate_epsg v = Some v -> v <> None -> truthy v = true).
Proof.
  split; [reflexivity|].
  unfold validate_epsg, truthy. destruct v as [n|].
  - destruct (Z.ltb_spec n 1024) as [Hlo|Hlo];
      [|destruct (Z.ltb_spec 32767 n) as [Hhi|Hhi]]; cbn [orb].
    + split_and!.
      * split; [discriminate | intros [[=] | (m & [= <-] & Hm)]; lia].
      * split; [intros _; exists n; split; [reflexivity | lia] | reflexivity].
      * discriminate.
    + split_and!.
      * split; [discriminate | intros [[=] | (m & [= <-] & Hm)]; lia].
      * split; [intros _; exists n; split; [reflexivity | lia] | reflexivity].
      * discriminate.
    + split_and!.
      * split; [intros _; right; exists n; split; [reflexivity | lia] | reflexivity].
      * split; [discriminate | intros (m & [= <-] & Hm); lia].
      * intros _ _. apply negb_true_iff, Z.eqb_neq. lia.
  - split_and!.
    + split; auto.
    + split; [discriminate | intros (n & [=] & _)].
    + intros _ Hnone. now contradiction Hnone.
Qed.

(** ** Submissions in a row *)

(** The handler called once for each submission, one after the other;
    each call comes with its payload, the id of the new row and the
    reading of the clock. *)
Fixpoint submit_all (current_user : User)
    (calls : list (ConversionRequest * UUID * datetime)) (w : world)
  : world * list (response ConversionJobResponse) :=
  match calls with
  | [] => (w, [])
  | (payload, new_id, utcnow) :: rest =>
      let '(w1, r) := create_conversion_job payload current_user new_id utcnow w in
      let '(w2, rs) := submit_all current_user rest w1 in
      (w2, r :: rs)
  end.

Lemma create_conversion_job_cases (payload : ConversionRequest) (current_user : User)
    (new_id : UUID) (utcnow : datetime) (w : world) (sub : Subscription) :
  subscriptions (db w) !! u_id current_user = Some sub ->
  let limit := limits_get PLAN_LIMITS (plan sub) 5 in
  (limit <> -1 /\ limit <= conversions_used_this_month sub
   /\ exists detail,
        create_conversion_job payload current_user new_id utcnow w
        = (w, HTTPException 429 detail))
  \/ ((limit = -1 \/ conversions_used_this_month sub < limit)
      /\ exists w' body sub',
           create_conversion_job payload current_user new_id utcnow w = (w', Ok body)
           /\ subscriptions (db w') !! u_id current_user = Some sub'
           /\ plan sub' = plan sub
           /\ conversions_used_this_month sub' = conversions_used_this_month sub + 1
           /\ queue w' = queue w ++ [new_id]).
Proof.
  intros Hsub. cbn zeta. unfold create_conversion_job.
  destruct (check_quota_cases current_user (db w) sub Hsub)
    as [(Hfin & Hle & detail & Hq) | (Hok & Hq)]; rewrite Hq.
  - left. eauto.
  - right. split; [exact Hok|]. eexists _, _, _. split; [reflexivity|].
    cbn [db subscriptions queue id]. rewrite lookup_insert_eq.
    split_and!; reflexivity.
Qed.

(** X15: over any number of submissions in a row by a user who has a
    subscription, the first ones are accepted and the later ones refused:
    with a finite limit exactly as many are accepted as the quota has
    left, so a counter that starts within the limit never passes it; with
    the limit -1 all are accepted. The counter grows by the number
    accepted, and exactly the accepted jobs are queued, in order. *)
Theorem submit_all_quota (current_user : User)
    (calls : list (ConversionRequest * UUID * datetime)) (w : world) (sub : Subscription) :
  subscriptions (db w) !! u_id current_user = Some sub ->
  let limit := limits_get PLAN_LIMITS (plan sub) 5 in
  let used0 := conversions_used_this_month sub in
  let accepted :=
    if limit =? -1 then length calls
    else Z.to_nat (Z.min (Z.of_nat (length calls)) (Z.max 0 (limit - used0))) in
  let w' := (submit_all current_user calls w).1 in
  let rs := (submit_all current_user calls w).2 in
  map refused rs = replicate accepted false ++ replicate (length calls - accepted) true
  /\ used (db w') (u_id current_user) = Some (used0 + Z.of_nat accepted)
  /\ queue w' = queue w ++ map (fun call => call.1.2) (take accepted calls)
  /\ (limit <> -1 -> used0 <= limit -> used0 + Z.of_nat accepted <= limit).
Proof.
  revert w sub. induction calls as [|[[payload new_id] utcnow] rest IH]; intros w sub Hsub.
  - cbn zeta. cbn [submit_all fst snd length map].
    assert (Hz : (if limits_get PLAN_LIMITS (plan sub) 5 =? -1 then 0%nat
                  else Z.to_nat (Z.min (Z.of_nat 0)
                                   (Z.max 0 (limits_get PLAN_LIMITS (plan sub) 5
                                             - conversions_used_this_month sub))))
                 = 0%nat)
      by (destruct (_ =? -1); lia).
    rewrite Hz. cbn. unfold used. rewrite Hsub. cbn.
    rewrite app_nil_r, Z.add_0_r. split_and!; try reflexivity. lia.
  - cbn zeta. cbn [submit_all length].
    destruct (create_conversion_job_cases payload current_user new_id utcnow w sub Hsub)
      as [(Hfin & Hle & detail & Hrun) | (Hok & w1 & body & sub1 & Hrun & Hsub1 & Hplan & Hused & Hq)];
      rewrite Hrun.
    + specialize (IH w sub Hsub). cbn zeta in IH.
      destruct (submit_all current_user rest w) as [w2 rs]. cbn [fst snd] in *.
      apply Z.eqb_neq in Hfin as Hfin'. rewrite Hfin' in *.
      replace (Z.to_nat (Z.min (Z.of_nat (S (length rest))) _)) with 0%nat by lia.
      replace (Z.to_nat (Z.min (Z.of_nat (length rest)) _)) with 0%nat in IH by lia.
      destruct IH as (Hmap & Hu & Hqueue & Hbound).
      cbn [map refused replicate app take] in *. rewrite Nat.sub_0_r in *.
      rewrite Hmap. split_and!; try assumption; reflexivity.
    + specialize (IH w1 sub1 Hsub1). cbn zeta in IH. rewrite Hplan, Hused in IH.
      destruct (submit_all current_user rest w1) as [w2 rs]. cbn [fst snd] in *.
      set (limit := limits_get PLAN_LIMITS (plan sub) 5) in *.
      set (used0 := conversions_used_this_month sub) in *.
      assert (Hk : (if limit =? -1 then S (length rest)
                    else Z.to_nat (Z.min (Z.of_nat (S (length rest)))
                                     (Z.max 0 (limit - used0))))
                   = S (if limit =? -1 then length rest
                        else Z.to_nat (Z.min (Z.of_nat (length rest))
                                         (Z.max 0 (limit - (used0 + 1)))))).
      { destruct (Z.eqb_spec limit (-1)) as [He|Hne]; [reflexivity|].
        destruct Hok as [He|Hlt]; [contradiction|]. lia. }
      rewrite Hk.
      set (k := if limit =? -1 then length rest else _) in *.
      destruct IH as (Hmap & Hu & Hqueue & Hbound).
      cbn [map refused replicate app take fst snd Nat.sub].
      rewrite Hmap, Hu, Hqueue, Hq, <- app_assoc. cbn [app].
      split_and!; try reflexivity.
      * f_equal. lia.
      * intros Hne Hle. destruct Hok as [He|Hlt]; [contradiction|].
        specialize (Hbound Hne). lia.
Qed.

Lemma submit_all_quota_witness :
  map refused
    (submit_all carol
       [(sample_request, 1%N, 10); (sample_request, 2%N, 20); (sample_request, 3%N, 30)]
       (carol_world 3)).2
  = [false; false; true].
Proof.
  apply (submit_all_quota carol
           [(sample_request, 1%N, 10); (sample_request, 2%N, 20); (sample_request, 3%N, 30)]
           (carol_world 3) (carol_sub 3)).
  reflexivity.
Defined.

End Convert.


(* ===================================================================== *)
(** * workers/conversion_tasks.py *)
(* ===================================================================== *)

Module ConversionTasks.
Import Py Models.

(** The options of the task decorator. *)
Definition max_retries : Z := 2.
Definition default_retry_delay : Z := 10.

(** What the [try] block of [convert_file] does in one execution: it
    completes with the stored output, it is interrupted by the soft time
    limit, or it raises an exception [exc] with [str(exc) = msg] and the
    formatted traceback [tb]. *)
Inductive attempt :=
  | Completes (output_storage_path : string) (output_size : Z)
              (feature_count : Z) (quality_score : Z)
  | SoftTimeLimitExceeded
  | Raises (msg tb : string).

Inductive result_dict :=
  | ResNotFound
  | ResSuccess (feature_count quality_score : Z)
  | ResTimeout
  | ResFailed (error : string).

(** How one execution of the task ends: it returns, it raises the [Retry]
    signal (the task was sent again with this countdown), or it raises the
    exception itself. *)
Inductive task_exit :=
  | Returns (d : result_dict)
  | Retry (countdown : Z)
  | Reraises (msg : string).

(** [Task.retry(exc=exc)] of the task framework: with [request.retries]
    retries done, the exception is raised again once the maximum would be
    passed; else the task is sent again after the default delay. *)
Definition retry (request_retries : Z) (exc : string) : task_exit :=
  if max_retries <? request_retries + 1 then Reraises exc
  else Retry default_retry_delay.

Definition update_job (job : ConversionJob) (st : JobStatus)
    (started completed : option datetime) (out_path : option string)
    (out_size : option Z) (url : option string) (expires : option datetime)
    (err tb : option string) : ConversionJob :=
  {| id := id job; user_id := user_id job; celery_task_id := celery_task_id job;
     original_filename := original_filename job;
     input_storage_path := input_storage_path job;
     output_format := output_format job; target_epsg := target_epsg job;
     fix_geometries := fix_geometries job;
     normalize_attributes := normalize_attributes job;
     encoding := encoding job;
     status := st;
     output_storage_path := out_path;
     output_file_size_bytes := out_size;
     download_url := url;
     download_expires_at := expires;
     error_message := err;
     error_traceback := tb;
     created_at := created_at job;
     started_at := started;
     completed_at := completed |}.

Definition store (d : database) (job : ConversionJob) : database :=
  {| conversion_jobs := <[id job := job]> (conversion_jobs d);
     subscriptions := subscriptions d |}.

(** [_mark_failed] *)
Definition _mark_failed (d : database) (job : ConversionJob) (utcnow : datetime)
    (error tb : string) : database :=
  store d (update_job job FAILED (started_at job) (Some utcnow)
             (output_storage_path job) (output_file_size_bytes job)
             (download_url job) (download_expires_at job)
             (Some (str_take 2000 error)) (Some (str_take 5000 tb))).

(** The test of the [except Exception] clause. *)
Definition is_transient (msg : string) : bool :=
  str_in "Connection" msg || str_in "timeout" (str_lower msg).

(** [convert_file]. [started] and [finished] are the two readings of
    the clock, when the job is picked up and when it ends. *)
Definition convert_file (request_retries : Z) (started finished : datetime)
    (job_id : UUID) (run : attempt) (d : database) : database * task_exit :=
  match conversion_jobs d !! job_id with
  | None => (d, Returns ResNotFound)
  | Some job =>
      let job := update_job job PROCESSING (Some started) (completed_at job)
                   (output_storage_path job) (output_file_size_bytes job)
                   (download_url job) (download_expires_at job)
                   (error_message job) (error_traceback job) in
      let d := store d job in
      match run with
      | Completes path size feature_count quality_score =>
          let job := update_job job SUCCESS (started_at job) (Some finished)
                       (Some path) (Some size)
                       (Some ("/api/v1/download/" +:+ str_of_uuid job_id))
                       (Some (finished + 24 * 3600))
                       (error_message job) (error_traceback job) in
          (store d job, Returns (ResSuccess feature_count quality_score))
      | SoftTimeLimitExceeded =>
          (_mark_failed d job finished
             "Timeout dépassé (10 minutes). Fichier trop volumineux." "",
           Returns ResTimeout)
      | Raises msg tb =>
          let d := _mark_failed d job finished msg tb in
          if is_transient msg then (d, retry request_retries msg)
          else (d, Returns (ResFailed msg))
      end
  end.

(** The task over its deliveries: [attempts] says when each execution
    runs and what it does; a [Retry] exit brings the next execution, with
    one more retry on the request. *)
Fixpoint deliveries (attempts : list (datetime * datetime * attempt))
    (request_retries : Z) (job_id : UUID) (d : database)
  : database * list task_exit :=
  match attempts with
  | [] => (d, [])
  | (started, finished, run) :: rest =>
      let '(d', e) := convert_file request_retries started finished job_id run d in
      match e with
      | Retry _ =>
          let '(d'', es) := deliveries rest (request_retries + 1) job_id d' in
          (d'', e :: es)
      | _ => (d', [e])
      end
  end.

Definition is_retry (e : task_exit) : bool :=
  match e with Retry _ => true | _ => false end.

Definition job_status (d : database) (job_id : UUID) : option JobStatus :=
  status <$> conversion_jobs d !! job_id.

(** ** Retries *)

Lemma retry_cases (request_retries : Z) (exc : string) :
  (request_retries < 2 /\ retry request_retries exc = Retry 10)
  \/ (2 <= request_retries /\ retry request_retries exc = Reraises exc).
Proof.
  unfold retry, max_retries, default_retry_delay.
  destruct (Z.ltb_spec 2 (request_retries + 1)); [right | left]; split; auto; lia.
Qed.

Lemma convert_file_retry_bound request_retries started finished job_id run d d' countdown :
  convert_file request_retries started finished job_id run d = (d', Retry countdown) ->
  request_retries < 2 /\ countdown = 10.
Proof.
  unfold convert_file.
  destruct (conversion_jobs d !! job_id) as [job|]; [|discriminate].
  destruct run as [path size fc qs| |msg tb]; try discriminate.
  destruct (is_transient msg); [|discriminate].
  destruct (retry_cases request_retries msg) as [[Hlt ->]|[Hge ->]].
  - intros [= _ <-]. auto.
  - discriminate.
Qed.

Lemma deliveries_retry_count attempts : forall request_retries job_id d,
  (length (List.filter is_retry (deliveries attempts request_retries job_id d).2)
   <= Z.to_nat (2 - request_retries))%nat
  /\ Forall (fun e => is_retry e = true -> e = Retry 10)
       (deliveries attempts request_retries job_id d).2.
Proof.
  induction attempts as [|[[started finished] run] rest IH];
    intros request_retries job_id d.
  - cbn. split; [lia | constructor].
  - cbn [deliveries].
    destruct (convert_file request_retries started finished job_id run d)
      as [d' e] eqn:Hrun.
    destruct e as [res|countdown|msg].
    + cbn. split; [lia|]. repeat constructor. discriminate.
    + apply convert_file_retry_bound in Hrun as [Hlt ->].
      specialize (IH (request_retries + 1) job_id d').
      destruct (deliveries rest (request_retries + 1) job_id d') as [d'' es].
      cbn [snd] in *. destruct IH as [IHn IHall]. cbn [List.filter is_retry length].
      split; [lia|]. constructor; auto.
    + cbn. split; [lia|]. repeat constructor. discriminate.
Qed.

(** C5, as the code has it: when the execution raises an exception whose
    message contains "Connection" (with this capital) or contains
    "timeout" in any letter case, the job is marked failed and the task
    asks for a retry with a countdown of 10 seconds, as long as fewer than
    2 retries were done; after 2 retries the exception is raised instead.
    No run of the task retries more than twice. Every other exception is
    terminal: the job is marked failed and the task returns. *)
Theorem convert_file_retry_policy (request_retries : Z) (started finished : datetime)
    (job_id : UUID) (msg tb : string) (d : database) (job : ConversionJob) :
  conversion_jobs d !! job_id = Some job ->
  id job = job_id ->
  let '(d', e) := convert_file request_retries started finished job_id (Raises msg tb) d in
  job_status d' job_id = Some FAILED
  /\ (is_transient msg = true -> request_retries < 2 -> e = Retry 10)
  /\ (is_transient msg = true -> 2 <= request_retries -> e = Reraises msg)
  /\ (is_transient msg = false -> e = Returns (ResFailed msg))
  /\ (forall attempts,
        (length (List.filter is_retry (deliveries attempts 0 job_id d).2) <= 2)%nat
        /\ Forall (fun e => is_retry e = true -> e = Retry 10)
             (deliveries attempts 0 job_id d).2).
Proof.
  intros Hjob Hid. unfold convert_file. rewrite Hjob.
  assert (Hfailed : forall d0 j now,
             id j = job_id ->
             job_status (_mark_failed d0 j now msg tb) job_id = Some FAILED).
  { intros d0 j now Hj. unfold job_status, _mark_failed, store. cbn.
    rewrite Hj, lookup_insert_eq. reflexivity. }
  assert (Hdeliv : forall attempts,
        (length (List.filter is_retry (deliveries attempts 0 job_id d).2) <= 2)%nat
        /\ Forall (fun e => is_retry e = true -> e = Retry 10)
             (deliveries attempts 0 job_id d).2).
  { intros attempts.
    destruct (deliveries_retry_count attempts 0 job_id d) as [Hn Hall].
    split; [|exact Hall]. change (Z.to_nat (2 - 0)) with 2%nat in Hn. exact Hn. }
  destruct (is_transient msg) eqn:Htr.
  - destruct (retry_cases request_retries msg) as [[Hlt Hr]|[Hge Hr]]; rewrite Hr.
    + split_and!; try done; try lia. now apply Hfailed.
    + split_and!; try done; try lia. now apply Hfailed.
  - split_and!; try done. now apply Hfailed.
Qed.

(** ** Runs *)

Definition pending_job : ConversionJob :=
  {| id := 5%N; user_id := 7%N; celery_task_id := Some 5%N;
     original_filename := "routes.zip";
     input_storage_path := "s3://geoconvert-uploads/uploads/ab/routes.zip";
     output_format := "GeoJSON"; target_epsg := None;
     fix_geometries := "true"; normalize_attributes := "true";
     encoding := "UTF-8"; status := PENDING;
     output_storage_path := None; output_file_size_bytes := None;
     download_url := None; download_expires_at := None;
     error_message := None; error_traceback := None;
     created_at := 100; started_at := None; completed_at := None |}.

Definition worker_db : database :=
  {| conversion_jobs := {[ 5%N := pending_job ]}; subscriptions := ∅ |}.

Lemma convert_file_retry_policy_witness :
  let '(d', e) := convert_file 0 200 260 5%N
                    (Raises "Connection reset by peer" "Traceback") worker_db in
  job_status d' 5%N = Some FAILED /\ e = Retry 10.
Proof.
  pose proof (convert_file_retry_policy 0 200 260 5%N "Connection reset by peer"
                "Traceback" worker_db pending_job eq_refl eq_refl) as H.
  destruct (convert_file 0 200 260 5%N (Raises "Connection reset by peer" "Traceback")
              worker_db) as [d' e].
  destruct H as (Hfailed & Hretry & _).
  split; [exact Hfailed|]. apply Hretry; [reflexivity | lia].
Defined.

(** C5, counterexample: the message contains "connection" in lower case
    and the task is not retried: the error is terminal. *)
Lemma lowercase_connection_not_retried :
  str_in "connection" "could not connect: connection refused" = true
  /\ (convert_file 0 200 260 5%N
        (Raises "could not connect: connection refused" "Traceback") worker_db).2
     = Returns (ResFailed "could not connect: connection refused")
  /\ (deliveries
        [(200, 260, Raises "could not connect: connection refused" "Traceback");
         (300, 360, Completes "/tmp/out.geojson" 10 3 90)]
        0 5%N worker_db).2
     = [Returns (ResFailed "could not connect: connection refused")].
Proof. vm_compute. auto. Qed.

Example transient_three_executions :
  (deliveries
     [(200, 260, Raises "Read Timeout" "tb"); (270, 330, Raises "Read Timeout" "tb");
      (340, 400, Raises "Read Timeout" "tb");
      (410, 470, Completes "/tmp/out.geojson" 10 3 90)]
     0 5%N worker_db).2
  = [Retry 10; Retry 10; Reraises "Read Timeout"].
Proof. vm_compute. reflexivity. Qed.

Example str_of_uuid_1 :
  str_of_uuid 1%N = "00000000-0000-0000-0000-000000000001".
Proof. vm_compute. reflexivity. Qed.

Example soft_time_limit_not_retried :
  let '(d', e) := convert_file 0 200 260 5%N SoftTimeLimitExceeded worker_db in
  e = Returns ResTimeout /\ job_status d' 5%N = Some FAILED.
Proof. vm_compute. auto. Qed.

(** ** What an execution leaves in the database *)

Lemma convert_file_completes (request_retries : Z) (started finished : datetime)
    (job_id : UUID) (path : string) (size n q : Z) (d : database) (job : ConversionJob) :
  conversion_jobs d !! job_id = Some job ->
  id job = job_id ->
  convert_file request_retries started finished job_id (Completes path size n q) d
  = ({| conversion_jobs :=
          <[job_id := update_job job SUCCESS (Some started) (Some finished)
                        (Some path) (Some size)
                        (Some ("/api/v1/download/" +:+ str_of_uuid job_id))
                        (Some (finished + 24 * 3600))
                        (error_message job) (error_traceback job)]>
            (conversion_jobs d);
        subscriptions := subscriptions d |},
     Returns (ResSuccess n q)).
Proof.
  intros Hjob Hid. unfold convert_file, store. rewrite Hjob.
  cbn [conversion_jobs subscriptions update_job id]. rewrite Hid.
  now rewrite insert_insert_eq.
Qed.




(** ** The maintenance task *)

Section Cleanup.
(** Whether [storage.delete] raises on a path (a client error of the
    object store, a path without a key). *)
Variable delete_raises : string -> bool.

(** The rows that the query of [cleanup_expired_files] selects. *)
Definition expired (utcnow : datetime) (job : ConversionJob) : bool :=
  match download_expires_at job with
  | Some t => t <? utcnow
  | None => false
  end
  && bool_decide (is_Some (output_storage_path job))
  && bool_decide (status job = SUCCESS).

(** Whether the body of the loop runs to its end on a row. *)
Definition cleaned (utcnow : datetime) (job : ConversionJob) : bool :=
  expired utcnow job && negb (delete_raises (get (output_storage_path job) "")).

(** The body of the loop, on one row. *)
Definition expire (utcnow : datetime) (job : ConversionJob) : ConversionJob :=
  if cleaned utcnow job then
    update_job job EXPIRED (started_at job) (completed_at job) None
      (output_file_size_bytes job) (download_url job) (download_expires_at job)
      (error_message job) (error_traceback job)
  else job.

(** [cleanup_expired_files]: the database after the commit and the count
    that is returned. *)
Definition cleanup_expired_files (utcnow : datetime) (d : database) : database * Z :=
  ({| conversion_jobs := expire utcnow <$> conversion_jobs d;
      subscriptions := subscriptions d |},
   len (List.filter (cleaned utcnow) (map snd (map_to_list (conversion_jobs d))))).

Lemma filter_all_false {A} (p : A -> bool) (l : list A) :
  (forall x, In x l -> p x = false) -> List.filter p l = [].
Proof.
  induction l as [|x l IH]; intros Hall; cbn; [reflexivity|].
  rewrite (Hall x (or_introl eq_refl)). apply IH. intros y Hy. apply Hall. now right.
Qed.

Lemma expire_not_selected (utcnow : datetime) (job : ConversionJob) :
  expired utcnow (expire utcnow job) = true ->
  expired utcnow job = true /\ cleaned utcnow job = false /\ expire utcnow job = job.
Proof.
  unfold expire. destruct (cleaned utcnow job) eqn:Hc.
  - unfold expired, update_job. cbn. rewrite !andb_false_r. discriminate.
  - auto.
Qed.

(** X17: [cleanup_expired_files] adds and removes no row and leaves the
    subscriptions alone. A row is changed only if it was a success with
    an output whose expiry is past and its file was deleted; it then is
    expired and has no output path, and nothing else of it changes (the
    download URL and the expiry stay). The count returned is at most the
    number of rows. When no deletion fails, no row is left to clean, and
    a second run at the same time changes nothing and counts 0. *)
Theorem cleanup_expired_files_rows (utcnow : datetime) (d : database) :
  let d' := (cleanup_expired_files utcnow d).1 in
  subscriptions d' = subscriptions d
  /\ dom (conversion_jobs d') = dom (conversion_jobs d)
  /\ (forall k job', conversion_jobs d' !! k = Some job' ->
        exists job, conversion_jobs d !! k = Some job
          /\ ((job' = job /\ cleaned utcnow job = false)
              \/ (cleaned utcnow job = true
                  /\ status job = SUCCESS
                  /\ (exists t, download_expires_at job = Some t /\ t < utcnow)
                  /\ status job' = EXPIRED /\ output_storage_path job' = None
                  /\ id job' = id job /\ user_id job' = user_id job
                  /\ download_url job' = download_url job
                  /\ download_expires_at job' = download_expires_at job)))
  /\ 0 <= (cleanup_expired_files utcnow d).2 <= Z.of_nat (size (conversion_jobs d))
  /\ ((forall path, delete_raises path = false) ->
        (forall k job', conversion_jobs d' !! k = Some job' ->
           expired utcnow job' = false)
        /\ cleanup_expired_files utcnow d' = (d', 0)).
Proof.
  cbn zeta. unfold cleanup_expired_files. cbn [fst snd conversion_jobs subscriptions].
  split; [reflexivity|]. split; [apply dom_fmap_L|].
  assert (Hrow : forall k job', (expire utcnow <$> conversion_jobs d) !! k = Some job' ->
            exists job, conversion_jobs d !! k = Some job /\ job' = expire utcnow job).
  { intros k job'. rewrite lookup_fmap.
    destruct (conversion_jobs d !! k) as [job|]; cbn; [|discriminate].
    intros [= <-]. eauto. }
  split_and!.
  - intros k job' Hk. apply Hrow in Hk as (job & Hjob & ->).
    exists job. split; [exact Hjob|]. unfold expire.
    destruct (cleaned utcnow job) eqn:Hc; [right | left; auto].
    split; [reflexivity|]. unfold cleaned, expired in Hc.
    apply andb_true_iff in Hc as [Hc _].
    apply andb_true_iff in Hc as [Hc Hst]. apply andb_true_iff in Hc as [Ht _].
    apply bool_decide_eq_true in Hst.
    destruct (download_expires_at job) as [t|] eqn:Hexp; [|discriminate].
    apply Z.ltb_lt in Ht. unfold update_job. cbn.
    split_and!; try reflexivity; eauto.
  - unfold len. lia.
  - unfold len.
    pose proof (List.filter_length_le (cleaned utcnow)
                  (map snd (map_to_list (conversion_jobs d)))) as Hle.
    rewrite length_map, length_map_to_list in Hle. lia.
  - intros Hdel.
    assert (Hnone : forall k job', (expire utcnow <$> conversion_jobs d) !! k = Some job' ->
              expired utcnow job' = false).
    { intros k job' Hk. apply Hrow in Hk as (job & _ & ->).
      destruct (expired utcnow (expire utcnow job)) eqn:He; [|reflexivity].
      apply expire_not_selected in He as (He & Hc & _).
      unfold cleaned in Hc. rewrite He, Hdel in Hc. discriminate. }
    split; [exact Hnone|].
    assert (Hid : expire utcnow <$> (expire utcnow <$> conversion_jobs d)
                  = expire utcnow <$> conversion_jobs d).
    { apply map_eq. intros k. rewrite lookup_fmap.
      destruct ((expire utcnow <$> conversion_jobs d) !! k) as [job'|] eqn:Hk;
        cbn; [|reflexivity].
      f_equal. unfold expire, cleaned. now rewrite (Hnone k job' Hk). }
    rewrite Hid. f_equal.
    assert (Hfilter : List.filter (cleaned utcnow)
                        (map snd (map_to_list (expire utcnow <$> conversion_jobs d))) = []).
    { apply filter_all_false. intros job' Hin.
      apply in_map_iff in Hin as ([k j] & <- & Hin).
      apply list_elem_of_In, elem_of_map_to_list in Hin.
      unfold cleaned. cbn [snd]. now rewrite (Hnone k j Hin). }
    rewrite Hfilter. reflexivity.
Qed.

End Cleanup.

End ConversionTasks.


(* ===================================================================== *)
(** * api/v1/download.py *)
(* ===================================================================== *)

Module Download.
Import Py Models Storage.

Record DownloadUrlResponse := {
  r_job_id : UUID;
  r_download_url : string;
  r_filename : string;
  r_expires_at : datetime;
  r_file_size_bytes : option Z;
}.

Definition ext_map : list (string * string) :=
  [ ("GeoJSON", ".geojson"); ("ESRI Shapefile", ".zip"); ("GPKG", ".gpkg");
    ("KML", ".kml"); ("DXF", ".dxf"); ("CSV", ".csv"); ("FlatGeobuf", ".fgb");
    ("OpenFileGDB", ".zip") ].

Fixpoint dict_get (d : list (string * string)) (k default : string) : string :=
  match d with
  | [] => default
  | (k', v) :: d' => if String.eqb k k' then v else dict_get d' k default
  end.

(** The query of the handler: the row with this id and this owner. *)
Definition select_job (db : database) (job_id user : UUID) : option ConversionJob :=
  match conversion_jobs db !! job_id with
  | Some job => if decide (user_id job = user) then Some job else None
  | None => None
  end.

(** Truth value of an optional string: [None] and the empty string are
    false. *)
Definition str_truthy (o : option string) : bool :=
  match o with
  | Some s => negb (String.eqb s "")
  | None => false
  end.

Definition past_expiry (job : ConversionJob) (utcnow : datetime) : bool :=
  match download_expires_at job with
  | Some t => t <? utcnow
  | None => false
  end.

Section Handler.
Context `{StorageBackend}.
Variable stem : string -> string.

(** [get_download_url] *)
Definition get_download_url (utcnow : datetime) (db : database)
    (job_id : job_id_arg) (current_user : User)
  : response DownloadUrlResponse :=
  match job_id with
  | NotAUUID => ValueError
  | IsUUID uuid =>
      match select_job db uuid (u_id current_user) with
      | None => HTTPException 404 "Job introuvable."
      | Some job =>
          if negb (bool_decide (status job = SUCCESS)) then
            HTTPException 400
              ("Conversion non terminée. Statut actuel : " +:+ status_value (status job))
          else if negb (str_truthy (output_storage_path job)) then
            HTTPException 404 "Fichier de sortie introuvable."
          else if past_expiry job utcnow then
            HTTPException 410 "Le fichier a expiré. Relancez la conversion."
          else
            let expires_in := 3600 in
            let path := get (output_storage_path job) "" in
            let ext := dict_get ext_map (output_format job) ".bin" in
            Ok {| r_job_id := id job;
                  r_download_url := get_url path expires_in;
                  r_filename := stem (original_filename job) +:+ "_converted" +:+ ext;
                  r_expires_at := get (download_expires_at job) (utcnow + 3600);
                  r_file_size_bytes := output_file_size_bytes job |}
      end
  end.

(** ** What the handler answers *)

Lemma select_job_Some db uuid user job :
  select_job db uuid user = Some job <->
  conversion_jobs db !! uuid = Some job /\ user_id job = user.
Proof.
  unfold select_job. destruct (conversion_jobs db !! uuid) as [j|].
  - destruct (decide (user_id j = user)); split.
    + intros [= ->]. auto.
    + intros [[= ->] _]. reflexivity.
    + discriminate.
    + intros [[= ->] Hu]. contradiction.
  - split; [discriminate | intros [[=] _]].
Qed.




End Handler.

(** ** A job of somebody else *)

Definition alice : User := {| u_id := 7%N; email := "alice@example.org" |}.
Definition bob : User := {| u_id := 8%N; email := "bob@example.org" |}.

Definition alice_job : ConversionJob :=
  {| id := 1%N; user_id := 7%N; celery_task_id := Some 1%N;
     original_filename := "communes.geojson";
     input_storage_path := "/tmp/geoconvert/uploads/communes.geojson";
     output_format := "GPKG"; target_epsg := Some 2154;
     fix_geometries := "true"; normalize_attributes := "true";
     encoding := "UTF-8"; status := SUCCESS;
     output_storage_path := Some "/tmp/geoconvert/outputs/communes.gpkg";
     output_file_size_bytes := Some 4096;
     download_url := Some "/api/v1/download/00000000-0000-0000-0000-000000000001";
     download_expires_at := Some 90000;
     error_message := None; error_traceback := None;
     created_at := 0; started_at := Some 1; completed_at := Some 3600 |}.

Definition one_job_db : database :=
  {| conversion_jobs := {[ 1%N := alice_job ]}; subscriptions := ∅ |}.

Definition file_stem (name : string) : string :=
  match String.index 0 "." name with
  | Some n => String.substring 0 n name
  | None => name
  end.


Example get_download_url_owner :
  get_download_url (H := LocalStorage) file_stem 4000 one_job_db (IsUUID 1%N) alice
  = Ok {| r_job_id := 1%N;
          r_download_url := "/api/v1/download/file?path=/tmp/geoconvert/outputs/communes.gpkg";
          r_filename := "communes_converted.gpkg";
          r_expires_at := 90000;
          r_file_size_bytes := Some 4096 |}.
Proof. vm_compute. reflexivity. Qed.

Example get_download_url_expired :
  status_code_of
    (get_download_url (H := LocalStorage) file_stem 90001 one_job_db (IsUUID 1%N) alice)
  = Some 410.
Proof. vm_compute. reflexivity. Qed.

(** ** Formats, from the request to the download *)

(** X18: the formats that the request validator accepts are the keys of
    [FORMAT_CONFIG], so a validated request never meets the unsupported
    format error of the write stage; and for each of them the extension
    of the download name is the extension of the file that the processor
    hands over: the one of the format, or [.zip] when the output is
    packaged. *)
Theorem formats_agree (fmt : string) :
  match GDALProcessor.config_get GDALProcessor.FORMAT_CONFIG fmt with
  | Some config =>
      Convert.validate_format fmt = Some fmt
      /\ dict_get ext_map fmt ".bin"
         = (if GDALProcessor.single_file config then GDALProcessor.ext config else ".zip")
  | None =>
      Convert.validate_format fmt = None
      /\ dict_get ext_map fmt ".bin" = ".bin"
  end.
Proof.
  unfold Convert.validate_format, Convert.valid_formats, GDALProcessor.FORMAT_CONFIG, ext_map.
  cbn [GDALProcessor.config_get dict_get].
  repeat match goal with
         | |- context [String.eqb fmt ?s] =>
             destruct (String.eqb_spec fmt s) as [->|?];
             [vm_compute; split; reflexivity|]
         end.
  split; [|reflexivity].
  rewrite bool_decide_eq_false_2; [reflexivity|].
  rewrite !elem_of_cons, elem_of_nil. intuition congruence.
Qed.

(** ** Serving a local file *)

Inductive file_response :=
  | FileResponse (path filename : string)
  | Refused (status_code : Z) (detail : string)
  | MultipleResultsFound.

Section LocalFile.
(** [Path(path).exists()] and [Path(path).name]. *)
Variable path_exists : string -> bool.
Variable path_name : string -> string.

(** The rows that the query of [serve_local_file] selects. *)
Definition owned_outputs (db : database) (path : string) (user : UUID)
  : list ConversionJob :=
  List.filter
    (fun job => bool_decide (output_storage_path job = Some path)
                && bool_decide (user_id job = user))
    (map snd (map_to_list (conversion_jobs db))).

(** [serve_local_file]; [scalar_one_or_none] raises when the query gives
    more than one row. *)
Definition serve_local_file (path : string) (current_user : User) (db : database)
  : file_response :=
  match owned_outputs db path (u_id current_user) with
  | [] => Refused 403 "Accès refusé."
  | [_] =>
      if negb (path_exists path) then Refused 404 "Fichier introuvable."
      else FileResponse path (path_name path)
  | _ :: _ :: _ => MultipleResultsFound
  end.

Lemma owned_outputs_In (db : database) (path : string) (user : UUID)
    (job : ConversionJob) :
  In job (owned_outputs db path user) <->
  (exists k, conversion_jobs db !! k = Some job)
  /\ output_storage_path job = Some path /\ user_id job = user.
Proof.
  unfold owned_outputs. rewrite List.filter_In, in_map_iff, andb_true_iff,
    !bool_decide_eq_true.
  split.
  - intros [([k j] & <- & Hin) [Hp Hu]].
    apply list_elem_of_In, elem_of_map_to_list in Hin. eauto.
  - intros [[k Hk] [Hp Hu]]. split; [|auto].
    exists (k, job). split; [reflexivity|].
    now apply list_elem_of_In, elem_of_map_to_list.
Qed.

(** X19: [serve_local_file] sends a file only if it is there and is the
    output of a job of the user who asks; it answers 403 exactly when the
    user has no job with this output path, whoever else has one. A path
    that [get_download_url] hands out for the local backend is the output
    path of the job, so the same user is not refused with it. *)
Theorem serve_local_file_owner (stem : string -> string) (utcnow : datetime)
    (path : string) (current_user : User) (db : database) :
  let r := serve_local_file path current_user db in
  (forall p name, r = FileResponse p name ->
     p = path /\ path_exists path = true
     /\ exists k job, conversion_jobs db !! k = Some job
          /\ user_id job = u_id current_user
          /\ output_storage_path job = Some path)
  /\ (r = Refused 403 "Accès refusé." <->
      forall k job, conversion_jobs db !! k = Some job ->
        output_storage_path job = Some path -> user_id job <> u_id current_user)
  /\ (forall uuid body,
        get_download_url (H := LocalStorage) stem utcnow db (IsUUID uuid) current_user
        = Ok body ->
        r_download_url body = "/api/v1/download/file?path=" +:+ path ->
        r <> Refused 403 "Accès refusé.").
Proof.
  cbn zeta.
  assert (Hnone : owned_outputs db path (u_id current_user) = [] <->
            forall k job, conversion_jobs db !! k = Some job ->
              output_storage_path job = Some path -> user_id job <> u_id current_user).
  { split.
    - intros Hnil k job Hk Hp Hu.
      assert (Hin : In job (owned_outputs db path (u_id current_user)))
        by (apply owned_outputs_In; eauto).
      rewrite Hnil in Hin. destruct Hin.
    - intros Hall. destruct (owned_outputs db path (u_id current_user)) as [|job l] eqn:Ho;
        [reflexivity|].
      assert (Hin : In job (owned_outputs db path (u_id current_user)))
        by (rewrite Ho; now left).
      apply owned_outputs_In in Hin as ([k Hk] & Hp & Hu).
      now contradiction (Hall k job Hk Hp). }
  assert (Hrefused : serve_local_file path current_user db = Refused 403 "Accès refusé." <->
            owned_outputs db path (u_id current_user) = []).
  { unfold serve_local_file.
    destruct (owned_outputs db path (u_id current_user)) as [|job [|job2 l]].
    - tauto.
    - destruct (path_exists path); cbn; split; discriminate.
    - split; discriminate. }
  split_and!.
  - intros p name. unfold serve_local_file.
    destruct (owned_outputs db path (u_id current_user)) as [|job [|job2 l]] eqn:Ho;
      try discriminate.
    destruct (path_exists path) eqn:He; cbn [negb]; [|discriminate].
    intros [= <- _]. split; [reflexivity|]. split; [reflexivity|].
    assert (Hin : In job (owned_outputs db path (u_id current_user)))
      by (rewrite Ho; now left).
    apply owned_outputs_In in Hin as ([k Hk] & Hp & Hu). eauto.
  - rewrite Hrefused. exact Hnone.
  - intros uuid body Hok Hurl. rewrite Hrefused, Hnone. intros Hall.
    unfold get_download_url in Hok.
    destruct (select_job db uuid (u_id current_user)) as [job|] eqn:Hsel; [|discriminate].
    apply (select_job_Some db uuid (u_id current_user) job) in Hsel as [Hjob Hown].
    destruct (negb (bool_decide (status job = SUCCESS))); [discriminate|].
    destruct (str_truthy (output_storage_path job)) eqn:Hpath; cbn [negb] in Hok;
      [|discriminate].
    destruct (past_expiry job utcnow); [discriminate|].
    injection Hok as <-. cbn [r_download_url get_url LocalStorage] in Hurl.
    apply String.app_inj in Hurl.
    destruct (output_storage_path job) as [p|] eqn:Hp; [|discriminate].
    cbn [get] in Hurl. subst p.
    exact (Hall uuid job Hjob Hp Hown).
Qed.

End LocalFile.

End Download.


(* ===================================================================== *)
(** * api/v1/convert.py: status and listing *)
(* ===================================================================== *)

Module JobRoutes.
Import Py Models.

(** [ConversionStatusResponse], for the columns that the row has here. *)
Record ConversionStatusResponse := {
  t_job_id : UUID;
  t_status : string;
  t_original_filename : string;
  t_output_format : string;
  t_target_epsg : option Z;
  t_download_url : option string;
  t_download_expires_at : option datetime;
  t_error_message : option string;
  t_created_at : datetime;
  t_completed_at : option datetime;
}.

Record JobListResponse := {
  total : Z;
  jobs : list ConversionStatusResponse;
}.

Definition status_response (job : ConversionJob) : ConversionStatusResponse :=
  {| t_job_id := id job;
     t_status := status_value (status job);
     t_original_filename := original_filename job;
     t_output_format := output_format job;
     t_target_epsg := target_epsg job;
     t_download_url := download_url job;
     t_download_expires_at := download_expires_at job;
     t_error_message := error_message job;
     t_created_at := created_at job;
     t_completed_at := completed_at job |}.

(** [get_job_status] *)
Definition get_job_status (db : database) (job_id : job_id_arg) (current_user : User)
  : response ConversionStatusResponse :=
  match job_id with
  | NotAUUID => ValueError
  | IsUUID uuid =>
      match Download.select_job db uuid (u_id current_user) with
      | None => HTTPException 404 "Job introuvable."
      | Some job => Ok (status_response job)
      end
  end.

(** [JobStatus(value)]; [None] is the [ValueError]. *)
Definition JobStatus_of_value (v : string) : option JobStatus :=
  if String.eqb v "pending" then Some PENDING
  else if String.eqb v "processing" then Some PROCESSING
  else if String.eqb v "success" then Some SUCCESS
  else if String.eqb v "failed" then Some FAILED
  else if String.eqb v "expired" then Some EXPIRED
  else None.

(** The status that the two queries of [list_jobs] are narrowed to. *)
Definition status_filter_of (status_filter : option string) : option JobStatus :=
  match status_filter with
  | Some v => if negb (String.eqb v "") then JobStatus_of_value v else None
  | None => None
  end.

(** The rows both queries select, before the ordering and the paging. *)
Definition matching (db : database) (user : UUID) (status_filter : option string)
  : list ConversionJob :=
  let mine :=
    List.filter (fun job => bool_decide (user_id job = user))
      (map snd (map_to_list (conversion_jobs db))) in
  match status_filter_of status_filter with
  | Some s => List.filter (fun job => bool_decide (status job = s)) mine
  | None => mine
  end.

Section Listing.
(** [ORDER BY created_at DESC] leaves the order of rows with the same
    timestamp to the database: it is some arrangement of the rows. *)
Variable order_by_created_at_desc : list ConversionJob -> list ConversionJob.
Hypothesis order_by_permutation : forall l, order_by_created_at_desc l ≡ₚ l.

(** [list_jobs] *)
Definition list_jobs (db : database) (current_user : User) (limit offset : Z)
    (status_filter : option string) : JobListResponse :=
  let rows := matching db (u_id current_user) status_filter in
  {| total := len rows;
     jobs := map status_response
               (take (Z.to_nat limit)
                  (drop (Z.to_nat offset) (order_by_created_at_desc rows))) |}.

Lemma In_take_drop {A} (n m : nat) (l : list A) (x : A) :
  In x (take n (drop m l)) -> In x l.
Proof.
  intros Hin.
  rewrite <- (take_drop m l). apply in_or_app. right.
  rewrite <- (take_drop n (drop m l)). apply in_or_app. now left.
Qed.

Lemma matching_In (db : database) (user : UUID) (status_filter : option string)
    (job : ConversionJob) :
  In job (matching db user status_filter) <->
  (exists k, conversion_jobs db !! k = Some job)
  /\ user_id job = user
  /\ (forall s, status_filter_of status_filter = Some s -> status job = s).
Proof.
  assert (Hmine : In job (List.filter (fun job => bool_decide (user_id job = user))
                            (map snd (map_to_list (conversion_jobs db))))
                  <-> (exists k, conversion_jobs db !! k = Some job) /\ user_id job = user).
  { rewrite List.filter_In, in_map_iff, bool_decide_eq_true. split.
    - intros [([k j] & <- & Hin) Hu].
      apply list_elem_of_In, elem_of_map_to_list in Hin. eauto.
    - intros [[k Hk] Hu]. split; [|exact Hu].
      exists (k, job). split; [reflexivity|].
      now apply list_elem_of_In, elem_of_map_to_list. }
  unfold matching. destruct (status_filter_of status_filter) as [s|].
  - rewrite List.filter_In, Hmine, bool_decide_eq_true. split.
    + intros [[Hk Hu] Hs]. split_and!; [exact Hk | exact Hu |]. now intros ? [= <-].
    + intros (Hk & Hu & Hs). auto.
  - rewrite Hmine. split; [intros [Hk Hu] | intros (Hk & Hu & _); auto].
    split_and!; [exact Hk | exact Hu | discriminate].
Qed.

(** X20: for a limit and an offset that passed the validation of the
    query, [list_jobs] gives the page that is left of the matching rows
    after the offset, at most [limit] and so at most 100 of them; each is a
    job of the user who asks, with the status asked for when the filter
    names one; [total] counts all matching rows whatever the page; and a
    filter that names no status is ignored, it is no error. *)
Theorem list_jobs_page (db : database) (current_user : User) (limit offset : Z)
    (status_filter : option string) :
  1 <= limit <= 100 ->
  0 <= offset ->
  let r := list_jobs db current_user limit offset status_filter in
  len (jobs r) = Z.min limit (Z.max 0 (total r - offset))
  /\ len (jobs r) <= 100
  /\ (forall body, In body (jobs r) ->
        exists k job,
          conversion_jobs db !! k = Some job /\ body = status_response job
          /\ user_id job = u_id current_user
          /\ (forall s, status_filter_of status_filter = Some s -> status job = s))
  /\ (forall limit' offset',
        total (list_jobs db current_user limit' offset' status_filter) = total r)
  /\ (forall v, JobStatus_of_value v = None ->
        list_jobs db current_user limit offset (Some v)
        = list_jobs db current_user limit offset None).
Proof.
  intros Hlimit Hoffset. cbn zeta. unfold list_jobs. cbn [jobs total].
  set (rows := matching db (u_id current_user) status_filter).
  assert (Hlen : len (map status_response
                        (take (Z.to_nat limit)
                           (drop (Z.to_nat offset) (order_by_created_at_desc rows))))
                 = Z.min limit (Z.max 0 (len rows - offset))).
  { unfold len. rewrite length_map, length_take, length_drop.
    rewrite (Permutation_length (order_by_permutation rows)). lia. }
  split_and!.
  - exact Hlen.
  - rewrite Hlen. lia.
  - intros body Hin. apply in_map_iff in Hin as (job & <- & Hin).
    apply In_take_drop in Hin.
    apply (Permutation_in _ (order_by_permutation rows)) in Hin.
    apply matching_In in Hin as ([k Hk] & Hu & Hs).
    exists k, job. split_and!; [exact Hk | reflexivity | exact Hu | exact Hs].
  - reflexivity.
  - intros v Hv. unfold matching, status_filter_of. rewrite Hv.
    now destruct (negb (String.eqb v "")).
Qed.

End Listing.

(** An ordering to run the listing with: insertion by [created_at],
    newest first. *)
Fixpoint insert_newest (job : ConversionJob) (l : list ConversionJob)
  : list ConversionJob :=
  match l with
  | [] => [job]
  | x :: rest =>
      if created_at x <? created_at job then job :: x :: rest
      else x :: insert_newest job rest
  end.

Definition newest_first (l : list ConversionJob) : list ConversionJob :=
  foldr insert_newest [] l.

Lemma insert_newest_permutation job l : insert_newest job l ≡ₚ job :: l.
Proof.
  induction l as [|x rest IH]; cbn; [reflexivity|].
  destruct (created_at x <? created_at job); [reflexivity|].
  rewrite IH. apply Permutation_swap.
Qed.

Lemma newest_first_permutation l : newest_first l ≡ₚ l.
Proof.
  induction l as [|x rest IH]; cbn; [reflexivity|].
  rewrite insert_newest_permutation. now rewrite IH.
Qed.

Lemma list_jobs_page_witness :
  len (jobs (list_jobs newest_first Download.one_job_db Download.alice 20 0 (Some "done")))
  = Z.min 20
      (Z.max 0
         (total (list_jobs newest_first Download.one_job_db Download.alice 20 0
                   (Some "done")) - 0)).
Proof.
  apply (list_jobs_page newest_first newest_first_permutation Download.one_job_db
           Download.alice 20 0 (Some "done")); lia.
Defined.

Example list_jobs_unknown_status :
  list_jobs newest_first Download.one_job_db Download.alice 20 0 (Some "done")
  = {| total := 1; jobs := [status_response Download.alice_job] |}.
Proof. vm_compute. reflexivity. Qed.

Example list_jobs_other_user :
  list_jobs newest_first Download.one_job_db Download.bob 20 0 None
  = {| total := 0; jobs := [] |}.
Proof. vm_compute. reflexivity. Qed.

End JobRoutes.


(* ===================================================================== *)
(** * A job from the submission to the download *)
(* ===================================================================== *)

Module Lifecycle.
Import Py Models Storage Convert ConversionTasks Download JobRoutes.

Lemma str_lower_bool_true (b : bool) : String.eqb (str_lower_bool b) "true" = b.
Proof. now destruct b. Qed.

Lemma select_job_owner (d : database) (uuid : UUID) (job : ConversionJob) (user : UUID) :
  conversion_jobs d !! uuid = Some job ->
  select_job d uuid user = if decide (user_id job = user) then Some job else None.
Proof. intros Hjob. unfold select_job. now rewrite Hjob. Qed.

Section Life.
Context `{StorageBackend}.
Variable stem : string -> string.

(** X21: a submission that passes the quota check, followed by an
    execution of the worker that completes. Before the execution the
    status route says pending and the download route answers 400. After
    it the status route says success with an expiry 24 hours after the
    end; the download route gives the owner the URL of the stored output
    under the name of the original file with the extension of the format,
    until the expiry, and 410 after it; any other user gets 404 from both
    routes. The worker reads back the two flags that the handler stored
    as text. The counter of the subscription is one more, and the worker
    does not touch it. *)
Theorem accepted_job_download (payload : ConversionRequest) (current_user : User)
    (new_id : UUID) (created : datetime) (w : world) (sub : Subscription)
    (request_retries : Z) (started finished : datetime)
    (path : string) (size n q : Z) (utcnow : datetime) :
  check_quota current_user (db w) = Ok sub ->
  path <> "" ->
  let d1 := db (create_conversion_job payload current_user new_id created w).1 in
  let d2 := (convert_file request_retries started finished new_id
               (Completes path size n q) d1).1 in
  (exists job, conversion_jobs d1 !! new_id = Some job
     /\ String.eqb (fix_geometries job) "true" = q_fix_geometries payload
     /\ String.eqb (normalize_attributes job) "true" = q_normalize_attributes payload)
  /\ (exists s, get_job_status d1 (IsUUID new_id) current_user = Ok s
        /\ t_status s = "pending" /\ t_download_url s = None)
  /\ status_code_of (get_download_url stem utcnow d1 (IsUUID new_id) current_user)
     = Some 400
  /\ (exists s, get_job_status d2 (IsUUID new_id) current_user = Ok s
        /\ t_status s = "success"
        /\ t_download_url s = Some ("/api/v1/download/" +:+ str_of_uuid new_id)
        /\ t_download_expires_at s = Some (finished + 86400))
  /\ (utcnow <= finished + 86400 ->
        get_download_url stem utcnow d2 (IsUUID new_id) current_user
        = Ok {| r_job_id := new_id;
                r_download_url := get_url path 3600;
                r_filename := stem (q_original_filename payload) +:+ "_converted"
                              +:+ dict_get ext_map (q_output_format payload) ".bin";
                r_expires_at := finished + 86400;
                r_file_size_bytes := Some size |})
  /\ (finished + 86400 < utcnow ->
        status_code_of (get_download_url stem utcnow d2 (IsUUID new_id) current_user)
        = Some 410)
  /\ (forall other, u_id other <> u_id current_user ->
        status_code_of (get_download_url stem utcnow d2 (IsUUID new_id) other) = Some 404
        /\ status_code_of (get_job_status d2 (IsUUID new_id) other) = Some 404)
  /\ used d1 (u_id current_user) = Some (conversions_used_this_month sub + 1)
  /\ used d2 (u_id current_user) = used d1 (u_id current_user).
Proof.
  intros Hquota Hpath. cbn zeta.
  destruct (create_conversion_job_accepted payload current_user new_id created w sub Hquota)
    as (job & body & -> & Hid & Huser & Hstatus & Hname & Hfmt & Hfix & Hnorm
        & Hout & Hurl & Hexp & _).
  cbn [fst db].
  set (d1 := {| conversion_jobs := <[new_id := job]> (conversion_jobs (db w));
                subscriptions := _ |}).
  assert (Hjob1 : conversion_jobs d1 !! new_id = Some job) by apply lookup_insert_eq.
  rewrite (convert_file_completes request_retries started finished new_id path size n q
             d1 job Hjob1 Hid).
  cbn [fst].
  set (job2 := update_job job SUCCESS _ _ _ _ _ _ _ _).
  set (d2 := {| conversion_jobs := <[new_id := job2]> (conversion_jobs d1);
                subscriptions := subscriptions d1 |}).
  assert (Hjob2 : conversion_jobs d2 !! new_id = Some job2) by apply lookup_insert_eq.
  assert (Hsel1 : select_job d1 new_id (u_id current_user) = Some job).
  { rewrite (select_job_owner d1 new_id job _ Hjob1). now rewrite decide_True. }
  assert (Hsel2 : select_job d2 new_id (u_id current_user) = Some job2).
  { rewrite (select_job_owner d2 new_id job2 _ Hjob2).
    rewrite decide_True; [reflexivity | exact Huser]. }
  assert (Hpath' : String.eqb path "" = false) by now apply String.eqb_neq.
  split_and!.
  - exists job. rewrite Hfix, Hnorm, !str_lower_bool_true. auto.
  - unfold get_job_status. rewrite Hsel1. eexists. split; [reflexivity|].
    cbn. now rewrite Hstatus, Hurl.
  - unfold get_download_url. rewrite Hsel1, Hstatus. reflexivity.
  - unfold get_job_status. rewrite Hsel2. eexists. split; [reflexivity|].
    cbn. split_and!; reflexivity.
  - intros Hnow. unfold get_download_url. rewrite Hsel2.
    cbn [job2 update_job status output_storage_path download_expires_at
         output_file_size_bytes original_filename output_format id
         bool_decide decide_rel negb str_truthy past_expiry get].
    rewrite bool_decide_eq_true_2 by reflexivity. cbn [negb]. rewrite Hpath'. cbn [negb].
    replace (finished + 24 * 3600 <? utcnow) with false by (symmetry; apply Z.ltb_ge; lia).
    rewrite Hid, Hname, Hfmt. reflexivity.
  - intros Hnow. unfold get_download_url. rewrite Hsel2.
    cbn [job2 update_job status output_storage_path download_expires_at
         negb str_truthy past_expiry].
    rewrite bool_decide_eq_true_2 by reflexivity. cbn [negb]. rewrite Hpath'. cbn [negb].
    replace (finished + 24 * 3600 <? utcnow) with true by (symmetry; apply Z.ltb_lt; lia).
    reflexivity.
  - intros other Hother.
    assert (Hsel : select_job d2 new_id (u_id other) = None).
    { rewrite (select_job_owner d2 new_id job2 _ Hjob2).
      rewrite decide_False; [reflexivity|]. cbn. congruence. }
    unfold get_download_url, get_job_status. rewrite Hsel. auto.
  - unfold used, d1. cbn [subscriptions]. now rewrite lookup_insert_eq.
  - reflexivity.
Qed.

(** X22: a job that succeeded, once its expiry is past. The download
    route answers 410 as long as the row is a success. When the
    maintenance task has run after the expiry and deleted the file, the
    row is expired and the same request gets 400 with the status in the
    message; the status route then says expired and still shows the
    download URL and the expiry. When the task runs before the expiry, or
    the deletion fails, the row is as it was and so are the answers. *)
Theorem expired_job_download (delete_raises : string -> bool)
    (d : database) (uuid : UUID) (job : ConversionJob) (current_user : User)
    (path : string) (expiry ran utcnow : datetime) :
  conversion_jobs d !! uuid = Some job ->
  user_id job = u_id current_user ->
  status job = SUCCESS ->
  output_storage_path job = Some path ->
  path <> "" ->
  download_expires_at job = Some expiry ->
  let d' := (cleanup_expired_files delete_raises ran d).1 in
  (expiry < utcnow ->
     status_code_of (get_download_url stem utcnow d (IsUUID uuid) current_user)
     = Some 410)
  /\ (expiry < ran -> delete_raises path = false ->
        get_download_url stem utcnow d' (IsUUID uuid) current_user
        = HTTPException 400 "Conversion non terminée. Statut actuel : expired"
        /\ exists s,
             get_job_status d' (IsUUID uuid) current_user = Ok s
             /\ t_status s = "expired"
             /\ t_download_url s = download_url job
             /\ t_download_expires_at s = Some expiry)
  /\ (ran <= expiry \/ delete_raises path = true ->
        conversion_jobs d' !! uuid = Some job
        /\ get_download_url stem utcnow d' (IsUUID uuid) current_user
           = get_download_url stem utcnow d (IsUUID uuid) current_user).
Proof.
  intros Hjob Huser Hstatus Hout Hpath Hexp. cbn zeta.
  unfold cleanup_expired_files. cbn [fst].
  set (d' := {| conversion_jobs := expire delete_raises ran <$> conversion_jobs d;
                subscriptions := subscriptions d |}).
  assert (Hjob' : conversion_jobs d' !! uuid = Some (expire delete_raises ran job)).
  { unfold d'. cbn [conversion_jobs]. now rewrite lookup_fmap, Hjob. }
  assert (Hcleaned : cleaned delete_raises ran job
                     = (expiry <? ran) && negb (delete_raises path)).
  { unfold cleaned, expired. rewrite Hexp, Hout, Hstatus. cbn [get].
    rewrite !bool_decide_eq_true_2 by eauto. now rewrite !andb_true_r. }
  assert (Hpath' : String.eqb path "" = false) by now apply String.eqb_neq.
  assert (Hsel : select_job d uuid (u_id current_user) = Some job).
  { rewrite (select_job_owner d uuid job _ Hjob). now rewrite decide_True. }
  split_and!.
  - intros Hnow. unfold get_download_url. rewrite Hsel, Hstatus.
    rewrite bool_decide_eq_true_2 by reflexivity. cbn [negb].
    unfold str_truthy, past_expiry. rewrite Hout, Hexp, Hpath'. cbn [negb].
    replace (expiry <? utcnow) with true by (symmetry; now apply Z.ltb_lt).
    reflexivity.
  - intros Hran Hdel.
    assert (Hrow : expire delete_raises ran job
                   = update_job job EXPIRED (started_at job) (completed_at job) None
                       (output_file_size_bytes job) (download_url job)
                       (download_expires_at job) (error_message job)
                       (error_traceback job)).
    { unfold expire. rewrite Hcleaned, Hdel.
      replace (expiry <? ran) with true by (symmetry; now apply Z.ltb_lt).
      reflexivity. }
    rewrite Hrow in Hjob'.
    assert (Hsel' : select_job d' uuid (u_id current_user)
                    = Some (update_job job EXPIRED (started_at job) (completed_at job) None
                              (output_file_size_bytes job) (download_url job)
                              (download_expires_at job) (error_message job)
                              (error_traceback job))).
    { rewrite (select_job_owner d' uuid _ _ Hjob'). now rewrite decide_True. }
    unfold get_download_url, get_job_status. rewrite Hsel'. split; [reflexivity|].
    eexists. split; [reflexivity|]. cbn. now rewrite Hexp.
  - intros Hsame.
    assert (Hrow : expire delete_raises ran job = job).
    { unfold expire. rewrite Hcleaned.
      destruct Hsame as [Hran | ->]; [|now rewrite andb_false_r].
      replace (expiry <? ran) with false by (symmetry; now apply Z.ltb_ge).
      reflexivity. }
    rewrite Hrow in Hjob'. split; [exact Hjob'|].
    unfold get_download_url. rewrite Hsel.
    rewrite (select_job_owner d' uuid job _ Hjob'). now rewrite decide_True.
Qed.

End Life.

Lemma accepted_job_download_witness :
  status_code_of
    (get_download_url (H := LocalStorage) file_stem 500
       (db (create_conversion_job sample_request carol 99%N 100 (carol_world 0)).1)
       (IsUUID 99%N) carol)
  = Some 400.
Proof.
  apply (accepted_job_download (H := LocalStorage) file_stem sample_request carol 99%N 100
           (carol_world 0) (carol_sub 0) 0 200 260 "/tmp/geoconvert_out_ab12.gpkg"
           2048 3 90 500).
  - reflexivity.
  - discriminate.
Defined.

Lemma expired_job_download_witness :
  get_download_url (H := LocalStorage) file_stem 100001
    (cleanup_expired_files (fun _ => false) 100000 one_job_db).1 (IsUUID 1%N) alice
  = HTTPException 400 "Conversion non terminée. Statut actuel : expired".
Proof.
  apply (expired_job_download (H := LocalStorage) file_stem (fun _ => false) one_job_db
           1%N alice_job alice "/tmp/geoconvert/outputs/communes.gpkg" 90000 100000
           100001); try reflexivity; try discriminate; lia.
Defined.

Example job_from_submission_to_download :
  let w1 := (create_conversion_job sample_request carol 99%N 100 (carol_world 0)).1 in
  let d2 := (convert_file 0 200 260 99%N
               (Completes "/tmp/geoconvert_out_ab12.gpkg" 2048 3 90) (db w1)).1 in
  get_download_url (H := LocalStorage) file_stem 500 d2 (IsUUID 99%N) carol
  = Ok {| r_job_id := 99%N;
          r_download_url := "/api/v1/download/file?path=/tmp/geoconvert_out_ab12.gpkg";
          r_filename := "a_converted.gpkg";
          r_expires_at := 86660;
          r_file_size_bytes := Some 2048 |}.
Proof. vm_compute. reflexivity. Qed.

End Lifecycle.


(* ===================================================================== *)
(** * core/security.py, api/v1/upload.py, config.py *)
(* ===================================================================== *)

Module Upload.
Import Py Models.

(** Bytes are the characters of a string. *)
Definition bytes := string.

Definition byte (n : nat) : string := String (ascii_of_nat n) EmptyString.

(** [MAGIC_BYTES]; the entry of dxf is [None]. *)
Definition MAGIC_BYTES : list (string * option bytes) :=
  [ ("zip", Some ("PK" +:+ byte 3 +:+ byte 4));
    ("gpkg", Some "SQLite format 3");
    ("geojson", Some "{");
    ("kml", Some "<?xml");
    ("dxf", None) ].

Fixpoint magic_get (d : list (string * option bytes)) (k : string) : option bytes :=
  match d with
  | [] => None
  | (k', v) :: d' => if String.eqb k k' then v else magic_get d' k
  end.

(** [s.lstrip(".")] *)
Fixpoint lstrip_dots (s : string) : string :=
  match s with
  | String "." s' => lstrip_dots s'
  | _ => s
  end.

(** [validate_file_magic], for an extension written in ASCII. *)
Definition validate_file_magic (content : bytes) (extension : string) : bool :=
  let ext := lstrip_dots (str_lower extension) in
  match magic_get MAGIC_BYTES ext with
  | None => true
  | Some magic => String.prefix magic content
  end.

(** The settings the upload reads. *)
Definition MAX_UPLOAD_SIZE_MB : Z := 100.
Definition MAX_UPLOAD_SIZE_PRO_MB : Z := 2000.
Definition MAX_UPLOAD_SIZE_ENTERPRISE_MB : Z := 20000.

Definition ALLOWED_EXTENSIONS : list string :=
  [ "shp"; "dbf"; "shx"; "prj"; "cpg"; "geojson"; "json"; "kml"; "kmz"; "gpkg";
    "gdb"; "dxf"; "csv"; "xlsx"; "zip" ].

(** [_get_upload_limit] *)
Definition _get_upload_limit (plan : PlanType) : Z :=
  match plan with
  | FREE => MAX_UPLOAD_SIZE_MB
  | STARTER => MAX_UPLOAD_SIZE_MB
  | PRO => MAX_UPLOAD_SIZE_PRO_MB
  | ENTERPRISE => MAX_UPLOAD_SIZE_ENTERPRISE_MB
  end * 1024 * 1024.

Definition format_mapping : list (string * string) :=
  [ ("shp", "ESRI Shapefile"); ("geojson", "GeoJSON"); ("json", "GeoJSON");
    ("gpkg", "GPKG"); ("kml", "KML"); ("kmz", "KML"); ("dxf", "DXF"); ("csv", "CSV");
    ("xlsx", "CSV"); ("gdb", "OpenFileGDB"); ("zip", "ZIP"); ("fgb", "FlatGeobuf") ].

Fixpoint mapping_get (d : list (string * string)) (k : string) : option string :=
  match d with
  | [] => None
  | (k', v) :: d' => if String.eqb k k' then Some v else mapping_get d' k
  end.

Record UploadResponse := {
  upload_id : string;
  filename : option string;
  size_bytes : Z;
  storage_path : string;
  sha256 : string;
  detected_format : option string;
}.

(** How [upload_file] ends: with the response, with an [HTTPException]
    (its status code), or with the [TypeError] of [Path(None)]. *)
Inductive upload_result :=
  | Uploaded (body : UploadResponse)
  | Rejected (status_code : Z)
  | TypeError.

Section Handler.
(** [Path(name).suffix.lower().lstrip(".")] and [Path(name).name], from
    the standard library; the digest; [storage.save], which gives the
    path it stored the content under. *)
Variable extension_of : string -> string.
Variable path_name : string -> string.
Variable sha256_hexdigest : bytes -> string.
Variable save : bytes -> string -> string -> string.

(** [_detect_format_from_extension] *)
Definition _detect_format_from_extension (name : string) : option string :=
  mapping_get format_mapping (extension_of name).

(** [_validate_extension]; [inl] is the status code of the exception. *)
Definition _validate_extension (name : string) : Z + string :=
  let ext := extension_of name in
  if negb (bool_decide (ext ∈ ALLOWED_EXTENSIONS)) then inl 415 else inr ext.

(** [x or default] on an optional string. *)
Definition or_else (x : option string) (default : string) : string :=
  match x with
  | Some s => if String.eqb s "" then default else s
  | None => default
  end.

(** [upload_file]; [new_id] is [uuid.uuid4().hex]. *)
Definition upload_file (file_filename : option string) (content : bytes)
    (current_user : User) (db : database) (new_id : string) : upload_result :=
  let plan :=
    match subscriptions db !! u_id current_user with
    | Some sub => plan sub
    | None => FREE
    end in
  let max_size := _get_upload_limit plan in
  match _validate_extension (or_else file_filename "unknown.bin") with
  | inl code => Rejected code
  | inr ext =>
      if max_size <? Z.of_nat (String.length content) then Rejected 413
      else if Z.of_nat (String.length content) =? 0 then Rejected 400
      else if negb (validate_file_magic content ext) then Rejected 400
      else
        let digest := sha256_hexdigest content in
        match file_filename with
        | None => TypeError
        | Some name =>
            let safe_filename := new_id +:+ "_" +:+ path_name name in
            let stored := save content safe_filename "uploads" in
            Uploaded {| upload_id := new_id;
                        filename := file_filename;
                        size_bytes := Z.of_nat (String.length content);
                        storage_path := stored;
                        sha256 := digest;
                        detected_format :=
                          _detect_format_from_extension (or_else file_filename "") |}
        end
  end.

Lemma mapping_get_allowed (ext : string) :
  ext ∈ ALLOWED_EXTENSIONS ->
  mapping_get format_mapping ext <> Some "FlatGeobuf"
  /\ (mapping_get format_mapping ext = None <-> ext ∈ ["dbf"; "shx"; "prj"; "cpg"]).
Proof.
  unfold ALLOWED_EXTENSIONS. rewrite !elem_of_cons, elem_of_nil.
  intros Hin.
  repeat (destruct Hin as [->|Hin];
          [split; [vm_compute; discriminate|];
           split; intros Hm;
           [first [vm_compute in Hm; discriminate | auto 10]
           |first [vm_compute; reflexivity | intuition discriminate]]|]).
  destruct Hin.
Qed.

(** X23: an upload is rejected with 415 before its content is looked at
    when the extension is not allowed, and a missing or empty file name
    counts as [unknown.bin]: it is always rejected, so [Path(None)] is
    never evaluated. An upload that is accepted has an allowed extension,
    at least one byte and at most the limit of the plan (the limit of the
    free plan for a user without subscription), and its first bytes are
    the magic bytes of the extension when there are any. Its detected
    format is never FlatGeobuf, whose extension is not allowed, and it is
    missing exactly for the sidecar files of a shapefile. *)
Theorem upload_file_accepts (file_filename : option string) (content : bytes)
    (current_user : User) (db : database) (new_id : string) :
  extension_of "unknown.bin" = "bin" ->
  let r := upload_file file_filename content current_user db new_id in
  let max_size :=
    _get_upload_limit
      (match subscriptions db !! u_id current_user with
       | Some sub => plan sub
       | None => FREE
       end) in
  r <> TypeError
  /\ (file_filename = None \/ file_filename = Some "" -> r = Rejected 415)
  /\ (forall name, file_filename = Some name ->
        ~ extension_of (or_else file_filename "unknown.bin") ∈ ALLOWED_EXTENSIONS ->
        r = Rejected 415)
  /\ (forall body, r = Uploaded body ->
        exists name,
          file_filename = Some name /\ name <> ""
          /\ extension_of name ∈ ALLOWED_EXTENSIONS
          /\ 0 < size_bytes body <= max_size
          /\ size_bytes body = Z.of_nat (String.length content)
          /\ (forall magic,
                magic_get MAGIC_BYTES (extension_of name) = Some magic ->
                String.prefix magic content = true)
          /\ detected_format body <> Some "FlatGeobuf"
          /\ (detected_format body = None <->
              extension_of name ∈ ["dbf"; "shx"; "prj"; "cpg"])
          /\ storage_path body = save content (new_id +:+ "_" +:+ path_name name) "uploads").
Proof.
  intros Hbin. cbn zeta. unfold upload_file, _validate_extension.
  set (max_size := _get_upload_limit _).
  assert (Hmissing : file_filename = None \/ file_filename = Some "" ->
            bool_decide (extension_of (or_else file_filename "unknown.bin")
                           ∈ ALLOWED_EXTENSIONS) = false).
  { intros [-> | ->]; cbn [or_else String.eqb]; rewrite Hbin; reflexivity. }
  destruct (bool_decide (extension_of (or_else file_filename "unknown.bin")
                           ∈ ALLOWED_EXTENSIONS)) eqn:Hallowed; cbn [negb].
  - apply bool_decide_eq_true in Hallowed.
    destruct file_filename as [name|]; [|now specialize (Hmissing (or_introl eq_refl))].
    destruct (String.eqb_spec name "") as [->|Hname];
      [now specialize (Hmissing (or_intror eq_refl))|].
    assert (Hor : forall default, or_else (Some name) default = name).
    { intros default. cbn. now apply String.eqb_neq in Hname as ->. }
    rewrite Hor in *.
    destruct (Z.ltb_spec max_size (Z.of_nat (String.length content))) as [Hbig|Hfits].
    { split_and!; try discriminate.
      - intros [[=] | [= ->]]. now contradiction Hname.
      - intros name' [= <-] Hnot. contradiction. }
    destruct (Z.eqb_spec (Z.of_nat (String.length content)) 0) as [Hzero|Hsome].
    { split_and!; try discriminate.
      - intros [[=] | [= ->]]. now contradiction Hname.
      - intros name' [= <-] Hnot. contradiction. }
    destruct (validate_file_magic content (extension_of name)) eqn:Hmagic; cbn [negb].
    + split_and!; try discriminate.
      * intros [[=] | [= ->]]. now contradiction Hname.
      * intros name' [= <-] Hnot. contradiction.
      * intros body [= <-]. exists name. cbn [size_bytes detected_format storage_path].
        unfold _detect_format_from_extension.
        replace (if String.eqb name "" then "" else name) with name
          by (now apply String.eqb_neq in Hname as ->).
        pose proof (mapping_get_allowed _ Hallowed) as [Hfgb Hside].
        split_and!; try done; try lia.
        intros magic Hget. revert Hmagic. unfold validate_file_magic.
        assert (Hnorm : lstrip_dots (str_lower (extension_of name)) = extension_of name).
        { revert Hallowed. unfold ALLOWED_EXTENSIONS.
          rewrite !elem_of_cons, elem_of_nil. intros Hin.
          repeat (destruct Hin as [->|Hin]; [reflexivity|]). destruct Hin. }
        now rewrite Hnorm, Hget.
    + split_and!; try discriminate.
      * intros [[=] | [= ->]]. now contradiction Hname.
      * intros name' [= <-] Hnot. contradiction.
  - split_and!; try discriminate; auto.
Qed.

End Handler.

(** A reading of the extension for names written in ASCII without
    directories: what follows the last dot, in lower case. *)
Fixpoint after_last_dot (s : string) (acc : option string) : option string :=
  match s with
  | EmptyString => acc
  | String c s' =>
      if Ascii.eqb c "." then after_last_dot s' (Some s') else after_last_dot s' acc
  end.

Definition sample_extension (name : string) : string :=
  match after_last_dot name None with
  | Some e => str_lower e
  | None => ""
  end.

Definition dave : User := {| u_id := 30%N; email := "dave@example.org" |}.

Definition no_database : database := {| conversion_jobs := ∅; subscriptions := ∅ |}.

Lemma upload_file_accepts_witness :
  upload_file sample_extension (fun name => name) (fun _ => "digest")
    (fun _ name _ => "/tmp/geoconvert/uploads/" +:+ name)
    None "{}" dave no_database "0f" = Rejected 415.
Proof.
  apply (upload_file_accepts sample_extension (fun name => name) (fun _ => "digest")
           (fun _ name _ => "/tmp/geoconvert/uploads/" +:+ name)
           None "{}" dave no_database "0f").
  - reflexivity.
  - now left.
Defined.

Example upload_geojson :
  upload_file sample_extension (fun name => name) (fun _ => "digest")
    (fun _ name _ => "/tmp/geoconvert/uploads/" +:+ name)
    (Some "Communes.GeoJSON") "{}" dave no_database "0f"
  = Uploaded {| upload_id := "0f"; filename := Some "Communes.GeoJSON"; size_bytes := 2;
                storage_path := "/tmp/geoconvert/uploads/0f_Communes.GeoJSON";
                sha256 := "digest"; detected_format := Some "GeoJSON" |}.
Proof. vm_compute. reflexivity. Qed.

Example upload_flatgeobuf_refused :
  upload_file sample_extension (fun name => name) (fun _ => "digest")
    (fun _ name _ => "/tmp/geoconvert/uploads/" +:+ name)
    (Some "roads.fgb") "fgb" dave no_database "0f" = Rejected 415.
Proof. vm_compute. reflexivity. Qed.

Example upload_json_content_not_checked :
  validate_file_magic "not json" "json" = true
  /\ validate_file_magic "not json" "geojson" = false.
Proof. vm_compute. auto. Qed.

End Upload.


(* ===================================================================== *)
(** * api/v1/auth.py: the profile *)
(* ===================================================================== *)

Module Auth.
Import Py Models.

(** [UserProfile], for the columns that the user has here. *)
Record UserProfile := {
  p_id : UUID;
  p_email : string;
  p_plan : string;
  p_conversions_used : Z;
  p_conversions_limit : Z;
}.

(** [PlanType.value] *)
Definition plan_value (p : PlanType) : string :=
  match p with
  | FREE => "free"
  | STARTER => "starter"
  | PRO => "pro"
  | ENTERPRISE => "enterprise"
  end.

(** The dict [plan_limits] of [get_profile]. *)
Definition plan_limits : list (PlanType * Z) :=
  [ (FREE, 5); (STARTER, 100); (PRO, 1000); (ENTERPRISE, -1) ].

(** [get_profile] *)
Definition get_profile (current_user : User) (db : database) : UserProfile :=
  let sub := subscriptions db !! u_id current_user in
  {| p_id := u_id current_user;
     p_email := email current_user;
     p_plan := match sub with Some sub => plan_value (plan sub) | None => "free" end;
     p_conversions_used :=
       match sub with Some sub => conversions_used_this_month sub | None => 0 end;
     p_conversions_limit :=
       match sub with
       | Some sub => Convert.limits_get plan_limits (plan sub) 5
       | None => 5
       end |}.

(** X24: the limit that the profile shows is the limit that the quota
    check enforces: for a user with a subscription a submission is
    refused with 429 exactly when the limit shown is not -1 and the
    conversions shown as used have reached it. A user without
    subscription is shown the free plan with 0 of 5 used, and every
    submission of theirs is refused with 402. *)
Theorem profile_limit_enforced (current_user : User) (db : database) :
  let profile := get_profile current_user db in
  match subscriptions db !! u_id current_user with
  | Some sub =>
      p_plan profile = plan_value (plan sub)
      /\ p_conversions_limit profile = Convert.limits_get Convert.PLAN_LIMITS (plan sub) 5
      /\ (status_code_of (Convert.check_quota current_user db) = Some 429 <->
          p_conversions_limit profile <> -1
          /\ p_conversions_limit profile <= p_conversions_used profile)
      /\ (Convert.check_quota current_user db = Ok sub <->
          p_conversions_limit profile = -1
          \/ p_conversions_used profile < p_conversions_limit profile)
  | None =>
      p_plan profile = "free" /\ p_conversions_used profile = 0
      /\ p_conversions_limit profile = 5
      /\ status_code_of (Convert.check_quota current_user db) = Some 402
  end.
Proof.
  cbn zeta. unfold get_profile.
  destruct (subscriptions db !! u_id current_user) as [sub|] eqn:Hsub;
    cbn [p_plan p_conversions_used p_conversions_limit].
  - change (Convert.limits_get plan_limits (plan sub) 5)
      with (Convert.limits_get Convert.PLAN_LIMITS (plan sub) 5).
    split; [reflexivity|]. split; [reflexivity|].
    destruct (Convert.check_quota_cases current_user db sub Hsub)
      as [(Hfin & Hle & detail & ->) | (Hok & ->)]; cbn [status_code_of].
    + split; split.
      * auto.
      * reflexivity.
      * discriminate.
      * intros [He|Hlt]; [contradiction | lia].
    + split; split.
      * discriminate.
      * intros [Hne Hle]. destruct Hok as [He|Hlt]; [contradiction | lia].
      * auto.
      * reflexivity.
  - unfold Convert.check_quota. rewrite Hsub. auto.
Qed.

(** ** Tokens and accounts *)

(** A row of [users], for the columns that the routes read. *)
Record Account := {
  account : User;
  hashed_password : string;
  is_active : bool;
}.

(** The claims of a token that the routes read: [payload.get("sub")] and
    [payload.get("type")]. *)
Record claims := {
  sub : option string;
  token_type : option string;
}.

Record TokenResponse := {
  access_token : string;
  refresh_token_of : string;
}.

(** The state of the routes: the table [users], on which the id and the
    email are unique, and the rest of the database. *)
Record state := {
  users : list Account;
  base : database;
}.

(** [select(User).where(User.id == ...)] and
    [select(User).where(User.email == ...)], with [scalar_one_or_none]. *)
Definition user_by_id (us : list Account) (uuid : UUID) : option Account :=
  List.find (fun a => bool_decide (u_id (account a) = uuid)) us.

Definition user_by_email (us : list Account) (e : string) : option Account :=
  List.find (fun a => String.eqb (email (account a)) e) us.

Section Tokens.
(** The token library ([None] is a [JWTError]), [uuid.UUID] on a string
    ([None] is its [ValueError]) and the password hashing. *)
Variable decode_token : string -> option claims.
Variable uuid_of : string -> option UUID.
Variable create_access_token : string -> string.
Variable create_refresh_token : string -> string.
Variable hash_password : string -> string.
Variable verify_password : string -> string -> bool.

Definition tokens_for (user : User) : TokenResponse :=
  {| access_token := create_access_token (str_of_uuid (u_id user));
     refresh_token_of := create_refresh_token (str_of_uuid (u_id user)) |}.

(** [get_current_user] *)
Definition get_current_user (token : string) (st : state) : response User :=
  let credentials_exc := HTTPException 401 "Token invalide ou expiré" in
  match decode_token token with
  | None => credentials_exc
  | Some payload =>
      match sub payload with
      | None => credentials_exc
      | Some user_id =>
          if String.eqb user_id "" then credentials_exc
          else
            match uuid_of user_id with
            | None => ValueError
            | Some uuid =>
                match user_by_id (users st) uuid with
                | None => credentials_exc
                | Some a => if negb (is_active a) then credentials_exc else Ok (account a)
                end
            end
      end
  end.

(** [login] *)
Definition login (username password : string) (st : state) : response TokenResponse :=
  match user_by_email (users st) username with
  | None => HTTPException 401 "Email ou mot de passe incorrect."
  | Some a =>
      if negb (verify_password password (hashed_password a))
      then HTTPException 401 "Email ou mot de passe incorrect."
      else if negb (is_active a) then HTTPException 403 "Compte désactivé."
      else Ok (tokens_for (account a))
  end.

(** [refresh_token]; [uuid.UUID] of a missing subject raises as well. *)
Definition refresh_token (token : string) (st : state) : response TokenResponse :=
  match decode_token token with
  | None => HTTPException 401 "Refresh token invalide."
  | Some payload =>
      if negb (bool_decide (token_type payload = Some "refresh"))
      then HTTPException 401 "Token de type incorrect."
      else
        match sub payload with
        | None => ValueError
        | Some user_id =>
            match uuid_of user_id with
            | None => ValueError
            | Some uuid =>
                match user_by_id (users st) uuid with
                | None => HTTPException 401 "Utilisateur introuvable."
                | Some a => Ok (tokens_for (account a))
                end
            end
        end
  end.

(** [register]; [new_id] is the id that the new row gets. *)
Definition register (e password : string) (new_id : UUID) (st : state)
  : state * response TokenResponse :=
  match user_by_email (users st) e with
  | Some _ => (st, HTTPException 409 "Email déjà utilisé.")
  | None =>
      let user := {| u_id := new_id; email := e |} in
      let a := {| account := user; hashed_password := hash_password password;
                  is_active := true |} in
      let s := {| s_user_id := new_id; plan := FREE; conversions_used_this_month := 0 |} in
      ({| users := users st ++ [a];
          base := {| conversion_jobs := conversion_jobs (base st);
                     subscriptions := <[new_id := s]> (subscriptions (base st)) |} |},
       Ok (tokens_for user))
  end.

Lemma user_by_id_Some us uuid a :
  user_by_id us uuid = Some a -> In a us /\ u_id (account a) = uuid.
Proof.
  unfold user_by_id. intros Hf. apply List.find_some in Hf as [Hin Hid].
  now apply bool_decide_eq_true in Hid.
Qed.

Lemma user_by_email_app us a e :
  user_by_email us e = None ->
  email (account a) = e ->
  user_by_email (us ++ [a]) e = Some a.
Proof.
  unfold user_by_email. intros Hnone He.
  induction us as [|x us IH]; cbn in *.
  - now rewrite He, String.eqb_refl.
  - destruct (String.eqb (email (account x)) e); [discriminate | now apply IH].
Qed.

(** X29: [get_current_user] answers a user only for a token that decodes
    to a subject naming an active account, and it never reads the type of
    the token: two tokens with the same subject get the same answer, so a
    refresh token opens the routes like an access token. [refresh_token]
    answers only for a token of type refresh, and it answers for an
    account that is not active, which [get_current_user] and [login]
    refuse. *)
Theorem token_routes (token : string) (st : state) :
  (forall user, get_current_user token st = Ok user ->
     exists payload user_id uuid a,
       decode_token token = Some payload /\ sub payload = Some user_id
       /\ uuid_of user_id = Some uuid
       /\ In a (users st) /\ account a = user /\ u_id user = uuid
       /\ is_active a = true)
  /\ (forall token' payload payload',
        decode_token token = Some payload -> decode_token token' = Some payload' ->
        sub payload = sub payload' ->
        get_current_user token st = get_current_user token' st)
  /\ (forall body, refresh_token token st = Ok body ->
        exists payload user_id uuid a,
          decode_token token = Some payload
          /\ token_type payload = Some "refresh"
          /\ sub payload = Some user_id /\ uuid_of user_id = Some uuid
          /\ In a (users st) /\ u_id (account a) = uuid
          /\ body = tokens_for (account a))
  /\ (forall payload user_id uuid a,
        decode_token token = Some payload -> token_type payload = Some "refresh" ->
        sub payload = Some user_id -> user_id <> "" -> uuid_of user_id = Some uuid ->
        user_by_id (users st) uuid = Some a -> is_active a = false ->
        refresh_token token st = Ok (tokens_for (account a))
        /\ status_code_of (get_current_user token st) = Some 401)
  /\ (forall username password body,
        login username password st = Ok body ->
        exists a, In a (users st) /\ email (account a) = username
          /\ verify_password password (hashed_password a) = true
          /\ is_active a = true /\ body = tokens_for (account a)).
Proof.
  split_and!.
  - intros user. unfold get_current_user.
    destruct (decode_token token) as [payload|]; [|discriminate].
    destruct (sub payload) as [user_id|] eqn:Hsub; [|discriminate].
    destruct (String.eqb user_id ""); [discriminate|].
    destruct (uuid_of user_id) as [uuid|] eqn:Hu; [|discriminate].
    destruct (user_by_id (users st) uuid) as [a|] eqn:Ha; [|discriminate].
    destruct (is_active a) eqn:Hact; cbn [negb]; [|discriminate].
    intros [= <-]. apply user_by_id_Some in Ha as [Hin Hid].
    exists payload, user_id, uuid, a. split_and!; auto.
  - intros token' payload payload' Hd Hd' Hsub.
    unfold get_current_user. now rewrite Hd, Hd', Hsub.
  - intros body. unfold refresh_token.
    destruct (decode_token token) as [payload|]; [|discriminate].
    destruct (bool_decide_reflect (token_type payload = Some "refresh")) as [Hty|Hty];
      cbn [negb]; [|discriminate].
    destruct (sub payload) as [user_id|] eqn:Hsub; [|discriminate].
    destruct (uuid_of user_id) as [uuid|] eqn:Hu; [|discriminate].
    destruct (user_by_id (users st) uuid) as [a|] eqn:Ha; [|discriminate].
    intros [= <-]. apply user_by_id_Some in Ha as [Hin Hid].
    exists payload, user_id, uuid, a. split_and!; auto.
  - intros payload user_id uuid a Hd Hty Hsub Hne Hu Ha Hact.
    unfold refresh_token, get_current_user.
    rewrite Hd, Hsub, Hu, Ha, Hact, (bool_decide_eq_true_2 _ Hty).
    apply String.eqb_neq in Hne. rewrite Hne. auto.
  - intros username password body. unfold login.
    destruct (user_by_email (users st) username) as [a|] eqn:Ha; [|discriminate].
    destruct (verify_password password (hashed_password a)) eqn:Hv; cbn [negb];
      [|discriminate].
    destruct (is_active a) eqn:Hact; cbn [negb]; [|discriminate].
    intros [= <-]. unfold user_by_email in Ha.
    apply List.find_some in Ha as [Hin He]. apply String.eqb_eq in He.
    exists a. auto.
Qed.

(** X30: a registration with an email that no account has adds one
    active account and a subscription to the free plan with nothing
    used: the profile then shows free, 0 of 5, the quota check passes,
    and, when the password library verifies what it hashed, the login
    with the same email and password answers the tokens of the new
    account. A registration with an email that an account has is refused
    with 409 and changes nothing, so registering the same email twice is
    refused the second time. *)
Theorem register_then_login (e password : string) (new_id : UUID) (st : state) :
  (forall p, verify_password p (hash_password p) = true) ->
  let st' := (register e password new_id st).1 in
  let user := {| u_id := new_id; email := e |} in
  match user_by_email (users st) e with
  | Some _ => register e password new_id st = (st, HTTPException 409 "Email déjà utilisé.")
  | None =>
      (register e password new_id st).2 = Ok (tokens_for user)
      /\ login e password st' = Ok (tokens_for user)
      /\ length (users st') = S (length (users st))
      /\ conversion_jobs (base st') = conversion_jobs (base st)
      /\ get_profile user (base st')
         = {| p_id := new_id; p_email := e; p_plan := "free";
              p_conversions_used := 0; p_conversions_limit := 5 |}
      /\ Convert.refused (Convert.check_quota user (base st')) = false
      /\ forall other_password other_id,
           register e other_password other_id st'
           = (st', HTTPException 409 "Email déjà utilisé.")
  end.
Proof.
  intros Hverify. cbn zeta. unfold register.
  destruct (user_by_email (users st) e) as [a|] eqn:Hfree; [reflexivity|].
  cbn [fst snd users base].
  set (a := {| account := {| u_id := new_id; email := e |};
               hashed_password := hash_password password; is_active := true |}).
  assert (Hfound : user_by_email (users st ++ [a]) e = Some a)
    by now apply user_by_email_app.
  split_and!.
  - reflexivity.
  - unfold login. cbn [users]. rewrite Hfound. cbn [hashed_password a is_active account].
    now rewrite Hverify.
  - rewrite length_app. cbn. lia.
  - reflexivity.
  - unfold get_profile. cbn [subscriptions u_id email]. now rewrite lookup_insert_eq.
  - unfold Convert.check_quota. cbn [subscriptions u_id]. now rewrite lookup_insert_eq.
  - intros other_password other_id. now rewrite Hfound.
Qed.

End Tokens.

Definition sample_decode (token : string) : option claims :=
  if String.eqb token "access-7" then Some {| sub := Some "7"; token_type := Some "access" |}
  else if String.eqb token "refresh-7"
  then Some {| sub := Some "7"; token_type := Some "refresh" |}
  else None.

Definition sample_uuid_of (s : string) : option UUID :=
  if String.eqb s "7" then Some 7%N else None.

Definition nobody : state :=
  {| users := []; base := {| conversion_jobs := ∅; subscriptions := ∅ |} |}.

Lemma register_then_login_witness :
  login (fun subject => "access:" +:+ subject) (fun subject => "refresh:" +:+ subject)
    (fun plain hashed => String.eqb hashed ("hashed:" +:+ plain))
    "erin@example.org" "s3cret"
    (register (fun subject => "access:" +:+ subject) (fun subject => "refresh:" +:+ subject)
       (fun plain => "hashed:" +:+ plain) "erin@example.org" "s3cret" 7%N nobody).1
  = Ok (tokens_for (fun subject => "access:" +:+ subject)
          (fun subject => "refresh:" +:+ subject)
          {| u_id := 7%N; email := "erin@example.org" |}).
Proof.
  apply (register_then_login (fun subject => "access:" +:+ subject)
           (fun subject => "refresh:" +:+ subject) (fun plain => "hashed:" +:+ plain)
           (fun plain hashed => String.eqb hashed ("hashed:" +:+ plain))
           "erin@example.org" "s3cret" 7%N nobody).
  intros p. apply String.eqb_refl.
Defined.

Definition frank : Account :=
  {| account := {| u_id := 7%N; email := "frank@example.org" |};
     hashed_password := "hashed:pw"; is_active := true |}.

(** A refresh token is accepted where an access token is expected. *)
Example refresh_token_authenticates :
  get_current_user sample_decode sample_uuid_of "refresh-7"
    {| users := [frank]; base := {| conversion_jobs := ∅; subscriptions := ∅ |} |}
  = Ok {| u_id := 7%N; email := "frank@example.org" |}.
Proof. reflexivity. Qed.

End Auth.
